(** * auto_categorise: document classification and entity-role inference

    A shallow embedding of the rule engine ([rules.py]), the score fusion
    ([fuse.py]), the signal extractors ([signals.py]), the categorization
    orchestrator ([resolver.py]), the entity-role clustering
    ([entity_role_infer.py]), the store ([db.py]) and the category list
    ([source_of_truth.py]), with the properties of the specification
    stated and settled against it.

    Conventions of the embedding.
    - Python [str] is [string]; texts are taken to be ASCII, so that
      [str.lower], [\w], [\s], [\d] and [re.I] are their ASCII versions.
    - Python [float] scores are exact rationals ([Q]).  The constants the
      code compares against (0.6, 0.7, 0.8, 0.95, ...) are decimal literals
      and every value compared with them here is either another literal or a
      sum of the exactly representable 0.5 and 0.25, so the comparisons agree
      with the binary ones.
    - Python dicts whose iteration order is observable ([TEXT_RULES],
      [FILENAME_HINTS], [tokenmap], [clusters], [Counter]) are association
      lists in insertion order; dicts that are only looked up ([facts],
      [fname_cnts], [cat_vecs]) are [gmap]s.
    - An exception is a value of [exn] in the [result] type. *)

From Stdlib Require Import QArith Qround Lqa Ascii String.
From stdpp Require Import gmap strings list sorting.

Local Open Scope string_scope.
Local Open Scope list_scope.

(** ** Python built-ins on ASCII strings *)

Module Py.

Definition chars (s : string) : list ascii := list_ascii_of_string s.
Definition str (l : list ascii) : string := string_of_list_ascii l.

Definition code (c : ascii) : nat := nat_of_ascii c.
Definition between (lo hi : nat) (c : ascii) : bool :=
  (lo <=? code c)%nat && (code c <=? hi)%nat.

Definition isupper (c : ascii) : bool := between 65 90 c.
Definition islower (c : ascii) : bool := between 97 122 c.
Definition isdigit (c : ascii) : bool := between 48 57 c.
Definition isalpha (c : ascii) : bool := isupper c || islower c.
(** [str.isspace] on ASCII: TAB, LF, VT, FF, CR, FS, GS, RS, US, SPACE. *)
Definition isspace (c : ascii) : bool := between 9 13 c || between 28 32 c.
(** [\w] on ASCII. *)
Definition isword (c : ascii) : bool :=
  isalpha c || isdigit c || (code c =? 95)%nat.

Definition lower_char (c : ascii) : ascii :=
  if isupper c then ascii_of_nat (code c + 32) else c.
Definition upper_char (c : ascii) : ascii :=
  if islower c then ascii_of_nat (code c - 32) else c.

Definition lower (s : string) : string := str (map lower_char (chars s)).
Definition upper (s : string) : string := str (map upper_char (chars s)).

Definition ascii_eqb (a b : ascii) : bool := Ascii.eqb a b.

Fixpoint starts_with (p l : list ascii) : bool :=
  match p, l with
  | [], _ => true
  | a :: p', b :: l' => ascii_eqb a b && starts_with p' l'
  | _ :: _, [] => false
  end.

(** [p in s] for strings. *)
Fixpoint contains_chars (p l : list ascii) : bool :=
  starts_with p l ||
  match l with
  | [] => false
  | _ :: l' => contains_chars p l'
  end.
Definition contains (p s : string) : bool := contains_chars (chars p) (chars s).

(** [s.replace(old, new)]: every non-overlapping occurrence, left to right
    ([old] is never empty where the code calls it). *)
Fixpoint replace_chars (fuel : nat) (old new l : list ascii) : list ascii :=
  match fuel with
  | O => l
  | S fuel' =>
      match l with
      | [] => []
      | c :: l' =>
          if starts_with old l && negb (Nat.eqb (length old) 0)
          then new ++ replace_chars fuel' old new (drop (length old) l)
          else c :: replace_chars fuel' old new l'
      end
  end.
Definition replace (old new s : string) : string :=
  str (replace_chars (S (String.length s)) (chars old) (chars new) (chars s)).

(** [s.strip()]. *)
Fixpoint lstrip_chars (l : list ascii) : list ascii :=
  match l with
  | c :: l' => if isspace c then lstrip_chars l' else l
  | [] => []
  end.
Definition strip (s : string) : string :=
  str (rev (lstrip_chars (rev (lstrip_chars (chars s))))).

(** [sep.join(parts)]. *)
Fixpoint join (sep : string) (parts : list string) : string :=
  match parts with
  | [] => ""
  | [p] => p
  | p :: rest => p ++ sep ++ join sep rest
  end.

(** [s.rsplit("/", 1)[-1]]: what follows the last slash. *)
Fixpoint after_last_slash (l : list ascii) : list ascii :=
  match l with
  | [] => []
  | c :: l' =>
      if existsb (ascii_eqb "/"%char) l' then after_last_slash l'
      else if ascii_eqb c "/"%char then l' else l
  end.
Definition rsplit_slash_last (s : string) : string := str (after_last_slash (chars s)).

(** [s[i:j]] for [0 <= i <= j]. *)
Definition slice (i j : nat) (s : string) : string :=
  str (take (j - i) (drop i (chars s))).

(** [s[:n]]. *)
Definition prefix (n : nat) (s : string) : string := slice 0 n s.

(** [max(a, b)] and [min(a, b)] on numbers: the first argument is kept
    unless the second is strictly better. *)
Definition max (a b : Q) : Q := if Qle_bool b a then a else b.
Definition min (a b : Q) : Q := if Qle_bool a b then a else b.

(** A non-empty string is truthy. *)
Definition truthy (s : string) : bool := negb (String.eqb s "").

(** The line feed, ["\n"]. *)
Definition NL : string := String (ascii_of_nat 10) "".

(** [round(x, nd)]: to [nd] decimals, a tie going to the even neighbour
    (on the exact rational; a binary float is seldom an exact tie). *)
Definition round (x : Q) (nd : nat) : Q :=
  let scale := inject_Z (10 ^ Z.of_nat nd) in
  let y := (x * scale)%Q in
  let f := Qfloor y in
  let r := (y - inject_Z f)%Q in
  let n := if Qeq_bool r (1 # 2) then (if Z.even f then f else (f + 1)%Z)
           else if Qle_bool r (1 # 2) then f else (f + 1)%Z in
  (inject_Z n / scale)%Q.

(** Stable sorts, as [list.sort] and SQL's [ORDER BY] on a unique key:
    [sort_desc lt] is [sort(key=..., reverse=True)] for the strict order
    [lt] on keys, [sort_asc] the ascending one.  Elements with equal keys
    keep their order. *)
Section Sort.
Context {A : Type} (lt : A -> A -> bool).
Fixpoint insert_desc (x : A) (l : list A) : list A :=
  match l with
  | [] => [x]
  | y :: l' => if lt x y then y :: insert_desc x l' else x :: l
  end.
Definition sort_desc (l : list A) : list A := fold_right insert_desc [] l.
Fixpoint insert_asc (x : A) (l : list A) : list A :=
  match l with
  | [] => [x]
  | y :: l' => if lt y x then y :: insert_asc x l' else x :: l
  end.
Definition sort_asc (l : list A) : list A := fold_right insert_asc [] l.
End Sort.

End Py.

(** ** The fragment of Python's [re] the program uses

    A backtracking matcher with Python's priorities: alternatives left to
    right, greedy repetition longest first, lazy repetition shortest first,
    [search] returning the leftmost match. *)

Module Re.

(** Character sets. *)
Inductive cset :=
| CLit (c : ascii)
| CRange (lo hi : ascii)
| CDigit                      (* \d *)
| CSpace                      (* \s *)
| CUnion (a b : cset)
| CNeg (a : cset).            (* [^...] *)

Inductive regex :=
| Eps
| Chr (cs : cset)
| Dot                         (* . *)
| Seq (r1 r2 : regex)
| Alt (r1 r2 : regex)
| Star (r : regex)            (* r*  *)
| LazyStar (r : regex)        (* r*? *)
| WordB                       (* \b *)
| Eos                         (* $ *)
| Group (i : nat) (r : regex) (* the i-th capturing group *)
.

Record flags := { IGNORECASE : bool; MULTILINE : bool; DOTALL : bool }.

(** A compiled pattern: the source text of the pattern, its syntax tree
    and the flags it was compiled with. *)
Record compiled := { pattern : string; ast : regex; fl : flags }.

Definition caps := list (nat * list ascii).

Record match_obj := { m_start : nat; m_group0 : list ascii; m_groups : caps }.

Section Matcher.
Variable f : flags.

Fixpoint mem (c : ascii) (cs : cset) : bool :=
  match cs with
  | CLit l =>
      if IGNORECASE f then Py.ascii_eqb (Py.lower_char c) (Py.lower_char l)
      else Py.ascii_eqb c l
  | CRange lo hi =>
      Py.between (Py.code lo) (Py.code hi) c ||
      (IGNORECASE f && (Py.between (Py.code lo) (Py.code hi) (Py.lower_char c) ||
               Py.between (Py.code lo) (Py.code hi) (Py.upper_char c)))
  | CDigit => Py.isdigit c
  | CSpace => Py.isspace c
  | CUnion a b => mem c a || mem c b
  | CNeg a => negb (mem c a)
  end.

Definition word_at (o : option ascii) : bool :=
  match o with Some c => Py.isword c | None => false end.

Definition newline : ascii := ascii_of_nat 10.

Definition at_eos (s : list ascii) : bool :=
  match s with
  | [] => true
  | c :: rest => Py.ascii_eqb c newline && (MULTILINE f || Nat.eqb (length rest) 0)
  end.

Context {A : Type}.

(** A continuation receives the character before the rest, the rest and
    the captures so far. *)
Definition cont : Type := option ascii -> list ascii -> caps -> option A.

(** Greedy repetition of [step]: another round first, each round having to
    consume something; [n] bounds the rounds by the length of the text. *)
Fixpoint star_loop (step : option ascii -> list ascii -> caps -> cont -> option A)
    (k : cont) (n : nat) (prev : option ascii) (s : list ascii) (cp : caps) : option A :=
  match n with
  | O => k prev s cp
  | S n' =>
      match step prev s cp
              (fun p' s' cp' =>
                 if (length s' <? length s)%nat then star_loop step k n' p' s' cp' else None) with
      | Some a => Some a
      | None => k prev s cp
      end
  end.

(** Lazy repetition: the continuation first. *)
Fixpoint lazy_loop (step : option ascii -> list ascii -> caps -> cont -> option A)
    (k : cont) (n : nat) (prev : option ascii) (s : list ascii) (cp : caps) : option A :=
  match n with
  | O => k prev s cp
  | S n' =>
      match k prev s cp with
      | Some a => Some a
      | None =>
          step prev s cp
            (fun p' s' cp' =>
               if (length s' <? length s)%nat then lazy_loop step k n' p' s' cp' else None)
      end
  end.

(** [run r prev s cp k]: match [r] at the front of [s] ([prev] is the
    character before it), then hand what is left to [k]. *)
Fixpoint run (r : regex) (prev : option ascii) (s : list ascii) (cp : caps)
    (k : cont) {struct r} : option A :=
  match r with
  | Eps => k prev s cp
  | Chr cs =>
      match s with
      | c :: s' => if mem c cs then k (Some c) s' cp else None
      | [] => None
      end
  | Dot =>
      match s with
      | c :: s' =>
          if DOTALL f || negb (Py.ascii_eqb c newline) then k (Some c) s' cp else None
      | [] => None
      end
  | Seq r1 r2 => run r1 prev s cp (fun p' s' cp' => run r2 p' s' cp' k)
  | Alt r1 r2 =>
      match run r1 prev s cp k with
      | Some a => Some a
      | None => run r2 prev s cp k
      end
  | Star r1 => star_loop (run r1) k (S (length s)) prev s cp
  | LazyStar r1 => lazy_loop (run r1) k (S (length s)) prev s cp
  | WordB => if xorb (word_at prev) (word_at (head s)) then k prev s cp else None
  | Eos => if at_eos s then k prev s cp else None
  | Group i r1 =>
      run r1 prev s cp
        (fun p' s' cp' => k p' s' ((i, take (length s - length s') s) :: cp'))
  end.

End Matcher.

(** Match [r] at the front of [s]: what the match consumed and captured. *)
Definition match_here (f : flags) (r : regex) (prev : option ascii) (s : list ascii)
    : option (list ascii * caps) :=
  run f r prev s [] (fun _ s' cp => Some (take (length s - length s') s, cp)).

Fixpoint search_from (f : flags) (r : regex) (prev : option ascii) (s : list ascii)
    (pos : nat) {struct s} : option match_obj :=
  match match_here f r prev s with
  | Some (g0, cp) => Some {| m_start := pos; m_group0 := g0; m_groups := cp |}
  | None =>
      match s with
      | [] => None
      | c :: s' => search_from f r (Some c) s' (S pos)
      end
  end.

(** [rx.search(text)]. *)
Definition search (rx : compiled) (text : string) : option match_obj :=
  search_from (fl rx) (ast rx) None (Py.chars text) 0.

(** [bool(rx.search(text))]. *)
Definition found (rx : compiled) (text : string) : bool :=
  match search rx text with Some _ => true | None => false end.

(** [m.group(0)] and [m.group(i)]. *)
Definition group0 (m : match_obj) : string := Py.str (m_group0 m).
Definition group (i : nat) (m : match_obj) : string :=
  match List.find (fun p => Nat.eqb (fst p) i) (m_groups m) with
  | Some (_, g) => Py.str g
  | None => ""
  end.

(** [re.sub(rx, repl, text)] for patterns that match no empty string:
    every non-overlapping match, left to right, becomes [repl]. *)
Fixpoint sub_chars (fuel : nat) (f : flags) (r : regex) (repl : list ascii)
    (prev : option ascii) (s : list ascii) : list ascii :=
  match fuel with
  | O => s
  | S fuel' =>
      match s with
      | [] => []
      | c :: s' =>
          match match_here f r prev s with
          | Some (g0, _) =>
              match g0 with
              | [] => c :: sub_chars fuel' f r repl (Some c) s'
              | _ :: _ =>
                  repl ++ sub_chars fuel' f r repl (last g0) (drop (length g0) s)
              end
          | None => c :: sub_chars fuel' f r repl (Some c) s'
          end
      end
  end.

Definition sub (rx : compiled) (repl text : string) : string :=
  Py.str (sub_chars (S (String.length text)) (fl rx) (ast rx)
            (Py.chars repl) None (Py.chars text)).

(** [rx.findall(text)] for a pattern without groups that matches no empty
    string. *)
Fixpoint findall_chars (fuel : nat) (f : flags) (r : regex)
    (prev : option ascii) (s : list ascii) : list string :=
  match fuel with
  | O => []
  | S fuel' =>
      match s with
      | [] => []
      | c :: s' =>
          match match_here f r prev s with
          | Some (g0, _) =>
              match g0 with
              | [] => findall_chars fuel' f r (Some c) s'
              | _ :: _ =>
                  Py.str g0 :: findall_chars fuel' f r (last g0) (drop (length g0) s)
              end
          | None => findall_chars fuel' f r (Some c) s'
          end
      end
  end.

Definition findall (rx : compiled) (text : string) : list string :=
  findall_chars (S (String.length text)) (fl rx) (ast rx) None (Py.chars text).

(** *** Pattern syntax *)

Declare Scope re_scope.
Delimit Scope re_scope with re.
Bind Scope re_scope with regex.
Infix "**" := Seq (at level 40, left associativity) : re_scope.
Infix "|||" := Alt (at level 50, left associativity) : re_scope.

Fixpoint lit_chars (l : list ascii) : regex :=
  match l with
  | [] => Eps
  | [c] => Chr (CLit c)
  | c :: l' => Seq (Chr (CLit c)) (lit_chars l')
  end.
(** A literal run of characters. *)
Definition lit (s : string) : regex := lit_chars (Py.chars s).

Definition opt (r : regex) : regex := Alt r Eps.        (* r? *)
Definition plus (r : regex) : regex := Seq r (Star r).  (* r+ *)
Fixpoint rep (n : nat) (r : regex) : regex :=           (* r{n} *)
  match n with
  | O => Eps
  | 1%nat => r
  | S n' => Seq r (rep n' r)
  end.

Definition AZ : regex := Chr (CRange "A" "Z").           (* [A-Z] *)
Definition D09 : regex := Chr (CRange "0" "9").          (* [0-9] *)
Definition d : regex := Chr CDigit.                      (* \d *)
Definition AZ09 : regex := Chr (CUnion (CRange "A" "Z") (CRange "0" "9")).
Definition sp1 : regex := plus (Chr CSpace).             (* \s+ *)
Definition sp0 : regex := Star (Chr CSpace).             (* \s* *)
Definition ch (c : ascii) : regex := Chr (CLit c).

Definition IM : flags := {| IGNORECASE := true; MULTILINE := true; DOTALL := false |}.
Definition IS : flags := {| IGNORECASE := true; MULTILINE := false; DOTALL := true |}.
Definition I_ : flags := {| IGNORECASE := true; MULTILINE := false; DOTALL := false |}.
Definition no_flags : flags := {| IGNORECASE := false; MULTILINE := false; DOTALL := false |}.

End Re.

(** ** rules.py: the rule engine *)

Module Rules.
Import Re.
Local Open Scope re_scope.
Local Open Scope Q_scope.

(** [_rx(p, flags=re.I|re.M)] *)
Definition _rx (p : string) (r : regex) : compiled :=
  {| pattern := p; ast := r; fl := IM |}.
Definition _rx_flags (p : string) (r : regex) (f : flags) : compiled :=
  {| pattern := p; ast := r; fl := f |}.

(** [\bw1\s+w2\s+...\b] without the boundaries: words separated by [\s+]. *)
Fixpoint words (ws : list string) : regex :=
  match ws with
  | [] => Eps
  | [w] => lit w
  | w :: rest => lit w ** sp1 ** words rest
  end.
(** [\b r \b] *)
Definition bw (r : regex) : regex := WordB ** r ** WordB.

(** *** Strong IDs / corporate markers *)
Definition PAN_RX : compiled :=
  _rx "\b[A-Z]{5}[0-9]{4}[A-Z]\b" (bw (rep 5 AZ ** rep 4 D09 ** AZ)).
Definition TAN_RX : compiled :=
  _rx "\b[A-Z]{4}[0-9]{5}[A-Z]\b" (bw (rep 4 AZ ** rep 5 D09 ** AZ)).
Definition GSTIN_RX : compiled :=
  _rx "\b\d{2}[A-Z]{5}\d{4}[A-Z][1-9A-Z]Z[0-9A-Z]\b"
    (bw (rep 2 d ** rep 5 AZ ** rep 4 d ** AZ
         ** Chr (CUnion (CRange "1" "9") (CRange "A" "Z")) ** ch "Z"
         ** Chr (CUnion (CRange "0" "9") (CRange "A" "Z")))).
Definition LEI_RX : compiled :=
  _rx_flags "\b(?:Legal\s+Entity\s+Identifier|LEI)\b.*?\b([A-Z0-9]{20})\b"
    (WordB ** (words ["Legal"; "Entity"; "Identifier"] ||| lit "LEI") ** WordB
     ** LazyStar Dot ** WordB ** Group 1 (rep 20 AZ09) ** WordB) IS.

Definition CIN_RX : compiled :=
  _rx "\b[UL]\d{2}[A-Z]{3}\d{4}[A-Z]{3}\d{6}\b"
    (bw (Chr (CUnion (CLit "U") (CLit "L")) ** rep 2 d ** rep 3 AZ ** rep 4 d
         ** rep 3 AZ ** rep 6 d)).
Definition LLPIN_RX : compiled :=
  _rx "\bLLPIN\b[:\s-]*[A-Z]{3}-?\d{4}\b"
    (WordB ** lit "LLPIN" ** WordB
     ** Star (Chr (CUnion (CLit ":") (CUnion CSpace (CLit "-"))))
     ** rep 3 AZ ** opt (ch "-") ** rep 4 d ** WordB).
Definition COI_RX : compiled :=
  _rx "\bCertificate\s+of\s+Incorporation\b|\bCOI\b"
    (bw (words ["Certificate"; "of"; "Incorporation"]) ||| bw (lit "COI")).
Definition MOA_RX : compiled :=
  _rx "\bMemorandum\s+of\s+Association\b|\bMOA\b"
    (bw (words ["Memorandum"; "of"; "Association"]) ||| bw (lit "MOA")).
Definition AOA_RX : compiled :=
  _rx "\bArticles\s+of\s+Association\b|\bAOA\b"
    (bw (words ["Articles"; "of"; "Association"]) ||| bw (lit "AOA")).

Definition COMPANY_MARKERS_RX : compiled :=
  _rx "\b(Pvt\.?|Private)\s+Limited\b|\bLLP\b|\bLLPIN\b|\bCIN\b|\bCompany\b|\bInc\b|\bLtd\b"
    (bw (Group 1 (lit "Pvt" ** opt (ch ".") ||| lit "Private") ** sp1 ** lit "Limited")
     ||| bw (lit "LLP") ||| bw (lit "LLPIN") ||| bw (lit "CIN")
     ||| bw (lit "Company") ||| bw (lit "Inc") ||| bw (lit "Ltd")).

(** *** Approvals and infrastructure *)
Definition RERA_RX : compiled :=
  _rx "\bRERA\b|\bTSRERA\b|\bK-?RERA\b"
    (bw (lit "RERA") ||| bw (lit "TSRERA") ||| bw (lit "K" ** opt (ch "-") ** lit "RERA")).
Definition HMDA_RX : compiled :=
  _rx "\bHyderabad\s+Metropolitan\s+Development\s+Authority\b|\bHMDA\b"
    (bw (words ["Hyderabad"; "Metropolitan"; "Development"; "Authority"])
     ||| bw (lit "HMDA")).
Definition DC_RX : compiled :=
  _rx "\bDevelopment\s+Permission\b|\bDC\s+Letter\b|\bBuilding\s+Permission\b"
    (bw (words ["Development"; "Permission"]) ||| bw (words ["DC"; "Letter"])
     ||| bw (words ["Building"; "Permission"])).
Definition BPO_RX : compiled :=
  _rx "\bBuilding\s+Permit\s+Order\b|\bPermit\s+Order\b"
    (bw (words ["Building"; "Permit"; "Order"]) ||| bw (words ["Permit"; "Order"])).
Definition FIRE_RX : compiled :=
  _rx "\b(Provisional\s+)?No\s*Objection\s*Certificate\b.*\bFire\b"
    (WordB ** opt (Group 1 (lit "Provisional" ** sp1))
     ** lit "No" ** sp0 ** lit "Objection" ** sp0 ** lit "Certificate" ** WordB
     ** Star Dot ** WordB ** lit "Fire" ** WordB).
Definition PCB_RX : compiled :=
  _rx "\bPollution\s+Control\s+Board\b|\bConsent\s+to\s+(Establish|Operate)\b|\bCTE\b|\bCTO\b"
    (bw (words ["Pollution"; "Control"; "Board"])
     ||| bw (words ["Consent"; "to"] ** sp1 ** Group 1 (lit "Establish" ||| lit "Operate"))
     ||| bw (lit "CTE") ||| bw (lit "CTO")).
Definition AAI_RX : compiled :=
  _rx "\bAirports?\s+Authority\s+of\s+India\b|\bAAI\b.*\bNOC\b|\bheight\s+clearance\b"
    (bw (lit "Airport" ** opt (ch "s") ** sp1 ** words ["Authority"; "of"; "India"])
     ||| (WordB ** lit "AAI" ** WordB ** Star Dot ** WordB ** lit "NOC" ** WordB)
     ||| bw (words ["height"; "clearance"])).

Definition BWSSB_RX : compiled :=
  _rx "\bBWSSB\b|\bWater\s+Supply\b|\bWater\s+Connection\b"
    (bw (lit "BWSSB") ||| bw (words ["Water"; "Supply"]) ||| bw (words ["Water"; "Connection"])).
Definition HMWS_RX : compiled :=
  _rx "\bHMWS&SB\b|\bHyderabad\s+Metropolitan\s+Water\b"
    (bw (lit "HMWS&SB") ||| bw (words ["Hyderabad"; "Metropolitan"; "Water"])).
Definition BESCOM_RX : compiled :=
  _rx "\bBESCOM\b|\bBangalore\s+Electricity\b"
    (bw (lit "BESCOM") ||| bw (words ["Bangalore"; "Electricity"])).
Definition BSNL_RX : compiled :=
  _rx "\bBharat\s+Sanchar\s+Nigam\s+Limited\b|\bBSNL\b"
    (bw (words ["Bharat"; "Sanchar"; "Nigam"; "Limited"]) ||| bw (lit "BSNL")).

(** *** Legal / land *)
Definition EC_RX : compiled :=
  _rx "\bEncumbrance\s+Certificate\b|\bForm\s+1[56]\b"
    (bw (words ["Encumbrance"; "Certificate"])
     ||| bw (lit "Form" ** sp1 ** ch "1" ** Chr (CUnion (CLit "5") (CLit "6")))).
Definition PAHANI_RX : compiled :=
  _rx "\bPahani\b|\b1B\b|\bROR\b|\bAdangal\b"
    (bw (lit "Pahani") ||| bw (lit "1B") ||| bw (lit "ROR") ||| bw (lit "Adangal")).
Definition PASSBOOK_RX : compiled := _rx "\bPassbook\b" (bw (lit "Passbook")).

Definition DAGPA_RX : compiled :=
  _rx "\bDevelopment\s+Agreement[-\s]*cum\s+GPA\b|\bDAGPA\b"
    (bw (words ["Development"; "Agreement"] ** Star (Chr (CUnion (CLit "-") CSpace))
         ** words ["cum"; "GPA"])
     ||| bw (lit "DAGPA")).
Definition JDA_RX : compiled :=
  _rx "\bJoint\s+Development\s+Agreement\b|\bJDA\b"
    (bw (words ["Joint"; "Development"; "Agreement"]) ||| bw (lit "JDA")).
Definition GPA_RX : compiled :=
  _rx "\bGeneral\s+Power\s+of\s+Attorney\b|\bGPA\b"
    (bw (words ["General"; "Power"; "of"; "Attorney"]) ||| bw (lit "GPA")).
Definition NALA_RX : compiled :=
  _rx "\bNALA\b|\bNon-?Agricultural\s+Land\s+Assessment\b"
    (bw (lit "NALA")
     ||| bw (lit "Non" ** opt (ch "-") ** words ["Agricultural"; "Land"; "Assessment"])).
Definition LUC_RX : compiled :=
  _rx "\bLand\s+Use\s+Certificate\b|\bLUC\b"
    (bw (words ["Land"; "Use"; "Certificate"]) ||| bw (lit "LUC")).
Definition TDR_RX : compiled :=
  _rx "\bTransfer\s+of\s+Development\s+Rights\b|\bTDR\b"
    (bw (words ["Transfer"; "of"; "Development"; "Rights"]) ||| bw (lit "TDR")).

(** *** Bank statement detection *)
Definition BANK_STMT_RX : compiled :=
  _rx "\b(Account\s+Statement|Statement\s+of\s+Account|SOA|Account\s+No\.?|A/c\s+No\.?|IFSC)\b"
    (bw (Group 1 (words ["Account"; "Statement"]
                  ||| words ["Statement"; "of"; "Account"]
                  ||| lit "SOA"
                  ||| words ["Account"; "No"] ** opt (ch ".")
                  ||| words ["A/c"; "No"] ** opt (ch ".")
                  ||| lit "IFSC"))).
Definition CORP_HINTS_RX : compiled := COMPANY_MARKERS_RX.

(** The patterns compiled in place inside [TEXT_RULES]. *)
Definition AADHAAR_RX : compiled := _rx "\bAadhaar\b" (bw (lit "Aadhaar")).
Definition PARTNERSHIP_DEED_RX : compiled :=
  _rx "\bPartnership\s+Deed\b|\bFirm\s+Registration\b"
    (bw (words ["Partnership"; "Deed"]) ||| bw (words ["Firm"; "Registration"])).
Definition COMMENCEMENT_RX : compiled :=
  _rx "\bCommencement\s+(Certificate|Letter)\b"
    (bw (lit "Commencement" ** sp1 ** Group 1 (lit "Certificate" ||| lit "Letter"))).

(** slug -> regex list (text-based rules), in the order of the source. *)
Definition TEXT_RULES : list (string * list compiled) :=
  [ ("directors_pan_aadhaar", [PAN_RX; AADHAAR_RX]);
    ("dev_company_gst_pan", [GSTIN_RX]);
    ("dev_company_tan", [TAN_RX]);
    ("dev_company_lei", [LEI_RX]);
    ("dev_company_moa_aoa_incorp", [MOA_RX; AOA_RX]);
    ("group_company_moa_aoa_incorp", [MOA_RX; AOA_RX]);
    ("dev_llp_agreement_incorp", [LLPIN_RX; COI_RX]);
    ("dev_partnership_deed_registration", [PARTNERSHIP_DEED_RX]);
    ("ts_hmda_dc_letter", [HMDA_RX; DC_RX]);
    ("ts_building_permit_order", [BPO_RX]);
    ("ts_provisional_fire_noc", [FIRE_RX]);
    ("ts_pollution_noc", [PCB_RX]);
    ("ts_airport_authority", [AAI_RX]);
    ("ts_rera_certificate", [RERA_RX]);
    ("ts_permission_water_supply", [HMWS_RX]);
    ("ka_commencement_letter", [COMMENCEMENT_RX]);
    ("ka_provisional_fire_noc", [FIRE_RX]);
    ("ka_pollution_noc", [PCB_RX]);
    ("ka_airport_authority", [AAI_RX]);
    ("ka_rera", [RERA_RX]);
    ("ka_permission_water_supply", [BWSSB_RX]);
    ("ka_bescom", [BESCOM_RX]);
    ("ka_bsnl", [BSNL_RX]);
    ("legal_certified_ec", [EC_RX]);
    ("legal_pahanies", [PAHANI_RX]);
    ("legal_passbooks", [PASSBOOK_RX]);
    ("land_ts_dagpa", [DAGPA_RX]);
    ("land_ka_jda", [JDA_RX]);
    ("land_ka_gpa", [GPA_RX]);
    ("land_ts_nala", [NALA_RX]);
    ("land_ts_land_use_certificate", [LUC_RX]);
    ("land_ts_tdr", [TDR_RX]);
    ("land_ka_tdr", [TDR_RX]) ].

(** filename tokens -> candidate slugs. *)
Definition FILENAME_HINTS : list (string * list string) :=
  [ ("gst", ["dev_company_gst_pan"; "group_company_gst_pan"; "dev_llp_gst_pan";
             "dev_partnership_gst_pan"]);
    ("tan", ["dev_company_tan"; "dev_llp_tan"; "dev_partnership_tan"]);
    ("lei", ["dev_company_lei"; "dev_llp_lei"; "dev_partnership_lei"]);
    ("rera", ["ts_rera_certificate"; "ka_rera"]);
    ("hmda", ["ts_hmda_dc_letter"]);
    ("aai", ["ts_airport_authority"; "ka_airport_authority"]);
    ("moa", ["dev_company_moa_aoa_incorp"; "group_company_moa_aoa_incorp"]);
    ("aoa", ["dev_company_moa_aoa_incorp"; "group_company_moa_aoa_incorp"]);
    ("coi", ["dev_llp_agreement_incorp"]);
    ("accountstatement", ["dev_company_bank_stmt"; "dev_llp_bank_stmt";
                          "dev_partnership_bank_stmt"; "directors_bank_stmt_1y"]);
    ("statement", ["dev_company_bank_stmt"; "dev_llp_bank_stmt";
                   "dev_partnership_bank_stmt"; "directors_bank_stmt_1y"]) ].

(** [d.get(key, default)] on an insertion-ordered dict. *)
Fixpoint dict_get {V : Type} (key : string) (dflt : V) (dict : list (string * V)) : V :=
  match dict with
  | [] => dflt
  | (k, v) :: rest => if String.eqb k key then v else dict_get key dflt rest
  end.

(** A rule hit: (slug, score, reason). *)
Definition hit : Type := string * Q * string.
Definition hit_slug (h : hit) : string := fst (fst h).
Definition hit_score (h : hit) : Q := snd (fst h).
Definition hit_reason (h : hit) : string := snd h.

Definition _add_hit (hits : list hit) (slug : string) (score : Q) (why : string) : list hit :=
  hits ++ [(slug, Py.min 0.95 score, why)].

Definition _bank_router (text : string) (state : option string) : list hit :=
  let out : list hit := [] in
  if negb (found BANK_STMT_RX text) then out
  else if found CORP_HINTS_RX text || found GSTIN_RX text
          || found CIN_RX text || found LLPIN_RX text
  then fold_left (fun out s => _add_hit out s 0.9 "bank statement + corporate markers")
                 ["dev_company_bank_stmt"; "dev_llp_bank_stmt"; "dev_partnership_bank_stmt"]
                 out
  else _add_hit out "directors_bank_stmt_1y" 0.9 "bank statement + no corporate markers".

(** [r.pattern[:48] + ("..." if len(r.pattern) > 48 else "")] *)
Definition reason_of (r : compiled) : string :=
  Py.prefix 48 (pattern r) ++ (if (48 <? String.length (pattern r))%nat then "..." else "").

(** The inner loop over the detectors of one slug: the local score and the
    reasons collected. *)
Definition local_step (text : string) (acc : Q * list string) (r : compiled)
    : Q * list string :=
  let '(local, reasons) := acc in
  if found r text
  then (local + (if Qeq_bool local 0.0 then 0.5 else 0.25), reasons ++ [reason_of r])
  else (local, reasons).

Definition local_score (text : string) (regs : list compiled) : Q * list string :=
  fold_left (local_step text) regs (0.0, []).

(** 1) the text rules, over any slug -> detectors table. *)
Definition text_rule_hits (table : list (string * list compiled)) (text : string)
    (hits : list hit) : list hit :=
  fold_left
    (fun hits '(slug, regs) =>
       let '(local, reasons) := local_score text regs in
       if Qle_bool 0.8 local then _add_hit hits slug local (Py.join "; " reasons)
       else hits)
    table hits.

Definition EXT_RX : compiled :=
  _rx_flags "\.(pdf|png|jpg|jpeg|tif|tiff|docx?)$"
    (ch "." ** Group 1 (lit "pdf" ||| lit "png" ||| lit "jpg" ||| lit "jpeg"
                        ||| lit "tif" ||| lit "tiff" ||| lit "doc" ** opt (ch "x"))
     ** Eos) no_flags.

Definition tokenmap : list (string * string) :=
  [ ("gst", "gst"); ("tan", "tan"); ("lei", "lei"); ("rera", "rera"); ("hmda", "hmda");
    ("aai", "aai"); ("moa", "moa"); ("aoa", "aoa"); ("coi", "coi");
    ("accountstatement", "accountstatement"); ("statement", "statement") ].

(** 3) the filename hints. *)
Definition filename_hint_hits (filename : string) (hits : list hit) : list hit :=
  let base := Py.lower filename in
  let base := sub EXT_RX "" base in
  fold_left
    (fun hits '(token, key) =>
       if Py.contains token base
       then fold_left (fun hits slug => _add_hit hits slug 0.85 ("filename:" ++ token))
                      (dict_get key [] FILENAME_HINTS) hits
       else hits)
    tokenmap hits.

Definition rules_from_text_and_filename (text filename : string) (state : option string)
    : list hit :=
  let hits : list hit := [] in
  let hits := text_rule_hits TEXT_RULES text hits in
  let hits := hits ++ _bank_router text state in
  let hits := filename_hint_hits filename hits in
  hits.

End Rules.


(** ** rapidfuzz.fuzz: the three similarity metrics [signals.py] calls

    The library is not part of the repository.  The metrics are modelled
    from its documentation: [ratio] is the normalized Indel similarity
    (twice the longest common subsequence over the total length) in percent;
    [partial_ratio] is the best [ratio] of the shorter string against a
    window of the longer one; [token_set_ratio] compares the sets of words
    of the two strings through [ratio]; [QRatio] is [ratio] except that an
    empty string scores 0. *)

Module Fuzz.

(** Length of a longest common subsequence, row by row: [lcs_row x b prev]
    is the row of the character [x] from the row [prev] before it, where
    [diag] and [left] are the entries above-left and left of the current
    column. *)
Fixpoint lcs_row (x : ascii) (b : list ascii) (prev : list nat) (diag left : nat)
    : list nat :=
  match b, prev with
  | y :: b', p :: prev' =>
      let cur := if Py.ascii_eqb x y then S diag else Nat.max p left in
      cur :: lcs_row x b' prev' p cur
  | _, _ => []
  end.

Definition lcs (a b : list ascii) : nat :=
  List.last (fold_left (fun row x => lcs_row x b row 0 0) a (repeat 0 (length b))) 0.

Local Open Scope Q_scope.

Definition ratio_chars (a b : list ascii) : Q :=
  let n := (length a + length b)%nat in
  if Nat.eqb n 0 then 100
  else Z.of_nat (200 * lcs a b) # Pos.of_nat n.

Definition ratio (s1 s2 : string) : Q := ratio_chars (Py.chars s1) (Py.chars s2).

Definition QRatio (s1 s2 : string) : Q :=
  if negb (Py.truthy s1) || negb (Py.truthy s2) then 0 else ratio s1 s2.

Definition best (l : list Q) : Q := fold_left Py.max l 0.

(** The windows of [l] a string of length [n] is aligned with: the
    prefixes shorter than [n], every substring of length [n], and the
    suffixes shorter than [n]. *)
Definition windows (n : nat) (l : list ascii) : list (list ascii) :=
  map (fun i => take i l) (seq 1 (n - 1))
  ++ map (fun i => take n (drop i l)) (seq 0 (S (length l - n)))
  ++ map (fun i => drop i l) (seq (S (length l - n)) (n - 1)).

Definition partial_impl (shorter longer : list ascii) : Q :=
  best (map (ratio_chars shorter) (windows (length shorter) longer)).

Definition partial_ratio (s1 s2 : string) : Q :=
  let a := Py.chars s1 in
  let b := Py.chars s2 in
  match a, b with
  | [], [] => 100
  | [], _ :: _ | _ :: _, [] => 0
  | _ :: _, _ :: _ =>
      if (length a <? length b)%nat then partial_impl a b
      else if (length b <? length a)%nat then partial_impl b a
      else Py.max (partial_impl a b) (partial_impl b a)
  end.

(** [s.split()]: the maximal runs of non-space characters. *)
Fixpoint split_chars (cur : list ascii) (l : list ascii) : list string :=
  match l with
  | [] => match cur with [] => [] | _ :: _ => [Py.str (rev cur)] end
  | c :: l' =>
      if Py.isspace c
      then match cur with
           | [] => split_chars [] l'
           | _ :: _ => Py.str (rev cur) :: split_chars [] l'
           end
      else split_chars (c :: cur) l'
  end.
Definition split (s : string) : list string := split_chars [] (Py.chars s).

Definition mem_str (x : string) (l : list string) : bool := existsb (String.eqb x) l.

(** [set(tokens)], [a & b], [a - b] on lists of words. *)
Fixpoint dedup_str (l : list string) : list string :=
  match l with
  | [] => []
  | x :: l' => if mem_str x l' then dedup_str l' else x :: dedup_str l'
  end.
Definition inter_str (a b : list string) : list string :=
  List.filter (fun x => mem_str x b) a.
Definition diff_str (a b : list string) : list string :=
  List.filter (fun x => negb (mem_str x b)) a.

(** [sorted(words)] *)
Fixpoint insert_str (x : string) (l : list string) : list string :=
  match l with
  | [] => [x]
  | y :: l' => if String.leb x y then x :: l else y :: insert_str x l'
  end.
Definition sorted_str (l : list string) : list string := fold_right insert_str [] l.

Definition token_set_ratio (s1 s2 : string) : Q :=
  if negb (Py.truthy s1) || negb (Py.truthy s2) then 0 else
  let tokens_a := dedup_str (split s1) in
  let tokens_b := dedup_str (split s2) in
  match tokens_a, tokens_b with
  | [], _ | _, [] => 0
  | _ :: _, _ :: _ =>
      let intersect := inter_str tokens_a tokens_b in
      let diff_ab := diff_str tokens_a tokens_b in
      let diff_ba := diff_str tokens_b tokens_a in
      let sect := Py.join " " (sorted_str intersect) in
      let ab := Py.join " " (sorted_str diff_ab) in
      let ba := Py.join " " (sorted_str diff_ba) in
      let glue (x y : string) : string :=
        if Py.truthy x && Py.truthy y then (x ++ " " ++ y)%string else (x ++ y)%string in
      match intersect with
      | [] => ratio ab ba
      | _ :: _ =>
          match diff_ab, diff_ba with
          | [], _ | _, [] => 100
          | _ :: _, _ :: _ =>
              best [ratio (glue sect ab) (glue sect ba);
                    ratio sect (glue sect ab);
                    ratio sect (glue sect ba)]
          end
      end
  end.

End Fuzz.

(** ** source_of_truth.py: the category record *)

Module SourceOfTruth.

Record Category := {
  slug : string;
  display : string;
  top_entity : string;
  state_variant : option string;
  org_variant : option string;
  keywords : option (list string);
  synonyms : option (list string);
  prototype : string
}.

(** [x or []] *)
Definition or_nil {A : Type} (o : option (list A)) : list A :=
  match o with Some l => l | None => [] end.

(** Canonical names + synonyms for the filename fuzzy match.  The source
    builds a set; the order of the resulting list is immaterial to its
    only caller, which takes a maximum over it. *)
Definition names_for_fuzzy (c : Category) : list string :=
  let base := [display c; Py.replace "_" " " (slug c)] in
  let syns := or_nil (synonyms c) in
  Fuzz.dedup_str (map Py.lower base ++ syns).

(** The newer [_norm_state] of [source_of_truth.py]. *)
Definition _norm_state (v : option string) : option string :=
  match v with
  | None => None
  | Some v =>
      let s := Py.upper (Py.strip v) in
      if String.eqb s "TELANGANA" || String.eqb s "TS" then Some "TS"
      else if String.eqb s "KARNATAKA" || String.eqb s "KA" then Some "KA"
      else Some v
  end.

Definition option_str_eqb (a b : option string) : bool :=
  match a, b with
  | Some x, Some y => String.eqb x y
  | None, None => true
  | _, _ => false
  end.

(** Approvals and land documents are state-specific; the others are
    state-agnostic. *)
Definition filter_by_state (cats : list Category) (state : option string) : list Category :=
  let state := _norm_state state in
  List.filter
    (fun c =>
       if String.eqb (top_entity c) "project_approvals_documents"
          || String.eqb (top_entity c) "project_land_documents"
       then match state with
            | None => false
            | Some _ => option_str_eqb (state_variant c) state
            end
       else true)
    cats.

(** [list(dict.fromkeys(l))]: the first occurrence of every element, in
    order. *)
Fixpoint uniq_first (seen l : list string) : list string :=
  match l with
  | [] => []
  | x :: l' =>
      if Fuzz.mem_str x seen then uniq_first seen l'
      else x :: uniq_first (x :: seen) l'
  end.

(** A single organization type is kept as a scalar, several give [None]. *)
Definition _first_org (org_types : option (list string)) : option string :=
  match org_types with
  | None | Some [] => None
  | Some (o :: os) =>
      let uniq := map Py.lower (List.filter Py.truthy (o :: os)) in
      let uniq := uniq_first [] uniq in
      match uniq with
      | [u] => Some u
      | _ => None
      end
  end.

(** [{c.slug: c for c in cats}] *)
Definition by_slug (cats : list Category) : gmap string Category :=
  fold_left (fun (m : gmap string Category) c => <[slug c := c]> m) cats ∅.

End SourceOfTruth.

(** ** fuse.py *)

Module Fuse.
Local Open Scope Q_scope.

Definition default_w : Q * Q * Q := (0.20, 0.35, 0.45).

Definition fuse_scores (s1 s2 s3 : Q) (w : Q * Q * Q) : Q :=
  let '(a, b, c) := w in
  let score := a * s1 + b * s2 + c * s3 in
  Py.max 0.0 (Py.min 1.0 score).

End Fuse.

(** ** Exceptions *)

Inductive exn :=
| UndefinedTable (doc_id : Z)      (* psycopg2: relation chunks_<doc_id> does not exist *)
| IndexError.                       (* list index out of range *)

Inductive result (A : Type) :=
| Ok (a : A)
| Err (e : exn).
Arguments Ok {A} a.
Arguments Err {A} e.

Definition bind {A B : Type} (r : result A) (k : A -> result B) : result B :=
  match r with
  | Ok a => k a
  | Err e => Err e
  end.
Notation "'do' x <- r ; k" := (bind r (fun x => k))
  (at level 10, x pattern, r at level 100, k at level 200).

(** ** db.py: the document store *)

Module Db.

(** A chunk row: (id, chunk, embedding). *)
Definition chunk : Type := Z * string * option (list Q).
Definition chunk_id (c : chunk) : Z := fst (fst c).
Definition chunk_text (c : chunk) : string := snd (fst c).
Definition chunk_emb (c : chunk) : option (list Q) := snd c.

(** A row of [documents], with the columns [get_documents] selects. *)
Record doc_row := {
  row_id : Z;
  document_name : string;
  canonical_slug : option string;
  top_entity : option string;
  org_variant : option string;
  state_variant : option string;
  confidence : option Q;
  status : option string
}.

(** The store: the [documents] table and one [chunks_<id>] table per
    document that has one. *)
Record database := {
  documents : list doc_row;
  chunk_tables : gmap Z (list chunk)
}.

Definition get_documents (db : database) (status_filter : option string)
    (limit : option nat) : list doc_row :=
  let rows :=
    match status_filter with
    | Some st =>
        if Py.truthy st
        then List.filter (fun r => SourceOfTruth.option_str_eqb (status r) (Some st))
                         (documents db)
        else documents db
    | None => documents db
    end in
  let rows := Py.sort_asc (fun a b => Z.ltb (row_id a) (row_id b)) rows in
  match limit with
  | Some (S n) => take (S n) rows
  | Some O | None => rows
  end.

Definition get_chunks (db : database) (doc_id : Z) (limit : option nat)
    : result (list chunk) :=
  match chunk_tables db !! doc_id with
  | None => Err (UndefinedTable doc_id)
  | Some rows =>
      let rows := Py.sort_asc (fun a b => Z.ltb (chunk_id a) (chunk_id b)) rows in
      Ok (match limit with Some n => take n rows | None => rows end)
  end.

(** [UPDATE documents SET ... WHERE id = doc_id] *)
Definition update_match (doc_id : Z) (slug top_entity org_variant state_variant : option string)
    (confidence : option Q) (status : string) (db : database) : database :=
  {| documents :=
       map (fun r =>
              if Z.eqb (row_id r) doc_id
              then {| row_id := row_id r;
                      document_name := document_name r;
                      canonical_slug := slug;
                      top_entity := top_entity;
                      org_variant := org_variant;
                      state_variant := state_variant;
                      confidence := confidence;
                      status := Some status |}
              else r)
           (documents db);
     chunk_tables := chunk_tables db |}.

(** [SELECT lower(document_name), COUNT( * ) FROM documents GROUP BY 1] *)
Definition filename_counts (db : database) : gmap string nat :=
  fold_left
    (fun (m : gmap string nat) r =>
       let k := Py.lower (document_name r) in
       <[k := S (default 0%nat (m !! k))]> m)
    (documents db) ∅.

(** [SELECT * FROM documents WHERE id = doc_id], [fetchone]. *)
Definition get_document (db : database) (doc_id : Z) : option doc_row :=
  List.find (fun r => Z.eqb (row_id r) doc_id) (documents db).

(** [to_regclass('public.chunks_<doc_id>') is not None] *)
Definition chunks_table_exists (db : database) (doc_id : Z) : bool :=
  match chunk_tables db !! doc_id with
  | Some _ => true
  | None => false
  end.

End Db.

(** ** signals.py: the signal extractors *)

Module Signals.
Import Re.
Local Open Scope Q_scope.

Definition _WORD : compiled :=
  {| pattern := "[A-Za-z0-9]+";
     ast := plus (Chr (CUnion (CRange "A" "Z") (CUnion (CRange "a" "z") (CRange "0" "9"))));
     fl := no_flags |}.

Definition _norm01 (x lo hi : Q) : Q :=
  if Qle_bool hi lo then 0.0
  else
    let x := Py.max lo (Py.min hi x) in
    (x - lo) / (hi - lo).

(** 0-1 from the fuzzy match between the filename and the names and
    synonyms of the category. *)
Definition score_filename (file_name : string) (cat : SourceOfTruth.Category) : Q :=
  let base := Py.lower (Py.rsplit_slash_last file_name) in
  let base := sub Rules.EXT_RX "" base in
  let best :=
    fold_left
      (fun best cand =>
         let s1 := Fuzz.token_set_ratio base cand in
         let s2 := Fuzz.partial_ratio base cand in
         let s3 := Fuzz.QRatio base cand in
         Py.max (Py.max (Py.max best s1) s2) s3)
      (SourceOfTruth.names_for_fuzzy cat) 0 in
  best / 100.0.

(** 0-1 from the presence of keywords and synonyms in the first chunks. *)
Definition score_keywords (chunks : list Db.chunk) (cat : SourceOfTruth.Category)
    (top_k : nat) : Q :=
  let kws := SourceOfTruth.or_nil (SourceOfTruth.keywords cat)
             ++ SourceOfTruth.or_nil (SourceOfTruth.synonyms cat) in
  match kws with
  | [] => 0.0
  | _ :: _ =>
      let text := Py.lower (Py.join " " (map Db.chunk_text (take top_k chunks))) in
      let hits :=
        fold_left
          (fun (hits : nat) kw =>
             if negb (Py.truthy kw) then hits
             else if Py.contains (Py.lower kw) text then S hits else hits)
          kws 0%nat in
      let prop := inject_Z (Z.of_nat hits) / inject_Z (Z.of_nat (Nat.max 1 (length kws))) in
      _norm01 prop 0.0 0.6
  end.

(** [np.mean(vecs, axis=0)] over vectors of one dimension (the column's). *)
Definition vec_add (a b : list Q) : list Q := zip_with Qplus a b.
Definition vec_mean (vecs : list (list Q)) : option (list Q) :=
  match vecs with
  | [] => None
  | v :: rest =>
      let n := inject_Z (Z.of_nat (length vecs)) in
      Some (map (fun x => x / n) (fold_left vec_add rest v))
  end.

Definition doc_vector_mean (chunks : list Db.chunk) (max_chunks : nat) : option (list Q) :=
  let vecs :=
    fold_left
      (fun vecs c =>
         match Db.chunk_emb c with
         | None => vecs
         | Some [] => vecs
         | Some (x :: v) => vecs ++ [x :: v]
         end)
      (take max_chunks chunks) [] in
  vec_mean vecs.

Section Embeddings.
(** [cosine] needs a square root; it is left to numpy. *)
Variable cosine : list Q -> list Q -> Q.

(** 0-1 cosine; 0 when a vector is missing. *)
Definition score_embeddings (doc_vec cat_vec : option (list Q)) : Q :=
  match doc_vec, cat_vec with
  | Some dv, Some cv => _norm01 (cosine dv cv) 0.2 0.9
  | _, _ => 0.0
  end.
End Embeddings.

Definition GENERIC_TOKENS : list string :=
  ["scan"; "scanned"; "document"; "doc"; "file"; "new"; "untitled"; "image"; "img"; "photo"].

Definition is_generic_filename (name : string) : bool :=
  let base := Py.lower (Py.rsplit_slash_last name) in
  let base := sub Rules.EXT_RX "" base in
  let toks := Fuzz.dedup_str (findall _WORD base) in
  match toks with
  | [] => true
  | _ :: _ =>
      if existsb (fun t => Fuzz.mem_str t GENERIC_TOKENS) toks then true
      else if (String.length base <=? 6)%nat then true
      else
        let digits := length (List.filter Py.isdigit (Py.chars base)) in
        if negb (Qle_bool (inject_Z (Z.of_nat digits)
                           / inject_Z (Z.of_nat (Nat.max 1 (String.length base))))
                          0.6)
        then true
        else false
  end.

End Signals.

(** ** resolver.py: the categorization orchestrator *)

Module Resolver.
Local Open Scope Q_scope.

(** The applied-rule record of a result. *)
Record rule_record := { rule_slug : string; rule_score : Q; rule_reason : string }.

Record preview_row := {
  rank : nat;
  pv_slug : string;
  pv_score : Q;
  s1_fn : Q;
  s2_kw : Q;
  s3_emb : Q;
  pv_display : string;
  pv_top_entity : string;
  pv_state_variant : option string;
  pv_org_variant : option string
}.

Record ClassificationResult := {
  doc_id : Z;
  document_name : string;
  best_slug : string;
  best_display : string;
  top_entity : string;
  state_variant : option string;
  org_variant : option string;
  final : Q;
  s1 : Q;
  s2 : Q;
  s3 : Q;
  status : string;
  topk : list preview_row;
  rule : option rule_record;
  weights : Q * Q * Q;
  is_dup_name : bool;
  name_dup_count : nat;
  is_generic_name : bool
}.

(** A scored candidate: (slug, fused score, (s1, s2, s3), category). *)
Definition scored_row : Type := string * Q * (Q * Q * Q) * SourceOfTruth.Category.
Definition sc_slug (r : scored_row) : string := fst (fst (fst r)).
Definition sc_final (r : scored_row) : Q := snd (fst (fst r)).
Definition sc_parts (r : scored_row) : Q * Q * Q := snd (fst r).
Definition sc_cat (r : scored_row) : SourceOfTruth.Category := snd r.

(** The text window for the rules: the first 12 chunks, or fewer once
    more than 20000 characters are collected. *)
Fixpoint collect_texts (chunks : list Db.chunk) (texts : list string) : list string :=
  match chunks with
  | [] => texts
  | c :: rest =>
      let texts := texts ++ [Db.chunk_text c] in
      if (20000 <? Z.of_nat (list_sum (map String.length texts)))%Z then texts
      else collect_texts rest texts
  end.
Definition full_text_of (chunks : list Db.chunk) : string :=
  Py.join Py.NL (collect_texts (take 12 chunks) []).

(** [max(rule_hits, key=lambda x: x[1]) if rule_hits else None]: the first
    hit of maximal score. *)
Definition rule_best_of (rule_hits : list Rules.hit) : option Rules.hit :=
  match rule_hits with
  | [] => None
  | h :: rest =>
      Some (fold_left
              (fun b x => if Qle_bool (Rules.hit_score x) (Rules.hit_score b) then b else x)
              rest h)
  end.

(** 2) the dynamic filename weight. *)
Definition filename_weight (generic : bool) (dup_count : nat) : Q :=
  if generic || (3 <=? dup_count)%nat then 0.0
  else if (dup_count =? 2)%nat then 0.20
  else 0.40.

(** 4) the rule override, on the best fused candidate [(slug, final, cat)]:
    a rule whose slug is among the scored candidates is forced on top, any
    other rule gives a partial boost. *)
Definition apply_rule (scored : list scored_row) (rule_best : option Rules.hit)
    (slug : string) (final : Q) (cat : SourceOfTruth.Category)
    : string * SourceOfTruth.Category * Q * option rule_record :=
  match rule_best with
  | None => (slug, cat, final, None)
  | Some (r_slug, r_score, reason) =>
      match List.find (fun r => String.eqb (sc_slug r) r_slug) scored with
      | Some r =>
          (r_slug, sc_cat r, Py.max final r_score,
           Some {| rule_slug := r_slug; rule_score := Py.round r_score 3;
                   rule_reason := reason |})
      | None =>
          (slug, cat, Py.max final (r_score * 0.9),
           Some {| rule_slug := r_slug; rule_score := Py.round (r_score * 0.9) 3;
                   rule_reason := reason ++ " (partial)" |})
      end
  end.

(** 5) the thresholds. *)
Definition status_of (final : Q) : string :=
  if Qle_bool 0.70 final then "accepted"
  else if Qle_bool 0.60 final then "needs_review"
  else "unassigned".

(** The local variables of [categorize_document] at its [return]:
    [l_fused] is [final] as step 3 leaves it (the fused score of the best
    candidate), [l_final] is [final] after the rule override of step 4. *)
Record locals := {
  l_chunks : list Db.chunk;
  l_rule_hits : list Rules.hit;
  l_rule_best : option Rules.hit;
  l_dup_count : nat;
  l_generic : bool;
  l_weights : Q * Q * Q;
  l_scored : list scored_row;
  l_fused : Q;
  l_parts : Q * Q * Q;
  l_slug : string;
  l_cat : SourceOfTruth.Category;
  l_final : Q;
  l_rule_applied : option rule_record;
  l_status : string
}.

Section WithCosine.
Variable cosine : list Q -> list Q -> Q.

(** 3) every candidate scored and fused, best first. *)
Definition score_all (fname : string) (chunks : list Db.chunk)
    (doc_vec : option (list Q)) (cats : list SourceOfTruth.Category)
    (cat_vecs : gmap string (list Q)) (weights : Q * Q * Q) : list scored_row :=
  let scored :=
    map (fun c =>
           let s1 := Signals.score_filename fname c in
           let s2 := Signals.score_keywords chunks c 6 in
           let s3 := Signals.score_embeddings cosine doc_vec
                       (cat_vecs !! SourceOfTruth.slug c) in
           let final := Fuse.fuse_scores s1 s2 s3 weights in
           (SourceOfTruth.slug c, final, (s1, s2, s3), c))
        cats in
  Py.sort_desc (fun a b => negb (Qle_bool (sc_final b) (sc_final a))) scored.

(** Score one document against the candidate categories: the local
    variables of [categorize_document] when it reaches its [return]. *)
Definition categorize_locals (db : Db.database) (doc_row : Db.doc_row)
    (cats : list SourceOfTruth.Category) (cat_vecs : gmap string (list Q))
    (fname_cnts : gmap string nat) (state_variant : option string)
    : result locals :=
  let doc_id := Db.row_id doc_row in
  let fname := Db.document_name doc_row in
  let fname_l := Py.lower fname in
  do chunks <- Db.get_chunks db doc_id None;
  let doc_vec := Signals.doc_vector_mean chunks 8 in
  let full_text := full_text_of chunks in
  let rule_hits := Rules.rules_from_text_and_filename full_text fname state_variant in
  let rule_best := rule_best_of rule_hits in
  let dup_count := default 0%nat (fname_cnts !! fname_l) in
  let generic := Signals.is_generic_filename fname in
  let w_s1 := filename_weight generic dup_count in
  let weights := (w_s1, 0.30, 0.30) in
  let scored := score_all fname chunks doc_vec cats cat_vecs weights in
  match scored with
  | [] => Err IndexError
  | (slug, fused, parts, cat) :: _ =>
      let '(slug, cat, final, rule_applied) := apply_rule scored rule_best slug fused cat in
      let status := status_of final in
      Ok {| l_chunks := chunks;
            l_rule_hits := rule_hits;
            l_rule_best := rule_best;
            l_dup_count := dup_count;
            l_generic := generic;
            l_weights := weights;
            l_scored := scored;
            l_fused := fused;
            l_parts := parts;
            l_slug := slug;
            l_cat := cat;
            l_final := final;
            l_rule_applied := rule_applied;
            l_status := status |}
  end.

(** The dict [categorize_document] returns, from its local variables. *)
Definition result_of (doc_row : Db.doc_row) (topk_show : nat) (L : locals)
    : ClassificationResult :=
  let preview :=
    imap (fun i rec =>
            {| rank := i + 1;
               pv_slug := sc_slug rec;
               pv_score := Py.round (sc_final rec) 3;
               s1_fn := Py.round (fst (fst (sc_parts rec))) 3;
               s2_kw := Py.round (snd (fst (sc_parts rec))) 3;
               s3_emb := Py.round (snd (sc_parts rec)) 3;
               pv_display := SourceOfTruth.display (sc_cat rec);
               pv_top_entity := SourceOfTruth.top_entity (sc_cat rec);
               pv_state_variant := SourceOfTruth.state_variant (sc_cat rec);
               pv_org_variant := SourceOfTruth.org_variant (sc_cat rec) |})
         (take topk_show (l_scored L)) in
  {| doc_id := Db.row_id doc_row;
     document_name := Db.document_name doc_row;
     best_slug := l_slug L;
     best_display := SourceOfTruth.display (l_cat L);
     top_entity := SourceOfTruth.top_entity (l_cat L);
     state_variant := SourceOfTruth.state_variant (l_cat L);
     org_variant := SourceOfTruth.org_variant (l_cat L);
     final := Py.round (l_final L) 3;
     s1 := Py.round (fst (fst (l_parts L))) 3;
     s2 := Py.round (snd (fst (l_parts L))) 3;
     s3 := Py.round (snd (l_parts L)) 3;
     status := l_status L;
     topk := preview;
     rule := l_rule_applied L;
     weights := (Py.round (fst (fst (l_weights L))) 2,
                 Py.round (snd (fst (l_weights L))) 2,
                 Py.round (snd (l_weights L)) 2);
     is_dup_name := (2 <=? l_dup_count L)%nat;
     name_dup_count := l_dup_count L;
     is_generic_name := Signals.is_generic_filename (Db.document_name doc_row) |}.

Definition categorize_document (db : Db.database) (doc_row : Db.doc_row)
    (cats : list SourceOfTruth.Category) (cat_vecs : gmap string (list Q))
    (fname_cnts : gmap string nat) (state_variant : option string)
    (topk_show : nat) : result ClassificationResult :=
  do L <- categorize_locals db doc_row cats cat_vecs fname_cnts state_variant;
  Ok (result_of doc_row topk_show L).

End WithCosine.

(** The text a category is embedded from. *)
Definition prototype_blob (c : SourceOfTruth.Category) : string :=
  Py.join " | "
    [SourceOfTruth.display c;
     Py.join " " (SourceOfTruth.or_nil (SourceOfTruth.keywords c));
     SourceOfTruth.prototype c].

(** [build_category_vectors]: [model] is the sentence encoder when it can
    be loaded; it returns one row per text. *)
Definition build_category_vectors (model : option (list string -> list (list Q)))
    (cats : list SourceOfTruth.Category) : gmap string (list Q) :=
  match model with
  | None => ∅
  | Some encode =>
      let texts := map prototype_blob cats in
      let slugs := map SourceOfTruth.slug cats in
      let mat := encode texts in
      fold_left (fun (m : gmap string (list Q)) '(slug, v) => <[slug := v]> m)
                (zip slugs mat) ∅
  end.

Section Run.
Variable cosine : list Q -> list Q -> Q.

(** The write-back of one result. *)
Definition apply_result (row : Db.doc_row) (res : ClassificationResult)
    (db : Db.database) : Db.database :=
  Db.update_match (Db.row_id row)
    (Some (best_slug res)) (Some (top_entity res)) (org_variant res) (state_variant res)
    (Some (final res)) (status res) db.

(** The loop of [run] over the documents: the store, the results collected
    and the exception that ended the loop, if any.  Every write is
    committed at once, so the writes made before an exception stay. *)
Fixpoint run_loop (docs : list Db.doc_row) (cats : list SourceOfTruth.Category)
    (cat_vecs : gmap string (list Q)) (fname_cnts : gmap string nat)
    (state : string) (apply : bool) (db : Db.database)
    (results : list ClassificationResult)
    : Db.database * list ClassificationResult * option exn :=
  match docs with
  | [] => (db, results, None)
  | row :: rest =>
      match categorize_document cosine db row cats cat_vecs fname_cnts (Some state) 3 with
      | Err e => (db, results, Some e)
      | Ok res =>
          let results := results ++ [res] in
          let db := if apply then apply_result row res db else db in
          run_loop rest cats cat_vecs fname_cnts state apply db results
      end
  end.

(** [run(state, limit, apply)], given the categories [load_sot] read and
    the encoder, if any. *)
Definition run (all_cats : list SourceOfTruth.Category)
    (model : option (list string -> list (list Q)))
    (state : string) (limit : option nat) (apply : bool) (db : Db.database)
    : Db.database * list ClassificationResult * option exn :=
  let cats := SourceOfTruth.filter_by_state all_cats (Some state) in
  let cat_vecs := build_category_vectors model cats in
  let fname_cnts := Db.filename_counts db in
  let docs := Db.get_documents db None limit in
  run_loop docs cats cat_vecs fname_cnts state apply db [].

End Run.

End Resolver.

(** ** entity_role_infer.py: entity identity and role clustering *)

Module EntityRoleInfer.
Import Re.
Local Open Scope re_scope.

(** *** Name extraction and normalization *)

Definition NAME_RX : compiled :=
  {| pattern := "(?:Name|Legal Name|Name of (?:Business|Company)|Account Name)\s*[:\-]\s*([A-Z0-9&.,() /\-]+)";
     ast := (lit "Name" ||| lit "Legal Name"
             ||| lit "Name of " ** (lit "Business" ||| lit "Company")
             ||| lit "Account Name")
            ** sp0 ** Chr (CUnion (CLit ":") (CLit "-")) ** sp0
            ** Group 1 (plus (Chr (CUnion (CRange "A" "Z") (CUnion (CRange "0" "9")
                          (CUnion (CLit "&") (CUnion (CLit ".") (CUnion (CLit ",")
                          (CUnion (CLit "(") (CUnion (CLit ")") (CUnion (CLit " ")
                          (CUnion (CLit "/") (CLit "-"))))))))))));
     fl := I_ |}.

Definition NON_NAME_CHARS_RX : compiled :=
  {| pattern := "[^A-Z0-9& ]+";
     ast := plus (Chr (CNeg (CUnion (CRange "A" "Z") (CUnion (CRange "0" "9")
                          (CUnion (CLit "&") (CLit " "))))));
     fl := no_flags |}.
Definition SPACES_RX : compiled :=
  {| pattern := "\s+"; ast := sp1; fl := no_flags |}.

Definition norm_name (s : string) : string :=
  let s := Py.upper s in
  let s := fold_left (fun s token => Py.replace token "" s)
             [" PRIVATE LIMITED"; " PVT LTD"; " LTD"; " LIMITED"; " LLP";
              " PARTNERSHIP FIRM"; " FIRM"; " COMPANY"] s in
  let s := sub NON_NAME_CHARS_RX " " s in
  let s := Py.strip (sub SPACES_RX " " s) in
  s.

(** *** Identifiers pulled out of the early text *)

Definition set_if_found (k : string) (m : option match_obj) (get : match_obj -> string)
    (facts : gmap string string) : gmap string string :=
  match m with
  | Some m => <[k := get m]> facts
  | None => facts
  end.

Definition extract_facts (text : string) : gmap string string :=
  let facts : gmap string string := ∅ in
  let facts := set_if_found "pan" (search Rules.PAN_RX text) group0 facts in
  let facts := set_if_found "gstin" (search Rules.GSTIN_RX text) group0 facts in
  let facts := set_if_found "cin" (search Rules.CIN_RX text) group0 facts in
  let facts := set_if_found "llpin" (search Rules.LLPIN_RX text) group0 facts in
  let facts := set_if_found "name" (search NAME_RX text) (fun m => Py.strip (group 1 m)) facts in
(* derive PAN from GSTIN (chars 3..12) *)
let facts :=
  match facts !! "gstin", facts !! "pan" with
  | Some g, None =>
      if (12 <=? String.length g)%nat then <["pan" := Py.slice 2 12 g]> facts else facts
  | _, _ => facts
  end in
let facts :=
  match facts !! "name" with
  | Some n => <["name_key" := norm_name n]> facts
  | None => facts
  end in
facts.

Definition KEY_ORDER : list string := ["pan"; "gstin"; "llpin"; "cin"; "name_key"].

Fixpoint first_key (ks : list string) (f : gmap string string) : option string :=
  match ks with
  | [] => None
  | k :: rest =>
      match f !! k with
      | Some v => if Py.truthy v then Some (k ++ ":" ++ v)%string else first_key rest f
      | None => first_key rest f
      end
  end.

Definition entity_key (f : gmap string string) : option string := first_key KEY_ORDER f.

(** *** Features scored to decide developer against group *)

Definition DEV_STRONG : list string :=
  ["tan"; "msme"; "lei"; "sanction_soa"; "cibil"; "bank_stmt_entity"].
Definition DEV_COMMON : list string :=
  ["gst_pan"; "financials_3y"; "itrs_3y"; "coi_moa_aoa"; "partnership_deed"; "llp_agreement"].

Definition feature_from_slug (slug : string) : option string :=
  let s := Py.lower slug in
  if Py.contains "tan" s then Some "tan"
  else if Py.contains "msme" s then Some "msme"
  else if Py.contains "lei" s then Some "lei"
  else if Py.contains "sanction" s || Py.contains "soa" s then Some "sanction_soa"
  else if Py.contains "cibil" s then Some "cibil"
  else if Py.contains "bank_stmt" s && negb (Py.contains "directors" s)
       then Some "bank_stmt_entity"
  else if Py.contains "gst_pan" s then Some "gst_pan"
  else if Py.contains "financial" s then Some "financials_3y"
  else if Py.contains "itrs" s then Some "itrs_3y"
  else if Py.contains "moa_aoa" s || Py.contains "incorp" s then Some "coi_moa_aoa"
  else if Py.contains "partnership_deed" s then Some "partnership_deed"
  else if Py.contains "llp_agreement" s then Some "llp_agreement"
  else None.

Definition org_variant_from_slugs (slugs : list string) : string :=
  let s := Py.join " " slugs in
  if Py.contains "llp_agreement" s || Py.contains " llp " s then "llp"
  else if Py.contains "partnership_deed" s || Py.contains "partnership" s then "partnership"
  else if Py.contains "moa_aoa" s || Py.contains "incorp" s || Py.contains "coi" s
       then "company"
  else "company".

(** A [Counter]: feature -> count, in insertion order. *)
Definition Counter : Type := list (string * nat).
Fixpoint counter_incr (f : string) (c : Counter) : Counter :=
  match c with
  | [] => [(f, 1)]
  | (k, n) :: rest => if String.eqb k f then (k, S n) :: rest else (k, n) :: counter_incr f rest
  end.

Definition score_role (features : Counter) : nat * nat :=
  let dev :=
    fold_left
      (fun dev '(f, c) =>
         if Fuzz.mem_str f DEV_STRONG then dev + 2 * c
         else if Fuzz.mem_str f DEV_COMMON then dev + 1 * c
         else dev)
      features 0 in
  let group :=
    list_sum (map snd (List.filter (fun '(f, _) => Fuzz.mem_str f DEV_COMMON) features)) in
  (dev, group).

(** *** The run *)

Record cluster := {
  docs : list Db.doc_row;
  slugs : list string;
  features : Counter;
  facts : gmap string string
}.

(** (row, key, facts, slug) *)
Definition doc_info : Type := Db.doc_row * option string * gmap string string * string.

Definition info_of (db : Db.database) (row : Db.doc_row) : result doc_info :=
  do all_chunks <- Db.get_chunks db (Db.row_id row) None;
  let chunks := take 3 all_chunks in
  let text := Py.join Py.NL (map Db.chunk_text chunks) in
  let facts := extract_facts text in
  let key := entity_key facts in
  let slug := Py.lower (default "" (Db.canonical_slug row)) in
  Ok (row, key, facts, slug).

Fixpoint collect_info (db : Db.database) (rows : list Db.doc_row) : result (list doc_info) :=
  match rows with
  | [] => Ok []
  | row :: rest =>
      do i <- info_of db row;
      do more <- collect_info db rest;
      Ok (i :: more)
  end.

(** One document added to its cluster ([setdefault], then the appends). *)
Definition extend (row : Db.doc_row) (slug : string) (c : cluster) : cluster :=
  {| docs := docs c ++ [row];
     slugs := slugs c ++ [slug];
     features := match feature_from_slug slug with
                 | Some f => counter_incr f (features c)
                 | None => features c
                 end;
     facts := facts c |}.

Fixpoint add_to (key : string) (row : Db.doc_row) (fs : gmap string string) (slug : string)
    (clusters : list (string * cluster)) : list (string * cluster) :=
  match clusters with
  | [] => [(key, extend row slug {| docs := []; slugs := []; features := []; facts := fs |})]
  | (k, c) :: rest =>
      if String.eqb k key then (k, extend row slug c) :: rest
      else (k, c) :: add_to key row fs slug rest
  end.

(** Cluster by entity key; documents without a key are skipped. *)
Definition build_clusters (infos : list doc_info) : list (string * cluster) :=
  fold_left
    (fun clusters '(row, key, fs, slug) =>
       match key with
       | None => clusters
       | Some key => add_to key row fs slug clusters
       end)
    infos [].

(** (key, dev_score, group_score, variant, cluster) *)
Definition scored_entry : Type := string * nat * nat * string * cluster.
Definition se_key (e : scored_entry) : string := fst (fst (fst (fst e))).
Definition se_dev (e : scored_entry) : nat := snd (fst (fst (fst e))).
Definition se_group (e : scored_entry) : nat := snd (fst (fst e)).
Definition se_variant (e : scored_entry) : string := snd (fst e).
Definition se_cluster (e : scored_entry) : cluster := snd e.

(** [(x[1], x[2]) < (y[1], y[2])] on tuples. *)
Definition key_lt (x y : scored_entry) : bool :=
  ((se_dev x <? se_dev y) || ((se_dev x =? se_dev y) && (se_group x <? se_group y)))%nat.

Definition score_clusters (clusters : list (string * cluster)) : list scored_entry :=
  map (fun '(key, c) =>
         let variant := org_variant_from_slugs (slugs c) in
         let '(dev_score, group_score) := score_role (features c) in
         (key, dev_score, group_score, variant, c))
      clusters.

Definition sorted_scored (clusters : list (string * cluster)) : list scored_entry :=
  Py.sort_desc key_lt (score_clusters clusters).

(** The role of the cluster [key], given the sorted list. *)
Definition role_of (scored : list scored_entry) (key : string) : string :=
  match scored with
  | [] => "other_entity"
  | e0 :: rest =>
      let dev_key := se_key e0 in
      let grp_key := match rest with e1 :: _ => se_key e1 | [] => dev_key end in
      if String.eqb key dev_key then "developer_entity"
      else if String.eqb key grp_key then "group_entity"
      else "other_entity"
  end.

(** The arguments of one [update_match] call. *)
Record call := {
  c_doc_id : Z;
  c_slug : option string;
  c_top_entity : option string;
  c_org_variant : option string;
  c_state_variant : option string;
  c_confidence : option Q;
  c_status : string
}.

Inductive event :=
| Update (c : call)
| PrintNothingToAssign
| PrintRole (role key variant : string) (features : Counter) (dev grp : nat).

(** [row.get("status") or "unassigned"] *)
Definition status_or_unassigned (row : Db.doc_row) : string :=
  match Db.status row with
  | Some s => if Py.truthy s then s else "unassigned"
  | None => "unassigned"
  end.

Definition write_back (role variant : string) (row : Db.doc_row) : call :=
  {| c_doc_id := Db.row_id row;
     c_slug := Db.canonical_slug row;
     c_top_entity := Some role;
     c_org_variant := Some variant;
     c_state_variant := Db.state_variant row;
     c_confidence := Db.confidence row;
     c_status := status_or_unassigned row |}.

(** The events of a run, in order.  Every read of the store precedes the
    first write, so the events are a function of the store at the start. *)
Definition run_events (state : string) (apply : bool) (db : Db.database)
    : result (list event) :=
  let docs_ := Db.get_documents db None None in
  do infos <- collect_info db docs_;
  let clusters := build_clusters infos in
  match clusters with
  | [] => Ok [PrintNothingToAssign]
  | _ :: _ =>
      let scored := sorted_scored clusters in
      Ok (flat_map
            (fun e =>
               let role := role_of scored (se_key e) in
               map (fun row => Update (write_back role (se_variant e) row))
                   (docs (se_cluster e))
               ++ [PrintRole role (se_key e) (se_variant e) (features (se_cluster e))
                             (se_dev e) (se_group e)])
            scored)
  end.

Definition exec (w : Db.database * list event) (ev : event) : Db.database * list event :=
  let '(db, out) := w in
  match ev with
  | Update c =>
      (Db.update_match (c_doc_id c) (c_slug c) (c_top_entity c) (c_org_variant c)
         (c_state_variant c) (c_confidence c) (c_status c) db, out)
  | _ => (db, out ++ [ev])
  end.

(** [run(state, apply)]: the store and the printed lines afterwards. *)
Definition run (state : string) (apply : bool) (db : Db.database)
    : result (Db.database * list event) :=
  do evs <- run_events state apply db;
  Ok (fold_left exec evs (db, [])).

End EntityRoleInfer.

(** * The vocabulary of the statements *)

Section RuleVocabulary.
Local Open Scope Q_scope.
Import Rules.

(** How many detectors of [regs] match [text]. *)
Definition matching (text : string) (regs : list Re.compiled) : nat :=
  length (List.filter (fun r => Re.found r text) regs).

(** The local score after [k] matching detectors: 0.5 for the first and
    0.25 for each further one. *)
Definition local_value (k : nat) : Q :=
  match k with
  | O => 0
  | S k' => 0.5 + 0.25 * inject_Z (Z.of_nat k')
  end.

(** One entry of the table processed. *)
Definition text_rule_entry (text : string) (hits : list hit) (e : string * list Re.compiled)
    : list hit :=
  let '(slug, regs) := e in
  let '(local, reasons) := local_score text regs in
  if Qle_bool 0.8 local then _add_hit hits slug local (Py.join "; " reasons) else hits.

(** What one entry of a rule table contributes. *)
Definition entry_hits (text : string) (e : string * list Re.compiled) : list hit :=
  if Qle_bool 0.8 (fst (local_score text (snd e)))
  then [(fst e, Py.min 0.95 (fst (local_score text (snd e))),
         Py.join "; " (snd (local_score text (snd e))))]
  else [].

(** What one filename token contributes. *)
Definition token_hits (base : string) (tk : string * string) : list hit :=
  if Py.contains (fst tk) base
  then map (fun slug => (slug, 0.85, ("filename:" ++ fst tk)%string))
           (dict_get (snd tk) [] FILENAME_HINTS)
  else [].

(** The filename as the hint layer reads it: lower case, known extension
    removed. *)
Definition cleaned (filename : string) : string := Re.sub EXT_RX "" (Py.lower filename).

End RuleVocabulary.

Section ResolverVocabulary.
Local Open Scope Q_scope.
Import Resolver.

(** The row [score_all] builds for one category. *)
Definition row_of (cosine : list Q -> list Q -> Q) (fname : string)
    (chunks : list Db.chunk) (doc_vec : option (list Q))
    (cat_vecs : gmap string (list Q)) (weights : Q * Q * Q) (c : SourceOfTruth.Category)
    : scored_row :=
  let s1 := Signals.score_filename fname c in
  let s2 := Signals.score_keywords chunks c 6 in
  let s3 := Signals.score_embeddings cosine doc_vec (cat_vecs !! SourceOfTruth.slug c) in
  (SourceOfTruth.slug c, Fuse.fuse_scores s1 s2 s3 weights, (s1, s2, s3), c).

(** The filename of the end-to-end scenario. *)
Definition gst_name : string := "GST_Certificate.pdf".

(** The hits the name [GST_Certificate.pdf] yields: the token "gst" and no
    other token of [tokenmap]. *)
Definition gst_name_hits : list Rules.hit :=
  [ ("dev_company_gst_pan", 0.85, "filename:gst");
    ("group_company_gst_pan", 0.85, "filename:gst");
    ("dev_llp_gst_pan", 0.85, "filename:gst");
    ("dev_partnership_gst_pan", 0.85, "filename:gst") ].

End ResolverVocabulary.

(** ** A small corpus to run the orchestrator on *)

Module Corpus.
Import SourceOfTruth.

Definition category (s d te : string) (sv : option string) (kw : list string) : Category :=
  {| slug := s; display := d; top_entity := te; state_variant := sv; org_variant := None;
     keywords := Some kw; synonyms := Some []; prototype := "" |}.

Definition cats : list Category :=
  [ category "dev_company_tan" "TAN Allotment Letter" "developer_entity" None ["tan"];
    category "dev_company_gst_pan" "GST and PAN" "developer_entity" None ["gstin"; "pan"];
    category "ts_rera_certificate" "RERA Certificate" "project_approvals_documents"
             (Some "TS") ["rera"] ].

Definition document (i : Z) (name : string) (sl : option string) : Db.doc_row :=
  {| Db.row_id := i; Db.document_name := name; Db.canonical_slug := sl;
     Db.top_entity := None; Db.org_variant := None; Db.state_variant := None;
     Db.confidence := None; Db.status := Some "unassigned" |}.

Definition gst_doc : Db.doc_row := document 7 "GST_Certificate.pdf" None.
Definition rera_doc : Db.doc_row := document 8 "ka_rera_approval.pdf" None.

Definition db : Db.database :=
  {| Db.documents := [gst_doc; rera_doc];
     Db.chunk_tables :=
       {[ 7%Z := [(1%Z, "GSTIN: 29ABCDE1234F1Z5", None)];
          8%Z := [(1%Z, "Registration of the project", None)] ]} |}.

(** The candidates of a KA run: the TS approval is filtered out, the KA
    one stays. *)
Definition ka_cats : list Category :=
  filter_by_state
    (cats ++ [category "ka_rera" "K-RERA Registration" "project_approvals_documents"
                       (Some "KA") ["rera"]])
    (Some "KA").

(** No embedding model: numpy is never reached. *)
Definition no_cosine (a b : list Q) : Q := 0.

End Corpus.

(** ** A corpus of three entities *)

Module Entities.

Definition doc (i : Z) (name : string) (sl : string) (st : option string) : Db.doc_row :=
  {| Db.row_id := i; Db.document_name := name; Db.canonical_slug := Some sl;
     Db.top_entity := None; Db.org_variant := None; Db.state_variant := Some "TS";
     Db.confidence := Some 0.85%Q; Db.status := st |}.

Definition text_chunk (t : string) : list Db.chunk := [(1%Z, t, None)].

(** Entity B (PAN BBBBB2222B): two TAN documents, developer score 4.
    Entity C (GSTIN only, PAN derived): one GST+PAN document, score 1.
    Entity A (PAN AAAAA1111A): five strong documents, score 10.
    Document 9 carries no identifier. *)
Definition db : Db.database :=
  {| Db.documents :=
       [ doc 1 "b_tan.pdf" "dev_company_tan" (Some "accepted");
         doc 2 "b_tan_llp.pdf" "dev_llp_tan" (Some "needs_review");
         doc 3 "c_gst.pdf" "dev_company_gst_pan" None;
         doc 4 "a_tan.pdf" "dev_company_tan" (Some "accepted");
         doc 5 "a_lei.pdf" "dev_company_lei" (Some "accepted");
         doc 6 "a_msme.pdf" "dev_company_msme" (Some "accepted");
         doc 7 "a_cibil.pdf" "dev_company_cibil" (Some "accepted");
         doc 8 "a_bank.pdf" "dev_company_bank_stmt" (Some "accepted");
         doc 9 "notes.pdf" "legal_passbooks" (Some "unassigned") ];
     Db.chunk_tables :=
       {[ 1%Z := text_chunk "TAN allotment. PAN: BBBBB2222B";
          2%Z := text_chunk "PAN BBBBB2222B of the firm";
          3%Z := text_chunk "GSTIN 29CCCCC3333C1Z5";
          4%Z := text_chunk "PAN AAAAA1111A";
          5%Z := text_chunk "LEI letter, PAN AAAAA1111A";
          6%Z := text_chunk "Udyam, PAN AAAAA1111A";
          7%Z := text_chunk "Credit report, PAN AAAAA1111A, GSTIN 29AAAAA1111A1Z5";
          8%Z := text_chunk "Statement of Account, PAN AAAAA1111A";
          9%Z := text_chunk "handwritten notes" ]} |}.

End Entities.

Section MatcherVocabulary.
Import Re.

(** The least number of characters a match of [r] spans. *)
Fixpoint min_width (r : regex) : nat :=
  match r with
  | Eps | WordB | Eos | Star _ | LazyStar _ => 0
  | Chr _ | Dot => 1
  | Seq r1 r2 => min_width r1 + min_width r2
  | Alt r1 r2 => Nat.min (min_width r1) (min_width r2)
  | Group _ r1 => min_width r1
  end.

(** [reaches w s k a]: the continuation [k] produced [a] on a rest of [s]
    that is at least [w] characters shorter. *)
Definition reaches {A : Type} (w : nat) (s : list ascii) (k : cont (A := A)) (a : A) : Prop :=
  exists p' s' cp', k p' s' cp' = Some a /\ w + length s' <= length s.

End MatcherVocabulary.

Section EntityVocabulary.
Import EntityRoleInfer.

(** The value of [k] in the facts when it is there and not empty. *)
Definition present (f : gmap string string) (k : string) : option string :=
  match f !! k with
  | Some v => if Py.truthy v then Some v else None
  | None => None
  end.

(** The key the first present identifier gives, in the order of [ks]. *)
Fixpoint first_present (ks : list string) (f : gmap string string) : option (string * string) :=
  match ks with
  | [] => None
  | k :: rest =>
      match present f k with
      | Some v => Some (k, v)
      | None => first_present rest f
      end
  end.

(** [row] is a member of the cluster [k]. *)
Definition member (cl : list (string * cluster)) (k : string) (row : Db.doc_row) : Prop :=
  exists c, In (k, c) cl /\ In row (docs c).

Definition cluster_step (clusters : list (string * cluster)) (i : doc_info)
    : list (string * cluster) :=
  let '(row, key, fs, slug) := i in
  match key with
  | None => clusters
  | Some key => add_to key row fs slug clusters
  end.

Definition info_row (i : doc_info) : Db.doc_row := fst (fst (fst i)).

(** The roles printed by a run over the corpus of three entities, whose
    clusters are built in the order B (score 4), C (score 1), A (score 10). *)
Definition printed_roles (evs : list event) : list (string * string * nat * nat) :=
  flat_map (fun ev => match ev with
                      | PrintRole role key _ _ dev grp => [(role, key, dev, grp)]
                      | _ => []
                      end) evs.

End EntityVocabulary.

Section ScoreVocabulary.
Local Open Scope Q_scope.

(** Entry [j] of a row is at most [off + j + 1]. *)
Definition bounded (off : nat) (row : list nat) : Prop :=
  forall j p, row !! j = Some p -> (p <= off + S j)%nat.

(** Within 0..100. *)
Definition percent (q : Q) : Prop := 0 <= q /\ q <= 100.

(** The filename as [score_filename] compares it: without path and known
    extension, in lower case. *)
Definition cleaned_name (file_name : string) : string :=
  Re.sub Rules.EXT_RX "" (Py.lower (Py.rsplit_slash_last file_name)).

Fixpoint chars_eqb (a b : list ascii) : bool :=
  match a, b with
  | [], [] => true
  | x :: a', y :: b' => Py.ascii_eqb x y && chars_eqb a' b'
  | _, _ => false
  end.

(** [g] is [f] with exactly one character changed, to the character the
    target has at that place. *)
Fixpoint step_chars (t f g : list ascii) : bool :=
  match t, f, g with
  | tc :: t', fc :: f', gc :: g' =>
      if Py.ascii_eqb fc gc then step_chars t' f' g'
      else Py.ascii_eqb gc tc && chars_eqb f' g' && Nat.eqb (length t') (length f')
  | _, _, _ => false
  end.

Definition step_toward (target f g : string) : bool :=
  step_chars (Py.chars target) (Py.chars f) (Py.chars g).

(** A chain of such steps that ends at the target. *)
Fixpoint converges (target : string) (chain : list string) : bool :=
  match chain with
  | [] => false
  | f :: rest =>
      match rest with
      | [] => String.eqb f target
      | g :: _ => step_toward target f g && converges target rest
      end
  end.

(** A category whose synonym is another eight-letter word. *)
Definition passbooks : SourceOfTruth.Category :=
  {| SourceOfTruth.slug := "legal_passbooks";
     SourceOfTruth.display := "Passbook";
     SourceOfTruth.top_entity := "project_legal_documents";
     SourceOfTruth.state_variant := None;
     SourceOfTruth.org_variant := None;
     SourceOfTruth.keywords := Some ["passbook"];
     SourceOfTruth.synonyms := Some ["pattadar"];
     SourceOfTruth.prototype := "" |}.

Definition passbook_chain : list string :=
  ["Pattadar"; "Pastadar"; "Passadar"; "Passbdar"; "Passboar"; "Passboor"; "Passbook"].

End ScoreVocabulary.

Section SignalVocabulary.

(** The keywords and synonyms of a category that are not empty and occur in
    the text. *)
Definition keyword_hits (text : string) (kws : list string) : nat :=
  length (List.filter (fun kw => Py.truthy kw && Py.contains (Py.lower kw) text) kws).

(** The text [score_keywords] searches. *)
Definition keyword_text (chunks : list Db.chunk) (top_k : nat) : string :=
  Py.lower (Py.join " " (map Db.chunk_text (take top_k chunks))).

Definition all_keywords (cat : SourceOfTruth.Category) : list string :=
  SourceOfTruth.or_nil (SourceOfTruth.keywords cat)
  ++ SourceOfTruth.or_nil (SourceOfTruth.synonyms cat).

(** A chunk whose embedding [doc_vector_mean] uses. *)
Definition usable (c : Db.chunk) : bool :=
  match Db.chunk_emb c with
  | Some (_ :: _) => true
  | _ => false
  end.

End SignalVocabulary.

Section StoreVocabulary.
Import Resolver.

(** The order of a sort on an integer key. *)
Definition by_key {A : Type} (key : A -> Z) (a b : A) : bool := Z.ltb (key a) (key b).

(** What [update_match] does to one row. *)
Definition touched (doc_id : Z) (slug top_entity org_variant state_variant : option string)
    (confidence : option Q) (status : string) (r : Db.doc_row) : Db.doc_row :=
  if Z.eqb (Db.row_id r) doc_id
  then {| Db.row_id := Db.row_id r; Db.document_name := Db.document_name r;
          Db.canonical_slug := slug; Db.top_entity := top_entity;
          Db.org_variant := org_variant; Db.state_variant := state_variant;
          Db.confidence := confidence; Db.status := Some status |}
  else r.

(** What the write-back of one result does to one row. *)
Definition result_write (w : Z * ClassificationResult) (r : Db.doc_row) : Db.doc_row :=
  touched (fst w) (Some (best_slug (snd w))) (Some (top_entity (snd w)))
    (org_variant (snd w)) (state_variant (snd w)) (Some (final (snd w)))
    (status (snd w)) r.

Definition result_writes (ws : list (Z * ClassificationResult)) (r : Db.doc_row) : Db.doc_row :=
  fold_left (fun r w => result_write w r) ws r.

(** Same id and same name. *)
Definition same_document (r r' : Db.doc_row) : Prop :=
  Db.row_id r = Db.row_id r' /\ Db.document_name r = Db.document_name r'.

(** The characters of the texts of the chunks. *)
Definition text_length (chunks : list Db.chunk) : Z :=
  Z.of_nat (list_sum (map String.length (map Db.chunk_text chunks))).

End StoreVocabulary.

Section StateVocabulary.
Import SourceOfTruth.

(** Approvals and land documents. *)
Definition state_specific (c : Category) : bool :=
  String.eqb (top_entity c) "project_approvals_documents"
  || String.eqb (top_entity c) "project_land_documents".

End StateVocabulary.

Section RoleVocabulary.
Import EntityRoleInfer.

(** The documents counted under the features of [fs]. *)
Definition counted (fs : list string) (features : Counter) : nat :=
  list_sum (map snd (List.filter (fun '(f, _) => Fuzz.mem_str f fs) features)).

(** An [update_match] call that rewrites the role and the organization
    variant of a stored row and repeats its other columns. *)
Definition role_write (db : Db.database) (c : call) : Prop :=
  exists row,
    In row (Db.documents db)
    /\ c_doc_id c = Db.row_id row
    /\ c_slug c = Db.canonical_slug row
    /\ c_state_variant c = Db.state_variant row
    /\ c_confidence c = Db.confidence row
    /\ c_status c = status_or_unassigned row
    /\ (exists role, c_top_entity c = Some role
          /\ In role ["developer_entity"; "group_entity"; "other_entity"])
    /\ (exists variant, c_org_variant c = Some variant
          /\ In variant ["llp"; "partnership"; "company"]).

End RoleVocabulary.

(** * Properties *)

(** ** Arithmetic of [min], [max] and comparisons *)

Section PyNumFacts.
Local Open Scope Q_scope.

Lemma qle_bool_true (a b : Q) : Qle_bool a b = true <-> a <= b.
Proof. apply Qle_bool_iff. Qed.

Lemma qle_bool_false (a b : Q) : Qle_bool a b = false <-> b < a.
Proof.
  split; intros H.
  - apply Qnot_le_lt. intros Hle. apply Qle_bool_iff in Hle. congruence.
  - destruct (Qle_bool a b) eqn:E; [|reflexivity].
    apply Qle_bool_iff in E. exfalso. apply (Qlt_not_le _ _ H E).
Qed.

Lemma py_max_cases (a b : Q) :
  (b <= a /\ Py.max a b = a) \/ (a < b /\ Py.max a b = b).
Proof.
  unfold Py.max. destruct (Qle_bool b a) eqn:E.
  - left. split; [apply qle_bool_true|]; auto.
  - right. split; [apply qle_bool_false|]; auto.
Qed.

Lemma py_min_cases (a b : Q) :
  (a <= b /\ Py.min a b = a) \/ (b < a /\ Py.min a b = b).
Proof.
  unfold Py.min. destruct (Qle_bool a b) eqn:E.
  - left. split; [apply qle_bool_true|]; auto.
  - right. split; [apply qle_bool_false|]; auto.
Qed.

Lemma py_max_ge_l (a b : Q) : a <= Py.max a b.
Proof. destruct (py_max_cases a b) as [[H ->]|[H ->]]; lra. Qed.

Lemma py_max_ge_r (a b : Q) : b <= Py.max a b.
Proof. destruct (py_max_cases a b) as [[H ->]|[H ->]]; lra. Qed.

Lemma py_min_le_l (a b : Q) : Py.min a b <= a.
Proof. destruct (py_min_cases a b) as [[H ->]|[H ->]]; lra. Qed.

Lemma py_min_le_r (a b : Q) : Py.min a b <= b.
Proof. destruct (py_min_cases a b) as [[H ->]|[H ->]]; lra. Qed.

Lemma py_max_bounds (lo hi a b : Q) :
  lo <= a <= hi -> lo <= b <= hi -> lo <= Py.max a b <= hi.
Proof. intros Ha Hb. destruct (py_max_cases a b) as [[H ->]|[H ->]]; lra. Qed.

End PyNumFacts.

(** ** The rule engine *)

Section RuleEngineFacts.
Local Open Scope Q_scope.
Import Rules.

Lemma local_value_pos (k : nat) : 0.5 <= local_value (S k).
Proof.
  simpl. assert (0 <= inject_Z (Z.of_nat k)).
  { change 0 with (inject_Z 0). rewrite <- Zle_Qle. lia. }
  lra.
Qed.

Lemma local_value_succ (k : nat) :
  local_value (S k) == local_value k + (if Qeq_bool (local_value k) 0.0 then 0.5 else 0.25).
Proof.
  destruct k as [|k].
  - reflexivity.
  - assert (Hp := local_value_pos k).
    destruct (Qeq_bool (local_value (S k)) 0.0) eqn:E.
    + apply Qeq_bool_iff in E. lra.
    + change (local_value (S (S k))) with (0.5 + 0.25 * inject_Z (Z.of_nat (S k))).
      change (local_value (S k)) with (0.5 + 0.25 * inject_Z (Z.of_nat k)).
      rewrite Nat2Z.inj_succ, <- Z.add_1_r, inject_Z_plus. ring.
Qed.

Lemma local_value_mono (j k : nat) : (j <= k)%nat -> local_value j <= local_value k.
Proof.
  induction 1 as [|k Hle IH]; [lra|].
  rewrite local_value_succ. destruct (Qeq_bool _ _); lra.
Qed.

Lemma qeq_bool_proper (a b c : Q) : a == b -> Qeq_bool a c = Qeq_bool b c.
Proof. intros H. apply Qeqb_comp; [exact H | reflexivity]. Qed.

(** The inner loop, from any accumulated score. *)
Lemma local_fold_value (text : string) (regs : list Re.compiled) :
  forall (k0 : nat) (a : Q) (rs : list string),
    a == local_value k0 ->
    fst (fold_left (local_step text) regs (a, rs)) == local_value (k0 + matching text regs).
Proof.
  induction regs as [|r regs IH]; intros k0 a rs Ha.
  - simpl. rewrite Nat.add_0_r. exact Ha.
  - simpl. unfold matching. simpl. destruct (Re.found r text) eqn:E.
    + simpl. rewrite Nat.add_succ_r.
      change (S (k0 + length (List.filter (fun r0 => Re.found r0 text) regs)))
        with (S k0 + matching text regs)%nat.
      apply IH. rewrite local_value_succ, (qeq_bool_proper _ _ _ Ha), Ha. reflexivity.
    + apply IH. exact Ha.
Qed.

Lemma local_score_value (text : string) (regs : list Re.compiled) :
  fst (local_score text regs) == local_value (matching text regs).
Proof. unfold local_score. apply (local_fold_value text regs 0). reflexivity. Qed.

Lemma matching_le_length (text : string) (regs : list Re.compiled) :
  (matching text regs <= length regs)%nat.
Proof. unfold matching. apply List.filter_length_le. Qed.

(** The threshold 0.8 is passed exactly from the third match on. *)
Lemma emitted_iff_three (k : nat) : 0.8 <= local_value k <-> (3 <= k)%nat.
Proof.
  split; intros H.
  - destruct (le_lt_dec 3 k) as [|Hlt]; [assumption|].
    assert (Hm := local_value_mono k 2 ltac:(lia)).
    change (local_value 2) with (0.5 + 0.25 * 1) in Hm. lra.
  - assert (Hm := local_value_mono 3 k H).
    change (local_value 3) with (0.5 + 0.25 * 2) in Hm. lra.
Qed.

Lemma add_hit_score_le (hits : list hit) (slug why : string) (score : Q) (h : hit) :
  In h (_add_hit hits slug score why) ->
  In h hits \/ h = (slug, Py.min 0.95 score, why).
Proof.
  unfold _add_hit. intros H. apply in_app_or in H as [H|[H|[]]]; auto.
Qed.

Lemma text_rule_hits_fold (table : list (string * list Re.compiled)) (text : string)
    (hits : list hit) :
  text_rule_hits table text hits = fold_left (text_rule_entry text) table hits.
Proof.
  unfold text_rule_hits. revert hits.
  induction table as [|[slug regs] table IH]; intros hits; [reflexivity|].
  simpl. rewrite IH. reflexivity.
Qed.

Lemma text_rule_entry_spec (text : string) (hits : list hit) (slug : string)
    (regs : list Re.compiled) :
  text_rule_entry text hits (slug, regs) =
    if Qle_bool 0.8 (fst (local_score text regs))
    then hits ++ [(slug, Py.min 0.95 (fst (local_score text regs)),
                   Py.join "; " (snd (local_score text regs)))]
    else hits.
Proof.
  unfold text_rule_entry. destruct (local_score text regs) as [local reasons].
  reflexivity.
Qed.

(** A table whose slugs have at most two detectors each emits nothing. *)
Lemma short_table_silent (table : list (string * list Re.compiled)) (text : string) :
  Forall (fun e => (length (snd e) <= 2)%nat) table ->
  forall hits, text_rule_hits table text hits = hits.
Proof.
  intros Hshort hits. rewrite text_rule_hits_fold. revert hits.
  induction Hshort as [|[slug regs] table Hlen _ IH]; intros hits; [reflexivity|].
  cbn [fold_left]. rewrite text_rule_entry_spec.
  destruct (Qle_bool 0.8 (fst (local_score text regs))) eqn:E; [|apply IH].
  exfalso. apply qle_bool_true in E. rewrite local_score_value in E.
  apply emitted_iff_three in E. pose proof (matching_le_length text regs). simpl in Hlen. lia.
Qed.

Lemma TEXT_RULES_short : Forall (fun e => (length (snd e) <= 2)%nat) TEXT_RULES.
Proof. unfold TEXT_RULES. repeat (constructor; [simpl; lia|]). constructor. Qed.

End RuleEngineFacts.

Section HitListFacts.
Local Open Scope Q_scope.
Import Rules.

Lemma fold_left_ext {A B : Type} (f g : A -> B -> A) (l : list B) (a : A) :
  (forall a b, f a b = g a b) -> fold_left f l a = fold_left g l a.
Proof.
  intros Hfg. revert a. induction l as [|b l IH]; intros a; [reflexivity|].
  simpl. rewrite Hfg. apply IH.
Qed.

Lemma fold_left_appending {A B : Type} (f : B -> list A) (l : list B) (acc : list A) :
  fold_left (fun acc b => acc ++ f b) l acc = acc ++ flat_map f l.
Proof.
  revert acc. induction l as [|b l IH]; intros acc; simpl.
  - symmetry. apply app_nil_r.
  - rewrite IH. symmetry. apply app_assoc.
Qed.

Lemma text_rule_hits_flat (table : list (string * list Re.compiled)) (text : string)
    (hits : list hit) :
  text_rule_hits table text hits = hits ++ flat_map (entry_hits text) table.
Proof.
  rewrite text_rule_hits_fold, <- fold_left_appending.
  apply fold_left_ext. intros a [slug regs]. rewrite text_rule_entry_spec.
  unfold entry_hits. simpl. destruct (Qle_bool _ _); [reflexivity|].
  symmetry. apply app_nil_r.
Qed.

Lemma add_hits_fold (slugs : list string) (score : Q) (why : string) (hits : list hit) :
  fold_left (fun hits slug => _add_hit hits slug score why) slugs hits
  = hits ++ map (fun slug => (slug, Py.min 0.95 score, why)) slugs.
Proof.
  revert hits. induction slugs as [|slug slugs IH]; intros hits; simpl.
  - symmetry. apply app_nil_r.
  - rewrite IH. unfold _add_hit. rewrite <- app_assoc. reflexivity.
Qed.

Lemma filename_hint_hits_flat (filename : string) (hits : list hit) :
  filename_hint_hits filename hits = hits ++ flat_map (token_hits (cleaned filename)) tokenmap.
Proof.
  unfold filename_hint_hits. fold (cleaned filename).
  rewrite <- fold_left_appending. apply fold_left_ext.
  intros a [token key]. unfold token_hits. simpl fst. simpl snd.
  destruct (Py.contains token (cleaned filename)); [|symmetry; apply app_nil_r].
  apply add_hits_fold.
Qed.

Lemma bank_router_cases (text : string) (state : option string) :
  _bank_router text state = []
  \/ _bank_router text state =
       [("dev_company_bank_stmt", 0.9, "bank statement + corporate markers");
        ("dev_llp_bank_stmt", 0.9, "bank statement + corporate markers");
        ("dev_partnership_bank_stmt", 0.9, "bank statement + corporate markers")]
  \/ _bank_router text state =
       [("directors_bank_stmt_1y", 0.9, "bank statement + no corporate markers")].
Proof.
  unfold _bank_router.
  destruct (Re.found BANK_STMT_RX text); simpl negb; cbv iota; [|left; reflexivity].
  destruct (Re.found CORP_HINTS_RX text || Re.found GSTIN_RX text
            || Re.found CIN_RX text || Re.found LLPIN_RX text).
  - right. left. reflexivity.
  - right. right. reflexivity.
Qed.

Lemma bank_router_scores (text : string) (state : option string) :
  Forall (fun h => hit_score h = 0.9) (_bank_router text state).
Proof.
  destruct (bank_router_cases text state) as [-> | [-> | ->]];
    repeat constructor.
Qed.

Lemma token_hits_scores (base : string) (tk : string * string) :
  Forall (fun h => hit_score h = 0.85) (token_hits base tk).
Proof.
  unfold token_hits. destruct (Py.contains _ _); [|constructor].
  apply List.Forall_forall. intros h Hin. apply in_map_iff in Hin as [slug [<- _]].
  reflexivity.
Qed.

Lemma filename_hits_scores (filename : string) :
  Forall (fun h => hit_score h = 0.85) (filename_hint_hits filename []).
Proof.
  rewrite filename_hint_hits_flat. cbn [app].
  generalize tokenmap as tm.
  induction tm as [|tk tm IH]; cbn [flat_map]; [constructor|].
  apply Forall_app. split; [apply token_hits_scores | exact IH].
Qed.

(** The three layers, pooled in order. *)
Lemma rules_layers (text filename : string) (state : option string) :
  rules_from_text_and_filename text filename state
  = flat_map (entry_hits text) TEXT_RULES ++ _bank_router text state
    ++ filename_hint_hits filename [].
Proof.
  unfold rules_from_text_and_filename.
  rewrite filename_hint_hits_flat, text_rule_hits_flat, (filename_hint_hits_flat filename []).
  simpl app. rewrite <- app_assoc. reflexivity.
Qed.

(** With the shipped table the first layer is empty. *)
Lemma shipped_text_rules_silent (text : string) : text_rule_hits TEXT_RULES text [] = [].
Proof. apply (short_table_silent _ _ TEXT_RULES_short). Qed.

Lemma rules_two_layers (text filename : string) (state : option string) :
  rules_from_text_and_filename text filename state
  = _bank_router text state ++ filename_hint_hits filename [].
Proof.
  rewrite rules_layers. pose proof (shipped_text_rules_silent text) as Hs.
  rewrite text_rule_hits_flat in Hs. cbn [app] in Hs. rewrite Hs. reflexivity.
Qed.

End HitListFacts.

(** ** C4 and C2: the text-rule layer *)

Section TextRuleClaims.
Local Open Scope Q_scope.
Import Rules.

(** C4.  For each slug of a text-rule table the local score is 0.5 for the
    first matching detector plus 0.25 for each further one (two matches
    give 0.75, three give 1.0); the slug yields a hit exactly when its
    local score is at least 0.8, the hit carries the local score capped at
    0.95, and no hit of the rule engine scores above 0.95. *)
Theorem text_rule_scoring :
  forall (text : string) (table : list (string * list Re.compiled)),
    (forall regs, fst (local_score text regs) == local_value (matching text regs))
    /\ (local_value 0 == 0 /\ local_value 1 == 0.5
        /\ local_value 2 == 0.75 /\ local_value 3 == 1.0)
    /\ (forall k, local_value (S (S k)) == local_value (S k) + 0.25)
    /\ text_rule_hits table text []
       = flat_map
           (fun e =>
              if Qle_bool 0.8 (fst (local_score text (snd e)))
              then [(fst e, Py.min 0.95 (fst (local_score text (snd e))),
                     Py.join "; " (snd (local_score text (snd e))))]
              else [])
           table
    /\ (forall regs, Qle_bool 0.8 (fst (local_score text regs)) = true
                     <-> 0.8 <= local_value (matching text regs))
    /\ (forall regs, (3 <= matching text regs)%nat ->
                     Py.min 0.95 (fst (local_score text regs)) = 0.95)
    /\ (forall h, In h (text_rule_hits table text []) -> hit_score h <= 0.95)
    /\ (forall filename state h,
          In h (rules_from_text_and_filename text filename state) -> hit_score h <= 0.95).
Proof.
  intros text table.
  assert (Hcap : forall tb h, In h (flat_map (entry_hits text) tb) -> hit_score h <= 0.95).
  { intros tb h Hin. apply in_flat_map in Hin as [e [_ Hin]].
    unfold entry_hits in Hin. destruct (Qle_bool _ _); [|destruct Hin].
    destruct Hin as [<-|[]]. apply py_min_le_l. }
  split; [apply local_score_value|].
  split; [repeat split; reflexivity|].
  split.
  { intros k. rewrite (local_value_succ (S k)).
    assert (Hp := local_value_pos k).
    destruct (Qeq_bool (local_value (S k)) 0.0) eqn:E; [|reflexivity].
    apply Qeq_bool_iff in E. lra. }
  split; [apply (text_rule_hits_flat table text [])|].
  split.
  { intros regs. rewrite qle_bool_true, local_score_value. reflexivity. }
  split.
  { intros regs H3. apply emitted_iff_three in H3 as H8.
    assert (Hm := local_value_mono 3 _ H3).
    change (local_value 3) with (0.5 + 0.25 * 2) in Hm.
    rewrite <- local_score_value in Hm.
    destruct (py_min_cases 0.95 (fst (local_score text regs))) as [[_ ->]|[Hlt _]];
      [reflexivity | lra]. }
  split.
  { intros h. rewrite text_rule_hits_flat. apply Hcap. }
  intros filename state h. rewrite rules_layers. intros Hin.
  apply in_app_or in Hin as [Hin|Hin]; [apply (Hcap _ _ Hin)|].
  apply in_app_or in Hin as [Hin|Hin].
  - pose proof (bank_router_scores text state) as Hb.
    rewrite List.Forall_forall in Hb. rewrite (Hb _ Hin). lra.
  - pose proof (filename_hits_scores filename) as Hf.
    rewrite List.Forall_forall in Hf. rewrite (Hf _ Hin). lra.
Qed.

(** C2.  Every slug of the shipped [TEXT_RULES] has at most two detectors,
    so its local score never exceeds 0.75 and stays below the threshold
    0.8: the text-rule layer emits no hit for any text, and every hit of
    the rule engine comes from the bank-statement router (score 0.9) or
    the filename hints (score 0.85). *)
Theorem text_rules_never_fire :
  forall (text filename : string) (state : option string),
    Forall (fun e => (length (snd e) <= 2)%nat) TEXT_RULES
    /\ Forall (fun e => fst (local_score text (snd e)) <= 0.75
                        /\ Qle_bool 0.8 (fst (local_score text (snd e))) = false)
              TEXT_RULES
    /\ text_rule_hits TEXT_RULES text [] = []
    /\ rules_from_text_and_filename text filename state
       = _bank_router text state ++ filename_hint_hits filename []
    /\ Forall (fun h => hit_score h = 0.9) (_bank_router text state)
    /\ Forall (fun h => hit_score h = 0.85) (filename_hint_hits filename [])
    /\ Forall (fun h => hit_score h = 0.9 \/ hit_score h = 0.85)
              (rules_from_text_and_filename text filename state).
Proof.
  intros text filename state.
  pose proof (shipped_text_rules_silent text) as Hsilent.
  pose proof (rules_two_layers text filename state) as Heq.
  split; [apply TEXT_RULES_short|].
  split.
  { eapply List.Forall_impl; [|apply TEXT_RULES_short].
    intros [slug regs] Hlen. cbn [snd] in *.
    assert (Hm := local_value_mono _ 2 (Nat.le_trans _ _ _ (matching_le_length text regs) Hlen)).
    change (local_value 2) with (0.5 + 0.25 * 1) in Hm.
    rewrite <- local_score_value in Hm.
    split; [lra|]. apply qle_bool_false. lra. }
  split; [exact Hsilent|].
  split; [exact Heq|].
  split; [apply bank_router_scores|].
  split; [apply filename_hits_scores|].
  rewrite Heq. apply Forall_app. split.
  - eapply List.Forall_impl; [|apply bank_router_scores]. intros h Hh. left. exact Hh.
  - eapply List.Forall_impl; [|apply filename_hits_scores]. intros h Hh. right. exact Hh.
Qed.

(** Three matching detectors for one slug: the local score 1.0 is emitted
    at the cap. *)
Example three_detectors_capped :
  text_rule_hits [("directors_kyc", [PAN_RX; AADHAAR_RX; GSTIN_RX])]
    "PAN ABCDE1234F, Aadhaar enclosed, GSTIN 29ABCDE1234F1Z5" []
  = [("directors_kyc", 0.95,
      "\b[A-Z]{5}[0-9]{4}[A-Z]\b; \bAadhaar\b; \b\d{2}[A-Z]{5}\d{4}[A-Z][1-9A-Z]Z[0-9A-Z]\b")].
Proof. vm_compute. reflexivity. Qed.

End TextRuleClaims.

(** ** Stable sorting *)

Section SortFacts.
Context {A : Type} (lt : A -> A -> bool).

Lemma insert_desc_perm (x : A) (l : list A) : Permutation (Py.insert_desc lt x l) (x :: l).
Proof.
  induction l as [|y l IH]; simpl; [reflexivity|].
  destruct (lt x y); [|reflexivity].
  rewrite IH. apply perm_swap.
Qed.

Lemma sort_desc_perm (l : list A) : Permutation (Py.sort_desc lt l) l.
Proof.
  induction l as [|x l IH]; simpl; [reflexivity|].
  rewrite insert_desc_perm. constructor. exact IH.
Qed.

Lemma sort_desc_in (l : list A) (x : A) : In x (Py.sort_desc lt l) <-> In x l.
Proof.
  split; apply Permutation_in; [|symmetry]; apply sort_desc_perm.
Qed.

Lemma sort_desc_nil (l : list A) : Py.sort_desc lt l = [] -> l = [].
Proof.
  intros H. pose proof (sort_desc_perm l) as P. rewrite H in P.
  apply Permutation_nil in P. exact P.
Qed.

(** With [lt] the strict part of a total preorder, the result is in
    descending order: no element is below a later one. *)
Hypothesis lt_trans_neg : forall x y z, lt x y = false -> lt y z = false -> lt x z = false.
Hypothesis lt_asym : forall x y, lt x y = true -> lt y x = false.

Lemma insert_desc_sorted (x : A) (l : list A) :
  StronglySorted (fun a b => lt a b = false) l ->
  StronglySorted (fun a b => lt a b = false) (Py.insert_desc lt x l).
Proof.
  induction 1 as [|y l Hs IH Hall]; simpl.
  - repeat constructor.
  - destruct (lt x y) eqn:E.
    + constructor; [exact IH|].
      apply List.Forall_forall. intros z Hz.
      apply (Permutation_in _ (insert_desc_perm x l)) in Hz as [<-|Hz].
      * apply lt_asym. exact E.
      * rewrite List.Forall_forall in Hall. apply Hall. exact Hz.
    + constructor; [constructor; assumption|].
      constructor; [exact E|].
      apply List.Forall_forall. intros z Hz.
      rewrite List.Forall_forall in Hall.
      apply (lt_trans_neg x y z E (Hall z Hz)).
Qed.

Lemma sort_desc_sorted (l : list A) :
  StronglySorted (fun a b => lt a b = false) (Py.sort_desc lt l).
Proof.
  induction l as [|x l IH]; simpl; [constructor|].
  apply insert_desc_sorted. exact IH.
Qed.

End SortFacts.

(** ** The orchestrator *)

Section ResolverFacts.
Local Open Scope Q_scope.
Import Resolver.
Variable cosine : list Q -> list Q -> Q.

Lemma score_all_perm fname chunks doc_vec cats cat_vecs weights :
  Permutation (score_all cosine fname chunks doc_vec cats cat_vecs weights)
              (map (row_of cosine fname chunks doc_vec cat_vecs weights) cats).
Proof. unfold score_all. apply sort_desc_perm. Qed.

Lemma score_all_in fname chunks doc_vec cats cat_vecs weights (r : scored_row) :
  In r (score_all cosine fname chunks doc_vec cats cat_vecs weights) <->
  exists c, In c cats /\ r = row_of cosine fname chunks doc_vec cat_vecs weights c.
Proof.
  split.
  - intros H. apply (Permutation_in _ (score_all_perm _ _ _ _ _ _)) in H.
    apply in_map_iff in H as [c [<- Hc]]. eauto.
  - intros [c [Hc ->]].
    apply (Permutation_in _ (Permutation_sym (score_all_perm _ _ _ _ _ _))).
    apply in_map. exact Hc.
Qed.

Lemma score_all_slugs fname chunks doc_vec cats cat_vecs weights :
  Permutation (map sc_slug (score_all cosine fname chunks doc_vec cats cat_vecs weights))
              (map SourceOfTruth.slug cats).
Proof.
  rewrite score_all_perm, map_map. reflexivity.
Qed.

(** [rule_best_of]: a hit of maximal score. *)
Lemma best_fold (rest : list Rules.hit) (h : Rules.hit) :
  let b := fold_left
             (fun b x => if Qle_bool (Rules.hit_score x) (Rules.hit_score b) then b else x)
             rest h in
  In b (h :: rest) /\ forall x, In x (h :: rest) -> Rules.hit_score x <= Rules.hit_score b.
Proof.
  revert h. induction rest as [|y rest IH]; intros h; simpl.
  - split; [auto|]. intros x [<-|[]]. lra.
  - destruct (Qle_bool (Rules.hit_score y) (Rules.hit_score h)) eqn:E.
    + destruct (IH h) as [Hin Hmax]. split.
      * destruct Hin as [<-|Hin]; auto.
      * intros x [<-|[<-|Hx]].
        -- apply Hmax. left. reflexivity.
        -- apply qle_bool_true in E. specialize (Hmax h (or_introl eq_refl)). lra.
        -- apply Hmax. right. exact Hx.
    + destruct (IH y) as [Hin Hmax]. split.
      * destruct Hin as [<-|Hin]; auto.
      * intros x [<-|[<-|Hx]].
        -- apply qle_bool_false in E. specialize (Hmax y (or_introl eq_refl)). lra.
        -- apply Hmax. left. reflexivity.
        -- apply Hmax. right. exact Hx.
Qed.

Lemma rule_best_of_max (hits : list Rules.hit) (b : Rules.hit) :
  rule_best_of hits = Some b ->
  In b hits /\ forall x, In x hits -> Rules.hit_score x <= Rules.hit_score b.
Proof.
  destruct hits as [|h rest]; [discriminate|].
  intros [= <-]. apply best_fold.
Qed.

Lemma status_of_cases (final : Q) :
  (0.70 <= final -> status_of final = "accepted")
  /\ (0.60 <= final -> final < 0.70 -> status_of final = "needs_review")
  /\ (final < 0.60 -> status_of final = "unassigned").
Proof.
  unfold status_of. repeat split.
  - intros H. apply qle_bool_true in H. rewrite H. reflexivity.
  - intros H6 H7. apply qle_bool_false in H7. apply qle_bool_true in H6.
    rewrite H7, H6. reflexivity.
  - intros H6. assert (H7 : final < 0.70) by lra.
    apply qle_bool_false in H6, H7. rewrite H7, H6. reflexivity.
Qed.

Lemma filename_weight_cases (generic : bool) (dup : nat) :
  (generic = true \/ (3 <= dup)%nat -> filename_weight generic dup = 0.0)
  /\ (generic = false -> dup = 2%nat -> filename_weight generic dup = 0.20)
  /\ (generic = false -> (dup < 2)%nat -> filename_weight generic dup = 0.40).
Proof.
  unfold filename_weight. repeat split.
  - intros [-> | H]; [reflexivity|].
    apply Nat.leb_le in H. rewrite H, orb_true_r. reflexivity.
  - intros -> ->. reflexivity.
  - intros -> H. destruct dup as [|[|dup]]; [reflexivity | reflexivity | lia].
Qed.

(** The histogram counts the documents whose lower-cased name is [k]. *)
Lemma filename_counts_spec (db : Db.database) (k : string) :
  default 0%nat (Db.filename_counts db !! k)
  = length (List.filter (fun r => String.eqb (Py.lower (Db.document_name r)) k)
                        (Db.documents db)).
Proof.
  unfold Db.filename_counts.
  assert (H : forall rows (m : gmap string nat),
            default 0%nat
              (fold_left
                 (fun (m : gmap string nat) r =>
                    <[Py.lower (Db.document_name r)
                      := S (default 0%nat (m !! Py.lower (Db.document_name r)))]> m)
                 rows m !! k)
            = (default 0%nat (m !! k)
               + length (List.filter
                           (fun r => String.eqb (Py.lower (Db.document_name r)) k) rows))%nat).
  { induction rows as [|r rows IH]; intros m; cbn [fold_left List.filter length]; [lia|].
    rewrite IH. destruct (String.eqb (Py.lower (Db.document_name r)) k) eqn:E.
    - apply String.eqb_eq in E. rewrite E, lookup_insert_eq. cbn. lia.
    - apply String.eqb_neq in E. rewrite lookup_insert_ne by exact E. reflexivity. }
  rewrite H, lookup_empty. reflexivity.
Qed.

(** The locals, once the chunks are read and a best candidate exists. *)
Lemma categorize_locals_inv db doc_row cats cat_vecs fname_cnts state (L : locals) :
  categorize_locals cosine db doc_row cats cat_vecs fname_cnts state = Ok L ->
  exists chunks r0 rest,
    Db.get_chunks db (Db.row_id doc_row) None = Ok chunks
    /\ l_chunks L = chunks
    /\ l_rule_hits L
       = Rules.rules_from_text_and_filename (full_text_of chunks)
           (Db.document_name doc_row) state
    /\ l_rule_best L = rule_best_of (l_rule_hits L)
    /\ l_dup_count L = default 0%nat (fname_cnts !! Py.lower (Db.document_name doc_row))
    /\ l_generic L = Signals.is_generic_filename (Db.document_name doc_row)
    /\ l_weights L = (filename_weight (l_generic L) (l_dup_count L), 0.30, 0.30)
    /\ l_scored L
       = score_all cosine (Db.document_name doc_row) chunks
           (Signals.doc_vector_mean chunks 8) cats cat_vecs (l_weights L)
    /\ l_scored L = r0 :: rest
    /\ l_fused L = sc_final r0
    /\ l_parts L = sc_parts r0
    /\ (l_slug L, l_cat L, l_final L, l_rule_applied L)
       = apply_rule (l_scored L) (l_rule_best L) (sc_slug r0) (sc_final r0) (sc_cat r0)
    /\ l_status L = status_of (l_final L).
Proof.
  unfold categorize_locals.
  destruct (Db.get_chunks db (Db.row_id doc_row) None) as [chunks|e]; [|discriminate].
  cbn [bind].
  destruct (score_all _ _ _ _ _ _ _) as [|[[[slug0 fused0] parts0] cat0] rest] eqn:Hsc;
    [discriminate|].
  destruct (apply_rule _ _ slug0 fused0 cat0) as [[[slug1 cat1] final1] ra] eqn:Har.
  intros [= <-]. exists chunks, (slug0, fused0, parts0, cat0), rest.
  cbn [l_chunks l_rule_hits l_rule_best l_dup_count l_generic l_weights l_scored
       l_fused l_parts l_slug l_cat l_final l_rule_applied l_status
       sc_final sc_parts sc_slug sc_cat fst snd].
  rewrite Hsc. repeat split; try reflexivity. symmetry. exact Har.
Qed.

(** Conversely: with the chunk table present and a candidate to score,
    the locals exist. *)
Lemma categorize_locals_total db doc_row cats cat_vecs fname_cnts state chunks :
  Db.get_chunks db (Db.row_id doc_row) None = Ok chunks ->
  cats <> [] ->
  exists L, categorize_locals cosine db doc_row cats cat_vecs fname_cnts state = Ok L.
Proof.
  intros Hch Hne. unfold categorize_locals. rewrite Hch. cbn [bind].
  destruct (score_all _ _ _ _ _ _ _) as [|[[[slug0 fused0] parts0] cat0] rest] eqn:Hsc.
  - exfalso. apply Hne. unfold score_all in Hsc. apply sort_desc_nil in Hsc.
    destruct cats; [reflexivity | discriminate].
  - destruct (apply_rule _ _ slug0 fused0 cat0) as [[[slug1 cat1] final1] ra].
    eexists. reflexivity.
Qed.

(** The override, case by case. *)
Lemma apply_rule_found (scored : list scored_row) (r_slug reason slug : string)
    (r_score fused : Q) (cat : SourceOfTruth.Category) :
  In r_slug (map sc_slug scored) ->
  exists r, In r scored /\ sc_slug r = r_slug
    /\ apply_rule scored (Some (r_slug, r_score, reason)) slug fused cat
       = (r_slug, sc_cat r, Py.max fused r_score,
          Some {| rule_slug := r_slug; rule_score := Py.round r_score 3;
                  rule_reason := reason |}).
Proof.
  intros Hin. unfold apply_rule.
  destruct (List.find (fun r => String.eqb (sc_slug r) r_slug) scored) as [r|] eqn:Hf.
  - apply List.find_some in Hf as [Hr He]. apply String.eqb_eq in He.
    exists r. auto.
  - exfalso. apply in_map_iff in Hin as [r [Hs Hr]].
    apply (List.find_none _ _ Hf) in Hr. cbn in Hr. rewrite Hs, String.eqb_refl in Hr.
    discriminate.
Qed.

Lemma apply_rule_missing (scored : list scored_row) (r_slug reason slug : string)
    (r_score fused : Q) (cat : SourceOfTruth.Category) :
  ~ In r_slug (map sc_slug scored) ->
  apply_rule scored (Some (r_slug, r_score, reason)) slug fused cat
  = (slug, cat, Py.max fused (r_score * 0.9),
     Some {| rule_slug := r_slug; rule_score := Py.round (r_score * 0.9) 3;
             rule_reason := (reason ++ " (partial)")%string |}).
Proof.
  intros Hnin. unfold apply_rule.
  destruct (List.find (fun r => String.eqb (sc_slug r) r_slug) scored) as [r|] eqn:Hf;
    [|reflexivity].
  exfalso. apply List.find_some in Hf as [Hr He]. apply String.eqb_eq in He.
  apply Hnin. apply in_map_iff. eauto.
Qed.

End ResolverFacts.


(** ** C5, C6, C3 and C1: weights, thresholds and the rule override *)

Section ResolverClaims.
Local Open Scope Q_scope.
Import Resolver.

(** C5.  The filename weight used in the fusion of a document is 0 when the
    filename is generic or its lower-cased name occurs at least 3 times,
    0.20 when it occurs exactly twice, 0.40 otherwise; the keyword and
    embedding weights are 0.30 each, and every candidate is fused with
    these weights.  The count a run passes in is the number of documents
    with that lower-cased name. *)
Theorem filename_weight_damping :
  forall (cosine : list Q -> list Q -> Q) (db : Db.database) (doc_row : Db.doc_row)
         (cats : list SourceOfTruth.Category) (cat_vecs : gmap string (list Q))
         (fname_cnts : gmap string nat) (state : option string) (L : locals),
    categorize_locals cosine db doc_row cats cat_vecs fname_cnts state = Ok L ->
    let generic := Signals.is_generic_filename (Db.document_name doc_row) in
    let dup := default 0%nat (fname_cnts !! Py.lower (Db.document_name doc_row)) in
    l_weights L = (filename_weight generic dup, 0.30, 0.30)
    /\ (generic = true \/ (3 <= dup)%nat -> filename_weight generic dup = 0.0)
    /\ (generic = false -> dup = 2%nat -> filename_weight generic dup = 0.20)
    /\ (generic = false -> (dup < 2)%nat -> filename_weight generic dup = 0.40)
    /\ Forall (fun r => sc_final r
                        = Fuse.fuse_scores (fst (fst (sc_parts r))) (snd (fst (sc_parts r)))
                            (snd (sc_parts r)) (filename_weight generic dup, 0.30, 0.30))
              (l_scored L)
    /\ (forall store k,
          default 0%nat (Db.filename_counts store !! k)
          = length (List.filter (fun r => String.eqb (Py.lower (Db.document_name r)) k)
                                (Db.documents store))).
Proof.
  intros cosine db doc_row cats cat_vecs fname_cnts state L HL generic dup.
  apply categorize_locals_inv in HL
    as (chunks & r0 & rest & _ & _ & _ & _ & Hdup & Hgen & Hw & Hsc & _).
  rewrite Hgen, Hdup in Hw. fold generic dup in Hw.
  split; [exact Hw|].
  destruct (filename_weight_cases generic dup) as (H0 & H2 & H4).
  repeat (split; [assumption|]).
  split; [|apply filename_counts_spec].
  apply List.Forall_forall. intros r Hr. rewrite Hsc, Hw in Hr.
  apply score_all_in in Hr as [c [_ ->]]. reflexivity.
Qed.

(** The weight of a unique, meaningful filename, on the corpus. *)
Lemma filename_weight_damping_witness :
  exists L,
    categorize_locals Corpus.no_cosine Corpus.db Corpus.gst_doc Corpus.cats ∅
      (Db.filename_counts Corpus.db) (Some "TS") = Ok L
    /\ l_weights L = (0.40, 0.30, 0.30).
Proof.
  destruct (categorize_locals Corpus.no_cosine Corpus.db Corpus.gst_doc Corpus.cats ∅
              (Db.filename_counts Corpus.db) (Some "TS")) as [L|e] eqn:E;
    [|vm_compute in E; discriminate].
  exists L. split; [reflexivity|].
  exact (proj1 (filename_weight_damping _ _ _ _ _ _ _ L E)).
Defined.

(** C6.  The status is a function of the final score alone: accepted from
    0.70 on, needs_review from 0.60 up to 0.70, unassigned below 0.60.  The
    status of a result is that function of the document's final score, and
    the fields of the document row other than its id and name (among them
    its earlier status) and the rows of the documents table do not enter
    the result. *)
Theorem status_thresholds :
  forall (final : Q) (cosine : list Q -> list Q -> Q) (db db' : Db.database)
         (row row' : Db.doc_row) (cats : list SourceOfTruth.Category)
         (cat_vecs : gmap string (list Q)) (fname_cnts : gmap string nat)
         (state : option string) (topk_show : nat),
    (0.70 <= final -> status_of final = "accepted")
    /\ (0.60 <= final -> final < 0.70 -> status_of final = "needs_review")
    /\ (final < 0.60 -> status_of final = "unassigned")
    /\ (forall L, categorize_locals cosine db row cats cat_vecs fname_cnts state = Ok L ->
                  l_status L = status_of (l_final L))
    /\ (forall r, categorize_document cosine db row cats cat_vecs fname_cnts state topk_show
                  = Ok r ->
                  exists L, categorize_locals cosine db row cats cat_vecs fname_cnts state = Ok L
                            /\ status r = status_of (l_final L)
                            /\ Resolver.final r = Py.round (l_final L) 3)
    /\ (Db.chunk_tables db = Db.chunk_tables db' ->
        Db.row_id row = Db.row_id row' ->
        Db.document_name row = Db.document_name row' ->
        categorize_document cosine db row cats cat_vecs fname_cnts state topk_show
        = categorize_document cosine db' row' cats cat_vecs fname_cnts state topk_show).
Proof.
  intros final cosine db db' row row' cats cat_vecs fname_cnts state topk_show.
  destruct (status_of_cases final) as (Ha & Hn & Hu).
  repeat (split; [assumption|]).
  assert (Hst : forall L, categorize_locals cosine db row cats cat_vecs fname_cnts state = Ok L ->
                          l_status L = status_of (l_final L)).
  { intros L HL. apply categorize_locals_inv in HL
      as (chunks & r0 & rest & _ & _ & _ & _ & _ & _ & _ & _ & _ & _ & _ & _ & Hs).
    exact Hs. }
  split; [exact Hst|].
  split.
  - intros r Hr. unfold categorize_document in Hr.
    destruct (categorize_locals cosine db row cats cat_vecs fname_cnts state) as [L|e] eqn:E;
      [|discriminate].
    cbn [bind] in Hr. injection Hr as <-. exists L.
    split; [reflexivity|]. split; [apply Hst; reflexivity | reflexivity].
  - intros Hct Hid Hname. unfold categorize_document, categorize_locals, Db.get_chunks, result_of.
    rewrite Hct, Hid, Hname. reflexivity.
Qed.

(** C3.  When rule hits exist the hit of maximal score is taken.  If its
    slug is the slug of a candidate, that slug and its category win and the
    final score is the larger of the fused score and the rule score;
    otherwise the winner stays and the final score is the larger of the
    fused score and 0.9 times the rule score, the applied rule being marked
    partial.  The candidates are the categories the document was scored
    against. *)
Theorem rule_override :
  forall (scored : list scored_row) (rule_hits : list Rules.hit) (slug : string) (fused : Q)
         (cat : SourceOfTruth.Category),
    (rule_best_of rule_hits = None <-> rule_hits = [])
    /\ (rule_hits = [] ->
        apply_rule scored (rule_best_of rule_hits) slug fused cat = (slug, cat, fused, None))
    /\ (forall b, rule_best_of rule_hits = Some b ->
          In b rule_hits
          /\ forall h, In h rule_hits -> Rules.hit_score h <= Rules.hit_score b)
    /\ (forall r_slug r_score reason,
          rule_best_of rule_hits = Some (r_slug, r_score, reason) ->
          In r_slug (map sc_slug scored) ->
          exists r, In r scored /\ sc_slug r = r_slug
            /\ apply_rule scored (rule_best_of rule_hits) slug fused cat
               = (r_slug, sc_cat r, Py.max fused r_score,
                  Some {| rule_slug := r_slug; rule_score := Py.round r_score 3;
                          rule_reason := reason |}))
    /\ (forall r_slug r_score reason,
          rule_best_of rule_hits = Some (r_slug, r_score, reason) ->
          ~ In r_slug (map sc_slug scored) ->
          apply_rule scored (rule_best_of rule_hits) slug fused cat
          = (slug, cat, Py.max fused (r_score * 0.9),
             Some {| rule_slug := r_slug; rule_score := Py.round (r_score * 0.9) 3;
                     rule_reason := (reason ++ " (partial)")%string |}))
    /\ (forall a b, a <= Py.max a b /\ b <= Py.max a b /\ (Py.max a b = a \/ Py.max a b = b))
    /\ (forall cosine db doc_row cats cat_vecs fname_cnts state L,
          categorize_locals cosine db doc_row cats cat_vecs fname_cnts state = Ok L ->
          Permutation (map sc_slug (l_scored L)) (map SourceOfTruth.slug cats)
          /\ l_rule_best L = rule_best_of (l_rule_hits L)
          /\ exists r0 rest,
               l_scored L = r0 :: rest /\ l_fused L = sc_final r0
               /\ (l_slug L, l_cat L, l_final L, l_rule_applied L)
                  = apply_rule (l_scored L) (l_rule_best L) (sc_slug r0) (l_fused L) (sc_cat r0)).
Proof.
  intros scored rule_hits slug fused cat.
  split.
  { destruct rule_hits; split; intros H; try reflexivity; discriminate. }
  split.
  { intros ->. reflexivity. }
  split.
  { intros b Hb. apply rule_best_of_max. exact Hb. }
  split.
  { intros r_slug r_score reason -> Hin. apply apply_rule_found. exact Hin. }
  split.
  { intros r_slug r_score reason -> Hnin. apply apply_rule_missing. exact Hnin. }
  split.
  { intros a b. split; [apply py_max_ge_l|]. split; [apply py_max_ge_r|].
    destruct (py_max_cases a b) as [[_ ->]|[_ ->]]; auto. }
  intros cosine db doc_row cats cat_vecs fname_cnts state L HL.
  apply categorize_locals_inv in HL
    as (chunks & r0 & rest & _ & _ & _ & Hrb & _ & _ & _ & Hsc & Hhd & Hfu & _ & Har & _).
  split; [rewrite Hsc; apply score_all_slugs|].
  split; [exact Hrb|].
  exists r0, rest. rewrite Hfu. auto.
Qed.

(** The two branches of the override on the corpus.  In a TS run the best
    hit of [GST_Certificate.pdf] names a candidate and is forced.  In a KA
    run the best hit of [ka_rera_approval.pdf] is the first of the two
    "rera" hints, [ts_rera_certificate], which is not a KA candidate: the
    fused winner [ka_rera] stays and the score is raised to 0.9 * 0.85. *)
Example override_branches :
  match categorize_locals Corpus.no_cosine Corpus.db Corpus.gst_doc Corpus.cats ∅
          (Db.filename_counts Corpus.db) (Some "TS"),
        categorize_locals Corpus.no_cosine Corpus.db Corpus.rera_doc Corpus.ka_cats ∅
          (Db.filename_counts Corpus.db) (Some "KA") with
  | Ok L, Ok L' =>
      l_slug L = "dev_company_gst_pan" /\ l_final L == 0.85
      /\ l_rule_best L' = Some ("ts_rera_certificate", 0.85, "filename:rera")
      /\ map SourceOfTruth.slug Corpus.ka_cats
         = ["dev_company_tan"; "dev_company_gst_pan"; "ka_rera"]
      /\ l_slug L' = "ka_rera" /\ l_final L' == 0.765
      /\ l_rule_applied L'
         = Some {| rule_slug := "ts_rera_certificate"; rule_score := 0.765;
                   rule_reason := "filename:rera (partial)" |}
      /\ l_status L' = "accepted"
  | _, _ => False
  end.
Proof. vm_compute. repeat split; reflexivity. Qed.

End ResolverClaims.

(** ** C1: the GST certificate scenario *)

Section GstScenario.
Local Open Scope Q_scope.
Import Resolver.

Lemma gst_name_hint_hits : Rules.filename_hint_hits gst_name [] = gst_name_hits.
Proof. vm_compute. reflexivity. Qed.

Lemma gst_name_lower : Py.lower gst_name = "gst_certificate.pdf".
Proof. vm_compute. reflexivity. Qed.

Lemma gst_name_not_generic : Signals.is_generic_filename gst_name = false.
Proof. vm_compute. reflexivity. Qed.

Lemma gst_name_best :
  rule_best_of gst_name_hits = Some ("dev_company_gst_pan", 0.85, "filename:gst").
Proof. vm_compute. reflexivity. Qed.

Lemma bank_router_silent (text : string) (state : option string) :
  Re.found Rules.BANK_STMT_RX text = false -> Rules._bank_router text state = [].
Proof. intros H. unfold Rules._bank_router. rewrite H. reflexivity. Qed.

(** C1, as the code has it.  For a document named [GST_Certificate.pdf]
    whose name occurs once in the corpus, whose text window holds a GSTIN
    and no bank-statement marker, and with [dev_company_gst_pan] among the
    candidates: the rule engine returns exactly the four hits of the
    filename token "gst", each at 0.85 (below the cap 0.95); the first,
    [dev_company_gst_pan], is the best hit and is forced as the winner; the
    final score is the larger of the fused score and 0.85, so the status is
    "accepted"; the fusion weights are (0.40, 0.30, 0.30), the fused score
    being computed with the full filename weight. *)
Theorem gst_certificate_scenario :
  forall (cosine : list Q -> list Q -> Q) (db : Db.database) (doc_row : Db.doc_row)
         (cats : list SourceOfTruth.Category) (cat_vecs : gmap string (list Q))
         (fname_cnts : gmap string nat) (state : option string) (topk_show : nat)
         (chunks : list Db.chunk) (c : SourceOfTruth.Category),
    Db.document_name doc_row = gst_name ->
    Db.get_chunks db (Db.row_id doc_row) None = Ok chunks ->
    Re.found Rules.GSTIN_RX (full_text_of chunks) = true ->
    Re.found Rules.BANK_STMT_RX (full_text_of chunks) = false ->
    (default 0%nat (fname_cnts !! "gst_certificate.pdf") < 2)%nat ->
    In c cats -> SourceOfTruth.slug c = "dev_company_gst_pan" ->
    exists L,
      categorize_locals cosine db doc_row cats cat_vecs fname_cnts state = Ok L
      /\ categorize_document cosine db doc_row cats cat_vecs fname_cnts state topk_show
         = Ok (result_of doc_row topk_show L)
      /\ Rules.text_rule_hits Rules.TEXT_RULES (full_text_of chunks) [] = []
      /\ l_rule_hits L = gst_name_hits
      /\ l_rule_best L = Some ("dev_company_gst_pan", Py.min 0.95 0.85, "filename:gst")
      /\ Py.min 0.95 0.85 = 0.85
      /\ l_slug L = "dev_company_gst_pan"
      /\ SourceOfTruth.slug (l_cat L) = "dev_company_gst_pan" /\ In (l_cat L) cats
      /\ l_rule_applied L
         = Some {| rule_slug := "dev_company_gst_pan"; rule_score := Py.round 0.85 3;
                   rule_reason := "filename:gst" |}
      /\ l_weights L = (0.40, 0.30, 0.30)
      /\ l_fused L = Fuse.fuse_scores (fst (fst (l_parts L))) (snd (fst (l_parts L)))
                       (snd (l_parts L)) (0.40, 0.30, 0.30)
      /\ l_final L = Py.max (l_fused L) 0.85
      /\ 0.85 <= l_final L
      /\ l_status L = "accepted"
      /\ status (result_of doc_row topk_show L) = "accepted"
      /\ best_slug (result_of doc_row topk_show L) = "dev_company_gst_pan".
Proof.
  intros cosine db doc_row cats cat_vecs fname_cnts state topk_show chunks c
         Hname Hch Hgstin Hbank Hdup Hc Hslug.
  destruct (categorize_locals_total cosine db doc_row cats cat_vecs fname_cnts state chunks Hch)
    as [L HL].
  { intros ->. destruct Hc. }
  exists L. split; [exact HL|].
  split. { unfold categorize_document. rewrite HL. reflexivity. }
  pose proof HL as Hinv. apply categorize_locals_inv in Hinv
    as (chunks' & r0 & rest & Hch' & _ & Hhits & Hrb & Hdc & Hgen & Hw & Hsc & Hhd & Hfu
        & Hpa & Har & Hst).
  rewrite Hch in Hch'. injection Hch' as <-.
  rewrite Hname in *.
  pose proof (shipped_text_rules_silent (full_text_of chunks)) as Hsilent.
  pose proof (rules_two_layers (full_text_of chunks) gst_name state) as Hlayers.
  rewrite Hlayers, (bank_router_silent _ _ Hbank), gst_name_hint_hits in Hhits.
  cbn [app] in Hhits.
  rewrite Hhits, gst_name_best in Hrb.
  rewrite gst_name_not_generic in Hgen. rewrite gst_name_lower in Hdc.
  rewrite Hgen, Hdc in Hw.
  destruct (filename_weight_cases false (default 0%nat (fname_cnts !! "gst_certificate.pdf")))
    as (_ & _ & H40).
  rewrite (H40 eq_refl Hdup) in Hw.
  assert (Hin : In "dev_company_gst_pan" (map sc_slug (l_scored L))).
  { apply (Permutation_in _ (Permutation_sym
             (eq_ind_r (fun l => Permutation (map sc_slug l) _)
                       (score_all_slugs cosine _ _ _ _ _ _) Hsc))).
    rewrite <- Hslug. apply in_map. exact Hc. }
  destruct (apply_rule_found (l_scored L) "dev_company_gst_pan" "filename:gst"
              (sc_slug r0) 0.85 (sc_final r0) (sc_cat r0) Hin)
    as (r & Hr & Hrs & Hap).
  rewrite Hrb, Hap in Har. injection Har as Hs Hcat Hfin Hra.
  assert (Hrow : exists c', In c' cats /\ r = row_of cosine gst_name chunks
                   (Signals.doc_vector_mean chunks 8) cat_vecs (l_weights L) c').
  { rewrite Hsc in Hr. apply score_all_in in Hr. exact Hr. }
  destruct Hrow as (c' & Hc' & Hrc').
  assert (Hr0 : exists c0, In c0 cats /\ r0 = row_of cosine gst_name chunks
                   (Signals.doc_vector_mean chunks 8) cat_vecs (l_weights L) c0).
  { apply score_all_in. rewrite <- Hsc, Hhd. left. reflexivity. }
  destruct Hr0 as (c0 & _ & Hr0).
  assert (Hge : 0.85 <= l_final L) by (rewrite Hfin; apply py_max_ge_r).
  assert (Hacc : l_status L = "accepted").
  { rewrite Hst. apply status_of_cases. lra. }
  split; [exact Hsilent|].
  split; [exact Hhits|].
  split; [exact Hrb|].
  split; [reflexivity|].
  split; [exact Hs|].
  split. { rewrite Hcat, Hrc'. cbn. rewrite Hrc' in Hrs. exact Hrs. }
  split. { rewrite Hcat, Hrc'. exact Hc'. }
  split; [exact Hra|].
  split; [exact Hw|].
  split. { rewrite Hfu, Hpa, Hr0, <- Hw. reflexivity. }
  split. { rewrite Hfin, Hfu. reflexivity. }
  split; [exact Hge|].
  split; [exact Hacc|].
  split; [exact Hacc | exact Hs].
Qed.

(** The scenario on the corpus: a TS run over the document 7. *)
Lemma gst_certificate_scenario_witness :
  exists L,
    categorize_locals Corpus.no_cosine Corpus.db Corpus.gst_doc Corpus.cats ∅
      (Db.filename_counts Corpus.db) (Some "TS") = Ok L
    /\ l_slug L = "dev_company_gst_pan"
    /\ l_rule_best L = Some ("dev_company_gst_pan", 0.85, "filename:gst")
    /\ l_status L = "accepted".
Proof.
  destruct (gst_certificate_scenario Corpus.no_cosine Corpus.db Corpus.gst_doc Corpus.cats ∅
              (Db.filename_counts Corpus.db) (Some "TS") 3%nat
              [(1%Z, "GSTIN: 29ABCDE1234F1Z5", None)]
              (Corpus.category "dev_company_gst_pan" "GST and PAN" "developer_entity" None
                 ["gstin"; "pan"]))
    as (L & HL & _ & _ & _ & Hb & _ & Hs & _ & _ & _ & _ & _ & _ & _ & Hst & _).
  - reflexivity.
  - vm_compute. reflexivity.
  - vm_compute. reflexivity.
  - vm_compute. reflexivity.
  - vm_compute. lia.
  - right. left. reflexivity.
  - reflexivity.
  - exists L. auto.
Defined.

(** C1 as the specification words it fails: on the corpus document the GSTIN
    in the text yields no text-rule hit (its single detector scores 0.5),
    the hit for [dev_company_gst_pan] comes from the filename at 0.85, and
    no hit of the document is at the cap 0.95. *)
Lemma gst_certificate_hit_below_cap :
  Rules.rules_from_text_and_filename "GSTIN: 29ABCDE1234F1Z5" gst_name (Some "TS")
  = gst_name_hits
  /\ fst (Rules.local_score "GSTIN: 29ABCDE1234F1Z5" [Rules.GSTIN_RX]) == 0.5
  /\ Rules.text_rule_hits Rules.TEXT_RULES "GSTIN: 29ABCDE1234F1Z5" [] = []
  /\ existsb (fun h => Qeq_bool (Rules.hit_score h) 0.95)
       (Rules.rules_from_text_and_filename "GSTIN: 29ABCDE1234F1Z5" gst_name (Some "TS"))
     = false.
Proof. vm_compute. repeat split; reflexivity. Qed.

End GstScenario.

(** ** The matcher consumes what a pattern needs *)

Section MatcherFacts.
Import Re.

Lemma reaches_weaken {A : Type} (w w' : nat) (s s' : list ascii) (k : cont (A := A)) (a : A) :
  reaches w s k a -> w' + length s <= w + length s' -> reaches w' s' k a.
Proof. intros (p & t & cp & Hk & Hle) H. exists p, t, cp. split; [exact Hk | lia]. Qed.

Section Loops.
Context {A : Type}.
Variable step : option ascii -> list ascii -> caps -> cont (A := A) -> option A.
Hypothesis step_ok :
  forall prev s cp k a, step prev s cp k = Some a -> reaches 0 s k a.

Lemma star_loop_reaches (k : cont) (n : nat) :
  forall prev s cp a, star_loop step k n prev s cp = Some a -> reaches 0 s k a.
Proof.
  induction n as [|n IH]; intros prev s cp a H; simpl in H.
  - exists prev, s, cp. split; [exact H | lia].
  - destruct (step prev s cp _) as [a'|] eqn:E.
    + injection H as ->. apply step_ok in E as (p' & s' & cp' & Hk & Hle).
      destruct (length s' <? length s)%nat eqn:Hlt; [|discriminate].
      apply IH in Hk. apply (reaches_weaken _ _ _ _ _ _ Hk). simpl in *. lia.
    + exists prev, s, cp. split; [exact H | lia].
Qed.

Lemma lazy_loop_reaches (k : cont) (n : nat) :
  forall prev s cp a, lazy_loop step k n prev s cp = Some a -> reaches 0 s k a.
Proof.
  induction n as [|n IH]; intros prev s cp a H; simpl in H.
  - exists prev, s, cp. split; [exact H | lia].
  - destruct (k prev s cp) as [a'|] eqn:E.
    + injection H as ->. exists prev, s, cp. split; [exact E | lia].
    + apply step_ok in H as (p' & s' & cp' & Hk & Hle).
      destruct (length s' <? length s)%nat eqn:Hlt; [|discriminate].
      apply IH in Hk. apply (reaches_weaken _ _ _ _ _ _ Hk). simpl in *. lia.
Qed.
End Loops.

Lemma run_reaches (f : flags) (r : regex) :
  forall (A : Type) prev s cp (k : cont (A := A)) a,
    run f r prev s cp k = Some a -> reaches (min_width r) s k a.
Proof.
  induction r as [|cs| |r1 IH1 r2 IH2|r1 IH1 r2 IH2|r1 IH1|r1 IH1| | |i r1 IH1];
    intros A prev s cp k a H; cbn [run min_width] in *.
  - exists prev, s, cp. split; [exact H | lia].
  - destruct s as [|c s']; [discriminate|]. destruct (mem f c cs); [|discriminate].
    exists (Some c), s', cp. split; [exact H | simpl; lia].
  - destruct s as [|c s']; [discriminate|].
    destruct (DOTALL f || negb (Py.ascii_eqb c newline)); [|discriminate].
    exists (Some c), s', cp. split; [exact H | simpl; lia].
  - apply IH1 in H as (p1 & s1 & cp1 & H & Hle1).
    apply IH2 in H as (p2 & s2 & cp2 & H & Hle2).
    exists p2, s2, cp2. split; [exact H | lia].
  - destruct (run f r1 prev s cp k) as [a'|] eqn:E.
    + injection H as ->. apply IH1 in E. apply (reaches_weaken _ _ _ _ _ _ E). lia.
    + apply IH2 in H. apply (reaches_weaken _ _ _ _ _ _ H). lia.
  - apply (star_loop_reaches (run f r1)) in H; [exact H|].
    intros p t c k' a' H'. apply IH1 in H'. apply (reaches_weaken _ _ _ _ _ _ H'). lia.
  - apply (lazy_loop_reaches (run f r1)) in H; [exact H|].
    intros p t c k' a' H'. apply IH1 in H'. apply (reaches_weaken _ _ _ _ _ _ H'). lia.
  - destruct (xorb _ _); [|discriminate]. exists prev, s, cp. split; [exact H | lia].
  - destruct (at_eos f s); [|discriminate]. exists prev, s, cp. split; [exact H | lia].
  - apply IH1 in H as (p1 & s1 & cp1 & H & Hle1).
    exists p1, s1, ((i, take (length s - length s1) s) :: cp1). split; [exact H | lia].
Qed.

Lemma match_here_width (f : flags) (r : regex) prev s g0 cp :
  match_here f r prev s = Some (g0, cp) -> min_width r <= length g0.
Proof.
  unfold match_here. intros H. apply run_reaches in H as (p' & s' & cp' & H & Hle).
  injection H as <- _. rewrite length_take. lia.
Qed.

Lemma search_from_width (f : flags) (r : regex) s :
  forall prev pos m, search_from f r prev s pos = Some m -> min_width r <= length (m_group0 m).
Proof.
  induction s as [|c s IH]; intros prev pos m H; simpl in H.
  - destruct (match_here f r prev []) as [[g0 cp]|] eqn:E; [|discriminate].
    injection H as <-. apply (match_here_width _ _ _ _ _ _ E).
  - destruct (match_here f r prev (c :: s)) as [[g0 cp]|] eqn:E.
    + injection H as <-. apply (match_here_width _ _ _ _ _ _ E).
    + apply IH in H. exact H.
Qed.

Lemma str_length (l : list ascii) : String.length (Py.str l) = length l.
Proof. unfold Py.str. induction l as [|c l IH]; simpl; [reflexivity | rewrite IH; reflexivity]. Qed.

Lemma chars_str (l : list ascii) : Py.chars (Py.str l) = l.
Proof. apply list_ascii_of_string_of_list_ascii. Qed.

(** A match spans at least the least width of its pattern. *)
Lemma search_width (rx : compiled) (text : string) (m : match_obj) :
  search rx text = Some m -> min_width (ast rx) <= String.length (group0 m).
Proof.
  unfold search, group0. intros H. apply search_from_width in H.
  rewrite str_length. exact H.
Qed.

End MatcherFacts.

(** ** C8: the entity key *)

Section EntityKeyFacts.
Import Re EntityRoleInfer.

Lemma first_key_present (ks : list string) (f : gmap string string) :
  first_key ks f = option_map (fun kv => (fst kv ++ ":" ++ snd kv)%string) (first_present ks f).
Proof.
  induction ks as [|k ks IH]; simpl; [reflexivity|].
  unfold present. destruct (f !! k) as [v|]; [|exact IH].
  destruct (Py.truthy v); [reflexivity | exact IH].
Qed.

Lemma chars_length (s : string) : length (Py.chars s) = String.length s.
Proof. unfold Py.chars. induction s as [|c s IH]; simpl; [reflexivity | rewrite IH; reflexivity]. Qed.

Lemma truthy_length (s : string) : 1 <= String.length s -> Py.truthy s = true.
Proof. destruct s; simpl; [lia | reflexivity]. Qed.

Lemma slice_length (i j : nat) (s : string) :
  j <= String.length s -> String.length (Py.slice i j s) = j - i.
Proof.
  intros H. unfold Py.slice. rewrite str_length, length_take, length_drop, chars_length. lia.
Qed.

(** What [extract_facts] records under each key the entity key reads. *)
Lemma extract_facts_pan (text : string) :
  extract_facts text !! "pan"
  = match search Rules.PAN_RX text with
    | Some m => Some (group0 m)
    | None =>
        match search Rules.GSTIN_RX text with
        | Some g => if (12 <=? String.length (group0 g))%nat
                    then Some (Py.slice 2 12 (group0 g)) else None
        | None => None
        end
    end.
Proof.
  unfold extract_facts, set_if_found.
  destruct (search Rules.PAN_RX text), (search Rules.GSTIN_RX text),
    (search Rules.CIN_RX text), (search Rules.LLPIN_RX text), (search NAME_RX text);
    repeat (rewrite ?lookup_insert_eq, ?lookup_empty;
            try (rewrite lookup_insert_ne by discriminate));
    try reflexivity;
    destruct (12 <=? String.length _)%nat;
    repeat (rewrite ?lookup_insert_eq, ?lookup_empty;
            try (rewrite lookup_insert_ne by discriminate));
    reflexivity.
Qed.

End EntityKeyFacts.

Section EntityFactsMore.
Import Re EntityRoleInfer.

Ltac facts_lookup :=
  unfold extract_facts, set_if_found;
  destruct (search Rules.PAN_RX _), (search Rules.GSTIN_RX _),
    (search Rules.CIN_RX _), (search Rules.LLPIN_RX _), (search NAME_RX _);
  repeat (rewrite ?lookup_insert_eq, ?lookup_empty;
          try (rewrite lookup_insert_ne by discriminate));
  try reflexivity;
  try (destruct (12 <=? String.length _)%nat;
       repeat (rewrite ?lookup_insert_eq, ?lookup_empty;
               try (rewrite lookup_insert_ne by discriminate));
       reflexivity).

Lemma extract_facts_gstin (text : string) :
  extract_facts text !! "gstin" = option_map group0 (search Rules.GSTIN_RX text).
Proof. facts_lookup. Qed.

Lemma extract_facts_llpin (text : string) :
  extract_facts text !! "llpin" = option_map group0 (search Rules.LLPIN_RX text).
Proof. facts_lookup. Qed.

Lemma extract_facts_cin (text : string) :
  extract_facts text !! "cin" = option_map group0 (search Rules.CIN_RX text).
Proof. facts_lookup. Qed.

Lemma extract_facts_name_key (text : string) :
  extract_facts text !! "name_key"
  = option_map (fun m => norm_name (Py.strip (group 1 m))) (search NAME_RX text).
Proof. facts_lookup. Qed.

(** *** Clusters *)

Lemma extend_docs row slug c r : In r (docs (extend row slug c)) <-> In r (docs c) \/ r = row.
Proof.
  unfold extend. cbn [docs]. rewrite in_app_iff. cbn [In]. intuition auto.
Qed.

Lemma add_to_member key row fs slug cl k r :
  member (add_to key row fs slug cl) k r <-> member cl k r \/ (k = key /\ r = row).
Proof.
  induction cl as [|[k0 c0] cl IH]; cbn [add_to].
  - split.
    + intros (c & [[= <- <-]|[]] & Hr). apply extend_docs in Hr as [[]| ->]. auto.
    + intros [(c & [] & _)|[-> ->]]. eexists. split; [left; reflexivity|].
      apply extend_docs. auto.
  - destruct (String.eqb k0 key) eqn:E.
    + apply String.eqb_eq in E as ->. split.
      * intros (c & [[= <- <-]|Hc] & Hr).
        -- apply extend_docs in Hr as [Hr| ->]; [left|right; auto].
           exists c0. split; [left; reflexivity | exact Hr].
        -- left. exists c. split; [right; exact Hc | exact Hr].
      * intros [(c & [[= <- <-]|Hc] & Hr)|[-> ->]].
        -- eexists. split; [left; reflexivity|]. apply extend_docs. auto.
        -- exists c. split; [right; exact Hc | exact Hr].
        -- eexists. split; [left; reflexivity|]. apply extend_docs. auto.
    + split.
      * intros (c & [[= <- <-]|Hc] & Hr).
        -- left. exists c0. split; [left; reflexivity | exact Hr].
        -- assert (Hm : member (add_to key row fs slug cl) k r) by (exists c; auto).
           apply IH in Hm as [(c' & Hc' & Hr')|Hm]; [left|right; exact Hm].
           exists c'. split; [right; exact Hc' | exact Hr'].
      * intros [(c & [[= <- <-]|Hc] & Hr)|Hm].
        -- exists c0. split; [left; reflexivity | exact Hr].
        -- assert (Hm : member (add_to key row fs slug cl) k r).
           { apply IH. left. exists c. auto. }
           destruct Hm as (c' & Hc' & Hr'). exists c'. split; [right; exact Hc' | exact Hr'].
        -- assert (Hm' : member (add_to key row fs slug cl) k r) by (apply IH; auto).
           destruct Hm' as (c' & Hc' & Hr'). exists c'. split; [right; exact Hc' | exact Hr'].
Qed.

Lemma build_clusters_fold (infos : list doc_info) :
  build_clusters infos = fold_left cluster_step infos [].
Proof.
  unfold build_clusters. apply fold_left_ext. intros a [[[row key] fs] slug]. reflexivity.
Qed.

Lemma fold_clusters_member (infos : list doc_info) :
  forall cl k r,
    member (fold_left cluster_step infos cl) k r
    <-> member cl k r \/ exists fs slug, In (r, Some k, fs, slug) infos.
Proof.
  induction infos as [|[[[row key] fs] slug] infos IH]; intros cl k r; cbn [fold_left].
  - split; [auto|]. intros [H|(? & ? & [])]. exact H.
  - rewrite IH. cbn [cluster_step]. destruct key as [key|].
    + rewrite add_to_member. split.
      * intros [[H|[-> ->]]|(fs' & slug' & H)]; [auto| |].
        -- right. exists fs, slug. left. reflexivity.
        -- right. exists fs', slug'. right. exact H.
      * intros [H|(fs' & slug' & [[= -> -> -> ->]|H])]; [auto|auto|].
        right. exists fs', slug'. exact H.
    + split.
      * intros [H|(fs' & slug' & H)]; [auto|]. right. exists fs', slug'. right. exact H.
      * intros [H|(fs' & slug' & [[=]|H])]; [auto|]. right. exists fs', slug'. exact H.
Qed.

(** The members of the clusters are the documents that have a key. *)
Lemma build_clusters_member (infos : list doc_info) (k : string) (r : Db.doc_row) :
  member (build_clusters infos) k r <-> exists fs slug, In (r, Some k, fs, slug) infos.
Proof.
  rewrite build_clusters_fold, fold_clusters_member. split; [|auto].
  intros [(c & [] & _)|H]. exact H.
Qed.

Lemma add_to_keys key row fs slug cl :
  map fst (add_to key row fs slug cl)
  = if existsb (fun k => String.eqb k key) (map fst cl) then map fst cl
    else map fst cl ++ [key].
Proof.
  induction cl as [|[k0 c0] cl IH]; cbn [add_to map fst existsb app]; [reflexivity|].
  destruct (String.eqb k0 key) eqn:E; cbn [orb map fst]; [reflexivity|].
  rewrite IH. destruct (existsb _ _); reflexivity.
Qed.

Lemma add_to_nodup key row fs slug cl :
  NoDup (map fst cl) -> NoDup (map fst (add_to key row fs slug cl)).
Proof.
  intros H. rewrite add_to_keys.
  destruct (existsb (fun k => String.eqb k key) (map fst cl)) eqn:E; [exact H|].
  apply NoDup_app. split; [exact H|]. split; [|repeat constructor; intros []%elem_of_nil].
  intros k Hk Hk'. apply list_elem_of_In in Hk, Hk'. destruct Hk' as [<-|[]].
  assert (Hex : existsb (fun k => String.eqb k key) (map fst cl) = true).
  { apply existsb_exists. exists key. split; [exact Hk | apply String.eqb_refl]. }
  congruence.
Qed.

(** A dict: no key twice. *)
Lemma build_clusters_nodup (infos : list doc_info) : NoDup (map fst (build_clusters infos)).
Proof.
  rewrite build_clusters_fold.
  assert (H : forall cl, NoDup (map fst cl) -> NoDup (map fst (fold_left cluster_step infos cl))).
  { induction infos as [|[[[row key] fs] slug] infos IH]; intros cl Hcl; cbn [fold_left];
      [exact Hcl|].
    apply IH. destruct key as [key|]; cbn [cluster_step]; [apply add_to_nodup|]; exact Hcl. }
  apply H. constructor.
Qed.

End EntityFactsMore.


Section EntityClaims.
Import Re EntityRoleInfer.

Lemma pan_width : min_width (ast Rules.PAN_RX) = 10.
Proof. reflexivity. Qed.

Lemma gstin_width : min_width (ast Rules.GSTIN_RX) = 15.
Proof. reflexivity. Qed.

Lemma entity_key_pan (f : gmap string string) (p : string) :
  f !! "pan" = Some p -> 1 <= String.length p -> entity_key f = Some ("pan:" ++ p)%string.
Proof.
  intros Hp Hlen. unfold entity_key, KEY_ORDER. cbn [first_key].
  rewrite Hp, (truthy_length _ Hlen). reflexivity.
Qed.

(** C8.  The entity key is the first present (there and not empty)
    identifier in the order PAN, GSTIN, LLPIN, CIN, normalized name.  A PAN
    matched in the text is the key, also when a GSTIN is matched too; the
    PAN taken from characters 3 to 12 of the GSTIN is the key only when no
    PAN was matched.  With no identifier matched there is no key, and the
    documents clustered are exactly those with a key. *)
Theorem entity_key_priority :
  forall (text : string) (f : gmap string string) (infos : list doc_info),
    KEY_ORDER = ["pan"; "gstin"; "llpin"; "cin"; "name_key"]
    /\ entity_key f
       = option_map (fun kv => (fst kv ++ ":" ++ snd kv)%string) (first_present KEY_ORDER f)
    /\ (forall m, search Rules.PAN_RX text = Some m ->
          entity_key (extract_facts text) = Some ("pan:" ++ group0 m)%string)
    /\ (forall g, search Rules.PAN_RX text = None -> search Rules.GSTIN_RX text = Some g ->
          entity_key (extract_facts text) = Some ("pan:" ++ Py.slice 2 12 (group0 g))%string)
    /\ (forall p, extract_facts text !! "pan" = Some p ->
          (exists m, search Rules.PAN_RX text = Some m /\ p = group0 m)
          \/ (search Rules.PAN_RX text = None
              /\ exists g, search Rules.GSTIN_RX text = Some g
                           /\ p = Py.slice 2 12 (group0 g)))
    /\ (search Rules.PAN_RX text = None -> search Rules.GSTIN_RX text = None ->
        search Rules.LLPIN_RX text = None -> search Rules.CIN_RX text = None ->
        search NAME_RX text = None ->
        entity_key (extract_facts text) = None)
    /\ (forall k r, member (build_clusters infos) k r
                    <-> exists fs slug, In (r, Some k, fs, slug) infos)
    /\ entity_key (extract_facts "GSTIN: 29ABCDE1234F1Z5, PAN: ZZZZZ9999Z")
       = Some "pan:ZZZZZ9999Z"
    /\ entity_key (extract_facts "GSTIN: 29ABCDE1234F1Z5") = Some "pan:ABCDE1234F".
Proof.
  intros text f infos.
  split; [reflexivity|].
  split; [apply first_key_present|].
  split.
  { intros m Hm. apply entity_key_pan.
    - rewrite extract_facts_pan, Hm. reflexivity.
    - pose proof (search_width _ _ _ Hm) as Hw. rewrite pan_width in Hw. lia. }
  split.
  { intros g Hp Hg. pose proof (search_width _ _ _ Hg) as Hw. rewrite gstin_width in Hw.
    apply entity_key_pan.
    - rewrite extract_facts_pan, Hp, Hg.
      destruct (12 <=? String.length (group0 g))%nat eqn:E; [reflexivity|].
      apply Nat.leb_gt in E. lia.
    - rewrite slice_length; lia. }
  split.
  { intros p. rewrite extract_facts_pan.
    destruct (search Rules.PAN_RX text) as [m|].
    - intros [= <-]. left. eauto.
    - destruct (search Rules.GSTIN_RX text) as [g|]; [|discriminate].
      destruct (12 <=? String.length (group0 g))%nat; [|discriminate].
      intros [= <-]. right. eauto. }
  split.
  { intros Hp Hg Hl Hc Hn. unfold entity_key, KEY_ORDER. cbn [first_key].
    rewrite extract_facts_pan, extract_facts_gstin, extract_facts_llpin, extract_facts_cin,
      extract_facts_name_key, Hp, Hg, Hl, Hc, Hn.
    reflexivity. }
  split; [apply build_clusters_member|].
  split; vm_compute; reflexivity.
Qed.

(** *** Roles *)

Lemma key_lt_false (x y : scored_entry) :
  key_lt x y = false <->
  (se_dev y < se_dev x \/ (se_dev y = se_dev x /\ se_group y <= se_group x)).
Proof.
  unfold key_lt.
  destruct (se_dev x <? se_dev y)%nat eqn:E1; cbn [orb].
  - apply Nat.ltb_lt in E1. split; [discriminate | lia].
  - apply Nat.ltb_ge in E1.
    destruct (se_dev x =? se_dev y)%nat eqn:E2; cbn [andb].
    + apply Nat.eqb_eq in E2.
      destruct (se_group x <? se_group y)%nat eqn:E3.
      * apply Nat.ltb_lt in E3. split; [discriminate | lia].
      * apply Nat.ltb_ge in E3. split; [lia | reflexivity].
    + apply Nat.eqb_neq in E2. split; [lia | reflexivity].
Qed.

Lemma key_lt_true (x y : scored_entry) :
  key_lt x y = true <->
  (se_dev x < se_dev y \/ (se_dev x = se_dev y /\ se_group x < se_group y)).
Proof.
  destruct (key_lt x y) eqn:E.
  - split; [intros _|reflexivity].
    destruct (key_lt_false x y) as [_ H].
    destruct (lt_dec (se_dev x) (se_dev y)); [auto|].
    destruct (Nat.eq_dec (se_dev x) (se_dev y)) as [Heq|]; [|assert (false = true)
      by (rewrite <- E; symmetry; apply H; lia); discriminate].
    destruct (lt_dec (se_group x) (se_group y)); [auto|].
    assert (false = true) by (rewrite <- E; symmetry; apply H; lia). discriminate.
  - apply key_lt_false in E. split; [discriminate | lia].
Qed.

Lemma sorted_scored_perm (clusters : list (string * cluster)) :
  Permutation (sorted_scored clusters) (score_clusters clusters).
Proof. apply sort_desc_perm. Qed.

Lemma score_clusters_keys (clusters : list (string * cluster)) :
  map se_key (score_clusters clusters) = map fst clusters.
Proof.
  unfold score_clusters. rewrite map_map. apply map_ext.
  intros [k c]. destruct (score_role (features c)). reflexivity.
Qed.

Lemma sorted_scored_nodup (infos : list doc_info) :
  NoDup (map se_key (sorted_scored (build_clusters infos))).
Proof.
  rewrite sorted_scored_perm, score_clusters_keys. apply build_clusters_nodup.
Qed.

Lemma sorted_scored_sorted (clusters : list (string * cluster)) :
  StronglySorted (fun a b => key_lt a b = false) (sorted_scored clusters).
Proof.
  apply sort_desc_sorted.
  - intros x y z. rewrite !key_lt_false. lia.
  - intros x y. rewrite key_lt_true, key_lt_false. lia.
Qed.

Lemma sorted_scored_desc (clusters : list (string * cluster)) :
  StronglySorted
    (fun a b => se_dev b < se_dev a \/ (se_dev b = se_dev a /\ se_group b <= se_group a))
    (sorted_scored clusters).
Proof.
  generalize (sorted_scored_sorted clusters). generalize (sorted_scored clusters) as l.
  induction 1 as [|a l Hs IH Hall]; constructor; [exact IH|].
  eapply List.Forall_impl; [|exact Hall]. intros b. apply key_lt_false.
Qed.

(** With distinct keys the role goes by position. *)
Lemma role_by_position (scored : list scored_entry) :
  NoDup (map se_key scored) ->
  forall i e, scored !! i = Some e ->
    role_of scored (se_key e)
    = match i with
      | 0 => "developer_entity"
      | 1 => "group_entity"
      | _ => "other_entity"
      end.
Proof.
  intros Hnd i e He. destruct scored as [|e0 rest]; [discriminate|].
  cbn [role_of]. cbn [map] in Hnd. apply NoDup_cons in Hnd as [Hn0 Hnd].
  destruct i as [|i]; cbn in He.
  - injection He as <-. rewrite String.eqb_refl. reflexivity.
  - assert (Hin : se_key e ∈ map se_key rest).
    { apply list_elem_of_fmap. exists e. split; [reflexivity|].
      apply list_elem_of_lookup. eauto. }
    assert (Hne0 : String.eqb (se_key e) (se_key e0) = false).
    { apply String.eqb_neq. intros Heq. rewrite Heq in Hin. contradiction. }
    rewrite Hne0. destruct rest as [|e1 rest]; [discriminate|].
    cbn [map] in Hnd. apply NoDup_cons in Hnd as [Hn1 _].
    destruct i as [|i]; cbn in He.
    + injection He as <-. rewrite String.eqb_refl. reflexivity.
    + assert (Hin1 : se_key e ∈ map se_key rest).
      { apply list_elem_of_fmap. exists e. split; [reflexivity|].
        apply list_elem_of_lookup. eauto. }
      assert (Hne1 : String.eqb (se_key e) (se_key e1) = false).
      { apply String.eqb_neq. intros Heq. rewrite Heq in Hin1. contradiction. }
      rewrite Hne1. reflexivity.
Qed.

(** C9.  The clusters are sorted in descending order of the pair
    (developer score, group score); the first is the developer entity, the
    second, if any, the group entity, every further one an other entity.
    On the corpus with clusters of developer scores 4, 1 and 10 the one with
    10 is the developer entity, the one with 4 the group entity and the
    third an other entity. *)
Theorem role_assignment :
  forall (infos : list doc_info),
    let scored := sorted_scored (build_clusters infos) in
    Permutation scored (score_clusters (build_clusters infos))
    /\ (forall e, In e scored ->
          (se_dev e, se_group e) = score_role (features (se_cluster e))
          /\ In (se_key e, se_cluster e) (build_clusters infos))
    /\ StronglySorted
         (fun a b => se_dev b < se_dev a
                     \/ (se_dev b = se_dev a /\ se_group b <= se_group a))
         scored
    /\ NoDup (map se_key scored)
    /\ (forall i e, scored !! i = Some e ->
          role_of scored (se_key e)
          = match i with
            | 0 => "developer_entity"
            | 1 => "group_entity"
            | _ => "other_entity"
            end)
    /\ (forall a b rest, scored = a :: b :: rest ->
          role_of scored (se_key a) = "developer_entity"
          /\ role_of scored (se_key b) = "group_entity"
          /\ Forall (fun e => role_of scored (se_key e) = "other_entity") rest)
    /\ match run_events "TS" false Entities.db with
       | Ok evs =>
           printed_roles evs
           = [ ("developer_entity", "pan:AAAAA1111A", 10, 0);
               ("group_entity", "pan:BBBBB2222B", 4, 0);
               ("other_entity", "pan:CCCCC3333C", 1, 1) ]
       | Err _ => False
       end.
Proof.
  intros infos scored.
  assert (Hpos := role_by_position scored (sorted_scored_nodup infos)).
  split; [apply sorted_scored_perm|].
  split.
  { intros e He. apply (Permutation_in _ (sorted_scored_perm _)) in He.
    unfold score_clusters in He. apply in_map_iff in He as [[k c] [<- Hkc]].
    destruct (score_role (features c)) as [dv gr] eqn:E. cbn. rewrite E. auto. }
  split.
  { apply sorted_scored_desc. }
  split; [apply sorted_scored_nodup|].
  split; [exact Hpos|].
  split.
  { intros a b rest Heq.
    split; [apply (Hpos 0 a); rewrite Heq; reflexivity|].
    split; [apply (Hpos 1 b); rewrite Heq; reflexivity|].
    apply List.Forall_forall. intros e He. apply list_elem_of_In in He.
    apply list_elem_of_lookup in He as [n Hn].
    apply (Hpos (S (S n)) e). rewrite Heq. exact Hn. }
  vm_compute. reflexivity.
Qed.

End EntityClaims.

(** ** C7: the apply flag of the role inference *)

Section ApplyFlag.
Import EntityRoleInfer.

Lemma collect_info_rows (db : Db.database) (rows : list Db.doc_row) :
  forall infos, collect_info db rows = Ok infos -> map info_row infos = rows.
Proof.
  induction rows as [|row rows IH]; intros infos H; cbn [collect_info] in H.
  - injection H as <-. reflexivity.
  - unfold info_of in H.
    destruct (Db.get_chunks db (Db.row_id row) None) as [chunks|e]; [|discriminate].
    cbn [bind] in H.
    destruct (collect_info db rows) as [more|e]; [|discriminate].
    cbn [bind] in H. injection H as <-. cbn [map]. rewrite (IH more eq_refl). reflexivity.
Qed.

Lemma keyed_in_scored (infos : list doc_info) row k fs slug :
  In (row, Some k, fs, slug) infos ->
  exists e, In e (sorted_scored (build_clusters infos))
            /\ se_key e = k /\ In row (docs (se_cluster e)).
Proof.
  intros Hin.
  assert (Hm : member (build_clusters infos) k row) by (apply build_clusters_member; eauto).
  destruct Hm as (c & Hc & Hr).
  destruct (score_role (features c)) as [dv gr] eqn:E.
  exists (k, dv, gr, org_variant_from_slugs (slugs c), c).
  split; [|auto].
  apply (Permutation_in _ (Permutation_sym (sorted_scored_perm _))).
  unfold score_clusters. apply in_map_iff. exists (k, c). rewrite E. auto.
Qed.

(** C7.  [run] does not consult [apply]: its events, and the store it
    leaves, are the same for both values.  Whenever the chunks of every
    document can be read, the run calls [update_match] for every document
    of every cluster, with the role and the organization variant of the
    cluster; every document with an entity key is in a cluster.  On the
    corpus of three entities a run with [apply] false changes the stored
    top-level class of the eight documents that have a key. *)
Theorem role_inference_ignores_apply :
  forall (state : string) (db : Db.database),
    run_events state true db = run_events state false db
    /\ run state true db = run state false db
    /\ (forall infos,
          collect_info db (Db.get_documents db None None) = Ok infos ->
          map info_row infos = Db.get_documents db None None
          /\ exists evs,
               run_events state false db = Ok evs
               /\ (forall e row,
                     In e (sorted_scored (build_clusters infos)) ->
                     In row (docs (se_cluster e)) ->
                     In (Update (write_back
                                   (role_of (sorted_scored (build_clusters infos)) (se_key e))
                                   (se_variant e) row))
                        evs)
               /\ (forall row k fs slug,
                     In (row, Some k, fs, slug) infos ->
                     exists e, In e (sorted_scored (build_clusters infos))
                               /\ se_key e = k /\ In row (docs (se_cluster e))))
    /\ map Db.top_entity (Db.documents Entities.db) = repeat None 9
    /\ match run "TS" false Entities.db with
       | Ok (db', _) =>
           map (fun r => (Db.row_id r, Db.top_entity r)) (Db.documents db')
           = [ (1%Z, Some "group_entity"); (2%Z, Some "group_entity");
               (3%Z, Some "other_entity");
               (4%Z, Some "developer_entity"); (5%Z, Some "developer_entity");
               (6%Z, Some "developer_entity"); (7%Z, Some "developer_entity");
               (8%Z, Some "developer_entity"); (9%Z, None) ]
       | Err _ => False
       end.
Proof.
  intros state db.
  split; [reflexivity|].
  split; [reflexivity|].
  split.
  { intros infos Hinfos.
    split; [apply (collect_info_rows _ _ _ Hinfos)|].
    unfold run_events. rewrite Hinfos. cbn [bind].
    destruct (build_clusters infos) as [|kc cl] eqn:Hcl.
    - exists [PrintNothingToAssign]. split; [reflexivity|].
      split.
      + intros e row []. 
      + intros row k fs slug Hin.
        destruct (keyed_in_scored infos row k fs slug Hin) as (e & He & _).
        rewrite Hcl in He. destruct He.
    - eexists. split; [reflexivity|].
      split.
      + intros e row He Hrow. apply in_flat_map. exists e. split; [exact He|].
        apply in_or_app. left. apply in_map_iff. exists row. auto.
      + intros row k fs slug Hin. rewrite <- Hcl. apply (keyed_in_scored _ _ _ _ _ Hin). }
  split; vm_compute; reflexivity.
Qed.

End ApplyFlag.

(** ** The similarity metrics stay within 0..100 *)

Section FuzzFacts.
Import Fuzz.

Lemma lcs_row_le (x : ascii) (b : list ascii) :
  forall prev diag left i,
    Forall (fun p => p <= i) prev -> diag <= i -> left <= S i ->
    Forall (fun p => p <= S i) (lcs_row x b prev diag left).
Proof.
  induction b as [|y b IH]; intros prev diag left i Hprev Hd Hl; cbn [lcs_row];
    [constructor|].
  destruct prev as [|p prev]; [constructor|].
  apply Forall_cons in Hprev as [Hp Hprev].
  assert (Hcur : (if Py.ascii_eqb x y then S diag else Nat.max p left) <= S i)
    by (destruct (Py.ascii_eqb x y); lia).
  constructor; [exact Hcur|]. apply IH; [exact Hprev | exact Hp | exact Hcur].
Qed.

Lemma lcs_rows_le (b : list ascii) (a : list ascii) :
  forall row i,
    Forall (fun p => p <= i) row ->
    Forall (fun p => p <= i + length a)
           (fold_left (fun row x => lcs_row x b row 0 0) a row).
Proof.
  induction a as [|x a IH]; intros row i Hrow; cbn [fold_left length].
  - rewrite Nat.add_0_r. exact Hrow.
  - replace (i + S (length a)) with (S i + length a) by lia.
    apply IH. apply lcs_row_le; [exact Hrow | lia | lia].
Qed.

Lemma last_Forall {A : Type} (P : A -> Prop) (l : list A) (d : A) :
  Forall P l -> P d -> P (List.last l d).
Proof.
  intros Hl Hd. induction Hl as [|x l Hx Hl IH]; [exact Hd|].
  destruct l; [exact Hx | exact IH].
Qed.

Lemma lcs_le_l (a b : list ascii) : lcs a b <= length a.
Proof.
  unfold lcs. apply (last_Forall (fun p => p <= length a)); [|lia].
  apply (lcs_rows_le b a _ 0). apply Forall_forall. intros p Hp.
  apply list_elem_of_In, repeat_spec in Hp. lia.
Qed.

Lemma bounded_tail off p row : bounded off (p :: row) -> bounded (S off) row.
Proof. intros H j q Hq. specialize (H (S j) q Hq). lia. Qed.

Lemma lcs_row_bounded (x : ascii) (b : list ascii) :
  forall prev diag left off,
    bounded off prev -> diag <= off -> left <= off ->
    bounded off (lcs_row x b prev diag left).
Proof.
  induction b as [|y b IH]; intros prev diag left off Hprev Hd Hl; cbn [lcs_row].
  - intros j p Hp. discriminate.
  - destruct prev as [|p prev]; [intros j q Hq; discriminate|].
    assert (Hp : p <= S off) by (specialize (Hprev 0 p eq_refl); lia).
    assert (Hcur : (if Py.ascii_eqb x y then S diag else Nat.max p left) <= S off)
      by (destruct (Py.ascii_eqb x y); lia).
    intros [|j] q Hq; cbn in Hq.
    + injection Hq as <-. lia.
    + apply (IH prev p _ (S off)) in Hq; [lia | | exact Hp | exact Hcur].
      apply (bounded_tail _ p). exact Hprev.
Qed.

Lemma lcs_row_length (x : ascii) (b : list ascii) :
  forall prev diag left, length (lcs_row x b prev diag left) <= length b.
Proof.
  induction b as [|y b IH]; intros prev diag left; cbn [lcs_row length]; [lia|].
  destruct prev as [|p prev]; cbn [length]; [lia|]. specialize (IH prev p
    (if Py.ascii_eqb x y then S diag else Nat.max p left)). lia.
Qed.

Lemma lcs_rows_bounded (b : list ascii) (a : list ascii) :
  forall row,
    bounded 0 row -> length row <= length b ->
    bounded 0 (fold_left (fun row x => lcs_row x b row 0 0) a row)
    /\ length (fold_left (fun row x => lcs_row x b row 0 0) a row) <= length b.
Proof.
  induction a as [|x a IH]; intros row Hrow Hlen; cbn [fold_left]; [auto|].
  apply IH; [apply lcs_row_bounded; [exact Hrow | lia | lia] | apply lcs_row_length].
Qed.

Lemma last_bounded (row : list nat) :
  forall off, bounded off row -> List.last row 0 <= off + length row.
Proof.
  induction row as [|p row IH]; intros off H; [cbn; lia|].
  destruct row as [|q row].
  - specialize (H 0 p eq_refl). cbn. lia.
  - change (List.last (p :: q :: row) 0) with (List.last (q :: row) 0).
    specialize (IH (S off) (bounded_tail _ _ _ H)). cbn [length] in *. lia.
Qed.

Lemma lcs_le_r (a b : list ascii) : lcs a b <= length b.
Proof.
  unfold lcs.
  destruct (lcs_rows_bounded b a (repeat 0 (length b))) as [Hb Hl].
  - intros j p Hp. apply list_elem_of_lookup_2, list_elem_of_In, repeat_spec in Hp. lia.
  - rewrite repeat_length. lia.
  - pose proof (last_bounded _ 0 Hb). lia.
Qed.

End FuzzFacts.

Section FuzzRange.
Import Fuzz.
Local Open Scope Q_scope.

Lemma percent_0 : percent 0.
Proof. split; lra. Qed.

Lemma percent_100 : percent 100.
Proof. split; lra. Qed.

Lemma ratio_chars_percent (a b : list ascii) : percent (ratio_chars a b).
Proof.
  unfold ratio_chars.
  destruct (Nat.eqb (length a + length b) 0) eqn:E; [apply percent_100|].
  apply Nat.eqb_neq in E.
  pose proof (lcs_le_l a b) as Hl. pose proof (lcs_le_r a b) as Hr.
  unfold percent, Qle. cbn [Qnum Qden].
  assert (Hpos : Z.pos (Pos.of_nat (length a + length b)) = Z.of_nat (length a + length b)).
  { rewrite <- (Nat2Pos.id (length a + length b)) at 2 by exact E.
    symmetry. apply positive_nat_Z. }
  rewrite Hpos. split; lia.
Qed.

Lemma best_from_percent (l : list Q) :
  forall acc, percent acc -> Forall percent l -> percent (fold_left Py.max l acc).
Proof.
  induction l as [|q l IH]; intros acc Hacc Hl; cbn [fold_left]; [exact Hacc|].
  apply Forall_cons in Hl as [Hq Hl]. apply IH; [|exact Hl].
  apply py_max_bounds; assumption.
Qed.

Lemma best_percent (l : list Q) : Forall percent l -> percent (best l).
Proof. apply best_from_percent, percent_0. Qed.

Lemma partial_impl_percent (a b : list ascii) : percent (partial_impl a b).
Proof.
  unfold partial_impl. apply best_percent. apply Forall_forall. intros q Hq.
  apply list_elem_of_fmap in Hq as [w [-> _]]. apply ratio_chars_percent.
Qed.

Lemma partial_ratio_percent (s1 s2 : string) : percent (partial_ratio s1 s2).
Proof.
  unfold partial_ratio.
  destruct (Py.chars s1) as [|x a], (Py.chars s2) as [|y b];
    try apply percent_100; try apply percent_0.
  destruct (length (x :: a) <? length (y :: b))%nat; [apply partial_impl_percent|].
  destruct (length (y :: b) <? length (x :: a))%nat; [apply partial_impl_percent|].
  apply py_max_bounds; apply partial_impl_percent.
Qed.

Lemma ratio_percent (s1 s2 : string) : percent (ratio s1 s2).
Proof. apply ratio_chars_percent. Qed.

Lemma QRatio_percent (s1 s2 : string) : percent (QRatio s1 s2).
Proof.
  unfold QRatio. destruct (negb (Py.truthy s1) || negb (Py.truthy s2));
    [apply percent_0 | apply ratio_percent].
Qed.

Lemma token_set_ratio_percent (s1 s2 : string) : percent (token_set_ratio s1 s2).
Proof.
  unfold token_set_ratio.
  destruct (negb (Py.truthy s1) || negb (Py.truthy s2)); [apply percent_0|].
  destruct (dedup_str (split s1)) as [|ta tas]; [apply percent_0|].
  destruct (dedup_str (split s2)) as [|tb tbs]; [apply percent_0|].
  destruct (inter_str (ta :: tas) (tb :: tbs)); [apply ratio_percent|].
  destruct (diff_str (ta :: tas) (tb :: tbs)); [apply percent_100|].
  destruct (diff_str (tb :: tbs) (ta :: tas)); [apply percent_100|].
  apply best_percent. repeat constructor; apply ratio_percent.
Qed.

(** The best metric over the candidate names. *)
Lemma score_filename_percent (base : string) (names : list string) :
  forall acc, percent acc ->
    percent (fold_left
               (fun best cand =>
                  Py.max (Py.max (Py.max best (token_set_ratio base cand))
                                 (partial_ratio base cand))
                         (QRatio base cand))
               names acc).
Proof.
  induction names as [|cand names IH]; intros acc Hacc; cbn [fold_left]; [exact Hacc|].
  apply IH. repeat apply py_max_bounds; try exact Hacc.
  - apply token_set_ratio_percent.
  - apply partial_ratio_percent.
  - apply QRatio_percent.
Qed.

Lemma score_filename_range (file_name : string) (cat : SourceOfTruth.Category) :
  0 <= Signals.score_filename file_name cat /\ Signals.score_filename file_name cat <= 1.
Proof.
  unfold Signals.score_filename.
  match goal with |- context [fold_left ?f ?l 0] =>
    pose proof (score_filename_percent
                  (Re.sub Rules.EXT_RX "" (Py.lower (Py.rsplit_slash_last file_name)))
                  l 0 percent_0) as [H0 H100];
    set (b := fold_left f l 0) in *
  end.
  split.
  - apply Qle_shift_div_l; lra.
  - apply Qle_shift_div_r; lra.
Qed.

End FuzzRange.

Section FuzzIdentity.
Import Fuzz.
Local Open Scope Q_scope.

Lemma ascii_eqb_refl (x : ascii) : Py.ascii_eqb x x = true.
Proof. apply Ascii.eqb_refl. Qed.

Lemma lcs_row_len (x : ascii) (b : list ascii) :
  forall prev diag left,
    length (lcs_row x b prev diag left) = Nat.min (length b) (length prev).
Proof.
  induction b as [|y b IH]; intros prev diag left; cbn [lcs_row length]; [reflexivity|].
  destruct prev as [|p prev]; cbn [length]; [reflexivity|]. rewrite IH. reflexivity.
Qed.

(** Where the character of the row equals that of the column, the entry is
    one more than the entry above-left. *)
Lemma lcs_row_hit (x : ascii) (b : list ascii) :
  forall prev diag left j,
    b !! j = Some x -> (j < length prev)%nat ->
    lcs_row x b prev diag left !! j
    = Some (S (match j with O => diag | S j' => default 0%nat (prev !! j') end)).
Proof.
  induction b as [|y b IH]; intros prev diag left j Hb Hj; [discriminate|].
  destruct prev as [|p prev]; [cbn in Hj; lia|].
  cbn [lcs_row]. destruct j as [|j]; cbn in Hb.
  - injection Hb as ->. rewrite ascii_eqb_refl. reflexivity.
  - cbn [length] in Hj. cbn [lookup list_lookup].
    rewrite (IH prev p _ j Hb ltac:(lia)). destruct j; reflexivity.
Qed.

Lemma lcs_diagonal (b : list ascii) (a : list ascii) :
  forall rest, b = a ++ rest ->
    let row := fold_left (fun row x => lcs_row x b row 0%nat 0%nat) a (repeat 0%nat (length b)) in
    length row = length b
    /\ (a <> [] -> row !! (length a - 1)%nat = Some (length a)).
Proof.
  induction a as [|x a IH] using rev_ind; intros rest Hb row.
  - subst row. cbn [fold_left]. rewrite repeat_length. split; [reflexivity | congruence].
  - rewrite <- app_assoc in Hb. cbn [app] in Hb.
    destruct (IH (x :: rest) Hb) as [Hlen Hdiag].
    subst row. rewrite fold_left_app. cbn [fold_left].
    set (prev := fold_left _ a _) in *.
    split; [rewrite lcs_row_len, Hlen; lia|]. intros _.
    assert (Hx : b !! length a = Some x).
    { rewrite Hb. rewrite lookup_app_r by lia. rewrite Nat.sub_diag. reflexivity. }
    assert (Hj : (length a < length prev)%nat).
    { rewrite Hlen, Hb, length_app. cbn [length]. lia. }
    rewrite length_app. cbn [length]. replace (length a + 1 - 1)%nat with (length a) by lia.
    rewrite (lcs_row_hit x b prev 0%nat 0%nat (length a) Hx Hj).
    destruct a as [|y a'] eqn:Ea.
    + reflexivity.
    + rewrite <- Ea in *. assert (Hne : a <> []) by (rewrite Ea; discriminate).
      specialize (Hdiag Hne). destruct (length a) as [|n] eqn:En.
      * rewrite Ea in En. discriminate.
      * replace (S n - 1)%nat with n in Hdiag by lia. rewrite Hdiag. cbn. f_equal. lia.
Qed.

Lemma last_lookup {A : Type} (l : list A) (d v : A) :
  l !! (length l - 1)%nat = Some v -> List.last l d = v.
Proof.
  induction l as [|x l IH]; [discriminate|].
  destruct l as [|y l].
  - cbn. congruence.
  - intros H. change (List.last (x :: y :: l) d) with (List.last (y :: l) d).
    apply IH. cbn [length] in *. replace (S (S (length l)) - 1)%nat with (S (length l)) in H by lia.
    replace (S (length l) - 1)%nat with (length l) by lia. exact H.
Qed.

(** A string is its own longest common subsequence. *)
Lemma lcs_self (a : list ascii) : lcs a a = length a.
Proof.
  destruct a as [|x a'] eqn:E; [reflexivity|]. rewrite <- E.
  destruct (lcs_diagonal a a [] ltac:(symmetry; apply app_nil_r)) as [Hlen Hdiag].
  unfold lcs. apply last_lookup. rewrite Hlen. apply Hdiag. rewrite E. discriminate.
Qed.

Lemma ratio_chars_self (a : list ascii) : ratio_chars a a == 100.
Proof.
  unfold ratio_chars. destruct (Nat.eqb (length a + length a) 0) eqn:E; [reflexivity|].
  apply Nat.eqb_neq in E. rewrite lcs_self. unfold Qeq. cbn [Qnum Qden].
  assert (Hpos : Z.pos (Pos.of_nat (length a + length a)) = Z.of_nat (length a + length a)).
  { rewrite <- (Nat2Pos.id (length a + length a)) at 2 by exact E.
    symmetry. apply positive_nat_Z. }
  rewrite Hpos. lia.
Qed.

Lemma QRatio_self (s : string) : Py.truthy s = true -> QRatio s s == 100.
Proof. intros H. unfold QRatio. rewrite H. cbn [negb orb]. apply ratio_chars_self. Qed.

Lemma dedup_str_in (l : list string) (x : string) : In x (dedup_str l) <-> In x l.
Proof.
  induction l as [|y l IH]; [reflexivity|]. cbn [dedup_str].
  destruct (mem_str y l) eqn:E.
  - rewrite IH. split; [intros H; right; exact H|]. intros [<-|H]; [|exact H].
    unfold mem_str in E. apply existsb_exists in E as [z [Hz Heq]].
    apply String.eqb_eq in Heq as ->. exact Hz.
  - cbn [In]. rewrite IH. reflexivity.
Qed.

Lemma display_in_names (cat : SourceOfTruth.Category) :
  In (Py.lower (SourceOfTruth.display cat)) (SourceOfTruth.names_for_fuzzy cat).
Proof.
  unfold SourceOfTruth.names_for_fuzzy. apply dedup_str_in. left. reflexivity.
Qed.

Lemma score_fold_ge (base : string) (names : list string) :
  forall acc cand, In cand names ->
    QRatio base cand
    <= fold_left
         (fun best cand =>
            Py.max (Py.max (Py.max best (token_set_ratio base cand))
                           (partial_ratio base cand))
                   (QRatio base cand))
         names acc.
Proof.
  assert (Hmono : forall names acc,
            acc <= fold_left
                     (fun best cand =>
                        Py.max (Py.max (Py.max best (token_set_ratio base cand))
                                       (partial_ratio base cand))
                               (QRatio base cand))
                     names acc).
  { intros l. induction l as [|c l IH]; intros acc; cbn [fold_left]; [lra|].
    eapply Qle_trans; [|apply IH].
    eapply Qle_trans; [|apply py_max_ge_l].
    eapply Qle_trans; [|apply py_max_ge_l]. apply py_max_ge_l. }
  induction names as [|c names IH]; intros acc cand Hin; [destruct Hin|].
  cbn [fold_left]. destruct Hin as [->|Hin]; [|apply IH; exact Hin].
  eapply Qle_trans; [|apply Hmono]. apply py_max_ge_r.
Qed.

End FuzzIdentity.

(** ** C10: the filename score *)

Section FilenameScore.
Local Open Scope Q_scope.

(** C10 as the specification words it fails: along a chain that converges
    one character at a time to the display name "Passbook", the score
    starts at 1 (the filename is the synonym), drops to 7/8 and 3/4, and
    only then rises back to 1. *)
Lemma filename_score_not_monotone :
  converges (SourceOfTruth.display passbooks) passbook_chain = true
  /\ step_toward (SourceOfTruth.display passbooks) "Pattadar" "Pastadar" = true
  /\ map (fun f => Qred (Signals.score_filename f passbooks)) passbook_chain
     = [1; 7 # 8; 3 # 4; 10 # 13; 6 # 7; 14 # 15; 1]
  /\ Signals.score_filename "Pastadar" passbooks < Signals.score_filename "Pattadar" passbooks.
Proof. vm_compute. repeat split; reflexivity. Qed.

(** C10, as the code has it.  For every filename and every category the
    filename score lies between 0 and 1, and it is 1 once the cleaned
    filename is the (non-empty) lower-cased display name, that is, at the
    end of a convergence towards the display name. *)
Theorem filename_score_range :
  forall (file_name : string) (cat : SourceOfTruth.Category),
    0 <= Signals.score_filename file_name cat
    /\ Signals.score_filename file_name cat <= 1
    /\ (cleaned_name file_name = Py.lower (SourceOfTruth.display cat) ->
        Py.truthy (Py.lower (SourceOfTruth.display cat)) = true ->
        Signals.score_filename file_name cat == 1).
Proof.
  intros file_name cat.
  destruct (score_filename_range file_name cat) as [H0 H1].
  split; [exact H0|]. split; [exact H1|].
  intros Hclean Hne. apply Qle_antisym; [exact H1|].
  unfold Signals.score_filename. fold (cleaned_name file_name). rewrite Hclean.
  pose proof (score_fold_ge (Py.lower (SourceOfTruth.display cat))
                (SourceOfTruth.names_for_fuzzy cat) 0 _ (display_in_names cat)) as Hge.
  rewrite (QRatio_self _ Hne) in Hge.
  apply Qle_shift_div_l; [lra|]. lra.
Qed.

End FilenameScore.

(** * Further properties of the code *)

(** ** fuse.py and the normalizations of signals.py *)

Section FusionFacts.
Local Open Scope Q_scope.

Lemma Qeq_eq_leibniz_weak (a b : Q) : a = b -> a == b.
Proof. intros ->. reflexivity. Qed.

Lemma clip_cases (x : Q) :
  (x < 0 /\ Py.max 0.0 (Py.min 1.0 x) = 0.0)
  \/ (0 <= x <= 1 /\ Py.max 0.0 (Py.min 1.0 x) == x)
  \/ (1 < x /\ Py.max 0.0 (Py.min 1.0 x) = 1.0).
Proof.
  destruct (py_min_cases 1.0 x) as [[Hm ->]|[Hm ->]].
  - destruct (py_max_cases 0.0 1.0) as [[Hx Hr]|[Hx Hr]]; [lra|].
    destruct (Qlt_le_dec 1 x) as [H1|H1].
    + right. right. split; [exact H1 | reflexivity].
    + right. left. split; [lra|]. rewrite Hr. lra.
  - destruct (py_max_cases 0.0 x) as [[Hx ->]|[Hx ->]].
    + destruct (Qlt_le_dec x 0) as [H0|H0].
      * left. split; [exact H0 | reflexivity].
      * right. left. split; lra.
    + right. left. split; [lra | reflexivity].
Qed.

(** X1.  The fused score is clipped to 0..1 whatever the scores and the weights
    are, and it is the weighted sum itself whenever that sum is within
    0..1. *)
Theorem fuse_scores_clipped :
  forall (s1 s2 s3 a b c : Q),
    0 <= Fuse.fuse_scores s1 s2 s3 (a, b, c)
    /\ Fuse.fuse_scores s1 s2 s3 (a, b, c) <= 1
    /\ (0 <= a * s1 + b * s2 + c * s3 -> a * s1 + b * s2 + c * s3 <= 1 ->
        Fuse.fuse_scores s1 s2 s3 (a, b, c) == a * s1 + b * s2 + c * s3)
    /\ (a * s1 + b * s2 + c * s3 < 0 -> Fuse.fuse_scores s1 s2 s3 (a, b, c) = 0.0)
    /\ (1 < a * s1 + b * s2 + c * s3 -> Fuse.fuse_scores s1 s2 s3 (a, b, c) = 1.0).
Proof.
  intros s1 s2 s3 a b c. unfold Fuse.fuse_scores.
  set (raw := a * s1 + b * s2 + c * s3).
  destruct (clip_cases raw) as [[H Hr]|[[H Hr]|[H Hr]]].
  - rewrite Hr. repeat split; intros; try lra; reflexivity.
  - set (v := Py.max 0.0 (Py.min 1.0 raw)) in *.
    repeat split; intros; try lra; exfalso; lra.
  - rewrite Hr. repeat split; intros; try lra; reflexivity.
Qed.

(** X2.  With non-negative weights a better signal never lowers the fused
    score. *)
Theorem fuse_scores_monotone :
  forall (s1 s2 s3 t1 t2 t3 a b c : Q),
    0 <= a -> 0 <= b -> 0 <= c ->
    s1 <= t1 -> s2 <= t2 -> s3 <= t3 ->
    Fuse.fuse_scores s1 s2 s3 (a, b, c) <= Fuse.fuse_scores t1 t2 t3 (a, b, c).
Proof.
  intros s1 s2 s3 t1 t2 t3 a b c Ha Hb Hc H1 H2 H3. unfold Fuse.fuse_scores.
  assert (Hraw : a * s1 + b * s2 + c * s3 <= a * t1 + b * t2 + c * t3).
  { assert (a * s1 <= a * t1) by nra.
    assert (b * s2 <= b * t2) by nra.
    assert (c * s3 <= c * t3) by nra.
    lra. }
  set (x := a * s1 + b * s2 + c * s3) in *. set (y := a * t1 + b * t2 + c * t3) in *.
  destruct (clip_cases x) as [[Hx Hu]|[[Hx Hu]|[Hx Hu]]];
    destruct (clip_cases y) as [[Hy Hv]|[[Hy Hv]|[Hy Hv]]];
    set (u := Py.max 0.0 (Py.min 1.0 x)) in *; set (v := Py.max 0.0 (Py.min 1.0 y)) in *;
    try (apply Qeq_eq_leibniz_weak in Hu); try (apply Qeq_eq_leibniz_weak in Hv); lra.
Qed.

Lemma fuse_scores_monotone_witness :
  (0.2 <= 0.9 /\ 0 <= 0.3)
  /\ Fuse.fuse_scores 0.2 0.5 0 (0.40, 0.30, 0.30)
     <= Fuse.fuse_scores 0.9 0.5 0.3 (0.40, 0.30, 0.30).
Proof.
  split; [split; lra|]. apply fuse_scores_monotone; lra.
Defined.

End FusionFacts.

Section NormFacts.
Local Open Scope Q_scope.
Import Signals.

Lemma norm01_cases (x lo hi : Q) :
  (hi <= lo /\ _norm01 x lo hi = 0.0)
  \/ (lo < hi /\ x <= lo /\ _norm01 x lo hi == 0)
  \/ (lo < hi /\ lo <= x <= hi /\ _norm01 x lo hi == (x - lo) / (hi - lo))
  \/ (lo < hi /\ hi <= x /\ _norm01 x lo hi == 1).
Proof.
  unfold _norm01. destruct (Qle_bool hi lo) eqn:E.
  - left. apply qle_bool_true in E. auto.
  - apply qle_bool_false in E. right.
    assert (Hd : ~ hi - lo == 0) by lra.
    destruct (py_min_cases hi x) as [[Hm ->]|[Hm ->]].
    + destruct (py_max_cases lo hi) as [[Hx ->]|[Hx ->]]; [lra|].
      right. right. split; [exact E|]. split; [exact Hm|]. field. exact Hd.
    + destruct (py_max_cases lo x) as [[Hx ->]|[Hx ->]].
      * left. split; [exact E|]. split; [exact Hx|]. field. exact Hd.
      * right. left. split; [exact E|]. split; [lra | reflexivity].
Qed.

Lemma norm01_range (x lo hi : Q) : 0 <= _norm01 x lo hi /\ _norm01 x lo hi <= 1.
Proof.
  destruct (norm01_cases x lo hi) as [[H Hr]|[(H & Hx & Hr)|[(H & Hx & Hr)|(H & Hx & Hr)]]].
  - rewrite Hr. split; lra.
  - set (v := _norm01 x lo hi) in *. split; lra.
  - set (v := _norm01 x lo hi) in *.
    assert (0 <= (x - lo) / (hi - lo)) by (apply Qle_shift_div_l; lra).
    assert ((x - lo) / (hi - lo) <= 1) by (apply Qle_shift_div_r; lra).
    split; lra.
  - set (v := _norm01 x lo hi) in *. split; lra.
Qed.

Lemma norm01_edges (x lo hi : Q) :
  lo < hi ->
  (x <= lo -> _norm01 x lo hi == 0) /\ (hi <= x -> _norm01 x lo hi == 1).
Proof.
  intros Hlt.
  destruct (norm01_cases x lo hi) as [[H Hr]|[(H & Hx & Hr)|[(H & Hx & Hr)|(H & Hx & Hr)]]];
    [exfalso; lra| | |]; set (v := _norm01 x lo hi) in *.
  - split; intros; [exact Hr | exfalso; lra].
  - split; intros Hxe.
    + assert ((x - lo) / (hi - lo) <= 0) by (apply Qle_shift_div_r; lra).
      assert (0 <= (x - lo) / (hi - lo)) by (apply Qle_shift_div_l; lra).
      lra.
    + assert ((x - lo) / (hi - lo) <= 1) by (apply Qle_shift_div_r; lra).
      assert (1 <= (x - lo) / (hi - lo)) by (apply Qle_shift_div_l; lra).
      lra.
  - split; intros; [exfalso; lra | exact Hr].
Qed.

Lemma fraction_mono (x y lo hi : Q) :
  lo < hi -> x <= y -> (x - lo) / (hi - lo) <= (y - lo) / (hi - lo).
Proof.
  intros Hlt Hxy. unfold Qdiv. apply Qmult_le_compat_r; [lra|].
  apply Qlt_le_weak, Qinv_lt_0_compat. lra.
Qed.

(** X3.  [_norm01] maps into 0..1: 0 for a degenerate interval and up to [lo],
    1 from [hi] on, linear in between, and it never decreases in [x]. *)
Theorem norm01_clipped_linear :
  forall (x y lo hi : Q),
    0 <= _norm01 x lo hi
    /\ _norm01 x lo hi <= 1
    /\ (hi <= lo -> _norm01 x lo hi = 0.0)
    /\ (lo < hi -> x <= lo -> _norm01 x lo hi == 0)
    /\ (lo < hi -> hi <= x -> _norm01 x lo hi == 1)
    /\ (lo < hi -> lo <= x -> x <= hi -> _norm01 x lo hi == (x - lo) / (hi - lo))
    /\ (x <= y -> _norm01 x lo hi <= _norm01 y lo hi).
Proof.
  intros x y lo hi.
  destruct (norm01_range x lo hi) as [H0 H1].
  destruct (norm01_range y lo hi) as [H0' H1'].
  split; [exact H0|]. split; [exact H1|].
  split.
  { intros Hd. destruct (norm01_cases x lo hi) as [[H Hr]|[(H & _)|[(H & _)|(H & _)]]];
      [exact Hr | exfalso; lra | exfalso; lra | exfalso; lra]. }
  split; [intros Hlt; apply (norm01_edges x lo hi Hlt)|].
  split; [intros Hlt; apply (norm01_edges x lo hi Hlt)|].
  split.
  { intros Hlt Hl Hh.
    destruct (norm01_cases x lo hi) as [[H Hr]|[(H & Hx & Hr)|[(H & Hx & Hr)|(H & Hx & Hr)]]].
    - exfalso; lra.
    - assert ((x - lo) / (hi - lo) <= 0) by (apply Qle_shift_div_r; lra).
      assert (0 <= (x - lo) / (hi - lo)) by (apply Qle_shift_div_l; lra).
      set (v := _norm01 x lo hi) in *. lra.
    - exact Hr.
    - assert ((x - lo) / (hi - lo) <= 1) by (apply Qle_shift_div_r; lra).
      assert (1 <= (x - lo) / (hi - lo)) by (apply Qle_shift_div_l; lra).
      set (v := _norm01 x lo hi) in *. lra. }
  intros Hxy.
  destruct (norm01_cases x lo hi) as [[H Hr]|[(H & Hx & Hr)|[(H & Hx & Hr)|(H & Hx & Hr)]]].
  - destruct (norm01_cases y lo hi) as [[H' Hr']|[(H' & _)|[(H' & _)|(H' & _)]]];
      try (exfalso; lra).
    rewrite Hr, Hr'. lra.
  - set (v := _norm01 x lo hi) in *. lra.
  - destruct (norm01_edges y lo hi H) as [Hlo Hhi].
    destruct (norm01_cases y lo hi)
      as [[H' Hr']|[(H' & Hy & Hr')|[(H' & Hy & Hr')|(H' & Hy & Hr')]]].
    + exfalso; lra.
    + destruct (norm01_edges x lo hi H) as [Hxlo _].
      assert (Hx0 := Hxlo ltac:(lra)).
      set (v := _norm01 x lo hi) in *. set (w := _norm01 y lo hi) in *. lra.
    + pose proof (fraction_mono x y lo hi H Hxy).
      set (v := _norm01 x lo hi) in *. set (w := _norm01 y lo hi) in *. lra.
    + set (v := _norm01 x lo hi) in *. set (w := _norm01 y lo hi) in *. lra.
  - destruct (norm01_edges y lo hi H) as [_ Hhi].
    assert (Hy1 := Hhi ltac:(lra)).
    set (v := _norm01 x lo hi) in *. set (w := _norm01 y lo hi) in *. lra.
Qed.

End NormFacts.

(** ** signals.py: keyword and embedding scores *)

Section SignalFacts.
Local Open Scope Q_scope.
Import Signals.

Lemma keyword_fold (text : string) (kws : list string) :
  forall h0 : nat,
    fold_left
      (fun (hits : nat) kw =>
         if negb (Py.truthy kw) then hits
         else if Py.contains (Py.lower kw) text then S hits else hits)
      kws h0
    = (h0 + keyword_hits text kws)%nat.
Proof.
  unfold keyword_hits. induction kws as [|kw kws IH]; intros h0; cbn [fold_left List.filter].
  - cbn. lia.
  - rewrite IH. destruct (Py.truthy kw); cbn [negb andb]; [|lia].
    destruct (Py.contains (Py.lower kw) text); cbn [length]; lia.
Qed.

Lemma score_keywords_formula (chunks : list Db.chunk) (cat : SourceOfTruth.Category)
    (top_k : nat) :
  all_keywords cat <> [] ->
  score_keywords chunks cat top_k
  = _norm01 (inject_Z (Z.of_nat (keyword_hits (keyword_text chunks top_k) (all_keywords cat)))
             / inject_Z (Z.of_nat (Nat.max 1 (length (all_keywords cat)))))
            0.0 0.6.
Proof.
  intros Hne. unfold score_keywords. fold (all_keywords cat).
  destruct (all_keywords cat) as [|kw kws] eqn:E; [congruence|].
  fold (keyword_text chunks top_k). rewrite keyword_fold. reflexivity.
Qed.

(** X4.  The keyword score lies in 0..1; it is 0 for a category without keywords
    and synonyms and when none of them occurs in the first [top_k] chunks,
    and it is 1 as soon as at least 60% of them occur.  Chunks after the
    first [top_k] are not read. *)
Theorem score_keywords_saturates :
  forall (chunks : list Db.chunk) (cat : SourceOfTruth.Category) (top_k : nat),
    let kws := all_keywords cat in
    let h := keyword_hits (keyword_text chunks top_k) kws in
    0 <= score_keywords chunks cat top_k
    /\ score_keywords chunks cat top_k <= 1
    /\ (kws = [] -> score_keywords chunks cat top_k = 0.0)
    /\ (h = 0%nat -> score_keywords chunks cat top_k == 0)
    /\ (kws <> [] -> (3 * length kws <= 5 * h)%nat -> score_keywords chunks cat top_k == 1)
    /\ (h <= length kws)%nat
    /\ score_keywords (take top_k chunks) cat top_k = score_keywords chunks cat top_k.
Proof.
  intros chunks cat top_k. cbv zeta.
  assert (Htake : score_keywords (take top_k chunks) cat top_k = score_keywords chunks cat top_k).
  { unfold score_keywords. rewrite take_take, Nat.min_id. reflexivity. }
  assert (Hh : (keyword_hits (keyword_text chunks top_k) (all_keywords cat)
                <= length (all_keywords cat))%nat) by apply List.filter_length_le.
  destruct (all_keywords cat) as [|kw rest] eqn:E.
  - assert (Hnil : score_keywords chunks cat top_k = 0.0).
    { unfold score_keywords. fold (all_keywords cat). rewrite E. reflexivity. }
    rewrite Hnil.
    split; [lra|]. split; [lra|]. split; [reflexivity|]. split; [reflexivity|].
    split; [congruence|]. split; [exact Hh|]. rewrite <- Hnil. exact Htake.
  - assert (Hne : all_keywords cat <> []) by (rewrite E; discriminate).
    pose proof (score_keywords_formula chunks cat top_k Hne) as Hf.
    rewrite E in Hf.
    set (h := keyword_hits (keyword_text chunks top_k) (kw :: rest)) in *.
    set (n := length (kw :: rest)) in *.
    assert (Hn : (1 <= n)%nat) by (subst n; cbn; lia).
    replace (Nat.max 1 n) with n in Hf by lia.
    assert (Hnq : 0 < inject_Z (Z.of_nat n)).
    { change 0 with (inject_Z 0). rewrite <- Zlt_Qlt. lia. }
    assert (Hhq : 0 <= inject_Z (Z.of_nat h)).
    { change 0 with (inject_Z 0). rewrite <- Zle_Qle. lia. }
    set (prop := inject_Z (Z.of_nat h) / inject_Z (Z.of_nat n)) in *.
    destruct (norm01_range prop 0.0 0.6) as [H0 H1].
    destruct (norm01_edges prop 0.0 0.6 ltac:(lra)) as [Hlo Hhi].
    rewrite Hf.
    split; [exact H0|]. split; [exact H1|].
    split; [intros; discriminate|].
    split.
    { intros Hz. apply Hlo. subst prop. rewrite Hz.
      change (inject_Z (Z.of_nat 0)) with 0. unfold Qdiv. rewrite Qmult_0_l. lra. }
    split.
    { intros _ H35. apply Hhi. subst prop. apply Qle_shift_div_l; [exact Hnq|].
      assert (H35q : inject_Z 3 * inject_Z (Z.of_nat n) <= inject_Z 5 * inject_Z (Z.of_nat h)).
      { rewrite <- !inject_Z_mult, <- Zle_Qle. lia. }
      change (inject_Z 3) with 3 in H35q. change (inject_Z 5) with 5 in H35q. lra. }
    split; [exact Hh|].
    rewrite <- Hf. exact Htake.
Qed.

(** X5.  Whatever the cosine is, the embedding score lies in 0..1; it is 0 when
    either vector is missing and for a cosine of at most 0.2, and 1 for a
    cosine of at least 0.9. *)
Theorem score_embeddings_degrades :
  forall (cosine : list Q -> list Q -> Q) (doc_vec cat_vec : option (list Q)),
    0 <= score_embeddings cosine doc_vec cat_vec
    /\ score_embeddings cosine doc_vec cat_vec <= 1
    /\ (doc_vec = None \/ cat_vec = None -> score_embeddings cosine doc_vec cat_vec = 0.0)
    /\ (forall dv cv, doc_vec = Some dv -> cat_vec = Some cv ->
          (cosine dv cv <= 0.2 -> score_embeddings cosine doc_vec cat_vec == 0)
          /\ (0.9 <= cosine dv cv -> score_embeddings cosine doc_vec cat_vec == 1)
          /\ (0.2 <= cosine dv cv -> cosine dv cv <= 0.9 ->
              score_embeddings cosine doc_vec cat_vec == (cosine dv cv - 0.2) / 0.7)).
Proof.
  intros cosine doc_vec cat_vec.
  destruct doc_vec as [dv|], cat_vec as [cv|]; cbn [score_embeddings];
    try (repeat split; intros; try lra; try reflexivity; try discriminate;
         destruct H as [H|H]; discriminate).
  destruct (norm01_range (cosine dv cv) 0.2 0.9) as [H0 H1].
  destruct (norm01_edges (cosine dv cv) 0.2 0.9 ltac:(lra)) as [Hlo Hhi].
  split; [exact H0|]. split; [exact H1|].
  split; [intros [H|H]; discriminate|].
  intros dv' cv' [= <-] [= <-].
  split; [exact Hlo|]. split; [exact Hhi|].
  intros Hl Hh.
  destruct (norm01_cases (cosine dv cv) 0.2 0.9)
    as [[H Hr]|[(H & Hx & Hr)|[(H & Hx & Hr)|(H & Hx & Hr)]]].
  - exfalso; lra.
  - rewrite Hr. assert (cosine dv cv == 0.2) as -> by lra. reflexivity.
  - rewrite Hr. apply Qdiv_comp; [reflexivity | reflexivity].
  - rewrite Hr. assert (cosine dv cv == 0.9) as -> by lra. reflexivity.
Qed.

End SignalFacts.

(** ** signals.py: the document vector *)

Section VectorFacts.
Local Open Scope Q_scope.
Import Signals.

Lemma usable_fold (cs : list Db.chunk) (acc : list (list Q)) :
  fold_left
    (fun vecs c =>
       match Db.chunk_emb c with
       | None => vecs
       | Some [] => vecs
       | Some (x :: v) => vecs ++ [x :: v]
       end)
    cs acc
  = acc ++ flat_map (fun c => match Db.chunk_emb c with
                              | Some (x :: v) => [x :: v]
                              | _ => []
                              end) cs.
Proof.
  revert acc. induction cs as [|c cs IH]; intros acc; cbn [fold_left flat_map].
  - symmetry. apply app_nil_r.
  - rewrite IH. destruct (Db.chunk_emb c) as [[|x v]|]; cbn [app];
      rewrite <- ?app_assoc; reflexivity.
Qed.

Lemma usable_vectors_nil (cs : list Db.chunk) :
  flat_map (fun c => match Db.chunk_emb c with
                     | Some (x :: v) => [x :: v]
                     | _ => []
                     end) cs = []
  <-> Forall (fun c => usable c = false) cs.
Proof.
  induction cs as [|c cs IH]; cbn [flat_map].
  - split; [constructor | reflexivity].
  - rewrite Forall_cons. unfold usable at 1.
    destruct (Db.chunk_emb c) as [[|x v]|]; cbn [app].
    + rewrite IH. tauto.
    + split; [discriminate|]. intros [H _]. discriminate.
    + rewrite IH. tauto.
Qed.

Lemma vec_mean_none (vecs : list (list Q)) : vec_mean vecs = None <-> vecs = [].
Proof. destruct vecs; cbn; split; congruence. Qed.

(** X6.  There is a document vector exactly when one of the first [max_chunks]
    chunks carries a non-empty embedding; later chunks are not read, and
    with a single such chunk the vector is its embedding. *)
Theorem doc_vector_mean_defined :
  forall (chunks : list Db.chunk) (max_chunks : nat),
    (doc_vector_mean chunks max_chunks = None
     <-> Forall (fun c => usable c = false) (take max_chunks chunks))
    /\ doc_vector_mean (take max_chunks chunks) max_chunks = doc_vector_mean chunks max_chunks
    /\ doc_vector_mean chunks 0 = None
    /\ (forall c v,
          List.filter usable (take max_chunks chunks) = [c] ->
          Db.chunk_emb c = Some v ->
          exists m, doc_vector_mean chunks max_chunks = Some m /\ Forall2 Qeq m v).
Proof.
  intros chunks k. unfold doc_vector_mean. rewrite !usable_fold. cbn [app].
  split; [rewrite vec_mean_none; apply usable_vectors_nil|].
  split; [rewrite take_take, Nat.min_id; reflexivity|].
  split; [reflexivity|].
  intros c v Hf Hv.
  assert (Hfm : forall cs,
            flat_map (fun c => match Db.chunk_emb c with
                               | Some (x :: v) => [x :: v]
                               | _ => []
                               end) cs
            = omap Db.chunk_emb (List.filter usable cs)).
  { induction cs as [|c0 cs IH]; [reflexivity|]. cbn [flat_map List.filter].
    unfold usable at 1. destruct (Db.chunk_emb c0) as [[|x w]|] eqn:E; cbn [app]; try exact IH.
    cbn. rewrite E. cbn. f_equal. exact IH. }
  rewrite Hfm, Hf. simpl omap. rewrite Hv. cbn.
  eexists. split; [reflexivity|].
  clear. induction v as [|x v IH]; cbn; constructor; [|exact IH].
  unfold Qdiv. change (/ inject_Z (Z.of_nat 1)) with 1. ring.
Qed.

End VectorFacts.

(** ** rules.py and resolver.py: the best rule hit *)

Section BestRule.
Local Open Scope Q_scope.
Import Rules Resolver.

Lemma best_fold_first (rest : list hit) (h : hit) :
  Forall (fun x => hit_score x <= hit_score h) rest ->
  fold_left (fun b x => if Qle_bool (hit_score x) (hit_score b) then b else x) rest h = h.
Proof.
  induction 1 as [|x rest Hx _ IH]; cbn [fold_left]; [reflexivity|].
  apply qle_bool_true in Hx. rewrite Hx. exact IH.
Qed.

Lemma rules_scores (text filename : string) (state : option string) :
  Forall (fun h => hit_score h = 0.9 \/ hit_score h = 0.85)
         (rules_from_text_and_filename text filename state).
Proof.
  rewrite rules_two_layers. apply Forall_app. split.
  - eapply List.Forall_impl; [|apply bank_router_scores]. intros h H. left. exact H.
  - eapply List.Forall_impl; [|apply filename_hits_scores]. intros h H. right. exact H.
Qed.

Lemma rules_best_head (text filename : string) (state : option string) :
  rule_best_of (rules_from_text_and_filename text filename state)
  = head (rules_from_text_and_filename text filename state).
Proof.
  rewrite rules_two_layers.
  pose proof (bank_router_scores text state) as Hb.
  pose proof (filename_hits_scores filename) as Hf.
  destruct (_bank_router text state) as [|b bank].
  - cbn [app]. destruct (filename_hint_hits filename []) as [|h rest]; [reflexivity|].
    cbn [rule_best_of head]. f_equal. apply best_fold_first.
    inversion Hf as [|? ? Hh Hrest]; subst.
    eapply List.Forall_impl; [|exact Hrest]. intros x Hx. cbv beta in Hx. rewrite Hx, Hh. lra.
  - cbn [app rule_best_of head]. f_equal. apply best_fold_first.
    inversion Hb as [|? ? Hh Hrest]; subst. apply Forall_app. split.
    + eapply List.Forall_impl; [|exact Hrest]. intros x Hx. cbv beta in Hx. rewrite Hx, Hh. lra.
    + eapply List.Forall_impl; [|exact Hf]. intros x Hx. cbv beta in Hx. rewrite Hx, Hh. lra.
Qed.

(** X7.  The best rule hit is always the first hit: the router's hits, at 0.9,
    precede the filename hints, at 0.85, and no other score occurs.  A
    bank-statement marker in the text therefore beats every filename hint.
    The state passed to the rule engine does not influence its hits. *)
Theorem best_rule_is_first_hit :
  forall (text filename : string) (state state' : option string),
    let hits := rules_from_text_and_filename text filename state in
    rule_best_of hits = head hits
    /\ rules_from_text_and_filename text filename state' = hits
    /\ Forall (fun h => hit_score h = 0.9 \/ hit_score h = 0.85) hits
    /\ (Re.found BANK_STMT_RX text = true ->
        exists h, rule_best_of hits = Some h /\ hit_score h = 0.9
                  /\ (hit_slug h = "dev_company_bank_stmt"
                      \/ hit_slug h = "directors_bank_stmt_1y"))
    /\ (Re.found BANK_STMT_RX text = false ->
        hits = filename_hint_hits filename []).
Proof.
  intros text filename state state'. cbv zeta.
  split; [apply rules_best_head|].
  split; [reflexivity|].
  split; [apply rules_scores|].
  split.
  - intros Hbank. rewrite rules_best_head, rules_two_layers.
    unfold _bank_router. rewrite Hbank. cbn [negb].
    destruct (Re.found CORP_HINTS_RX text || Re.found GSTIN_RX text
              || Re.found CIN_RX text || Re.found LLPIN_RX text).
    + eexists. split; [reflexivity|]. split; [reflexivity|]. left. reflexivity.
    + eexists. split; [reflexivity|]. split; [reflexivity|]. right. reflexivity.
  - intros Hbank. rewrite rules_two_layers. unfold _bank_router. rewrite Hbank. reflexivity.
Qed.

End BestRule.

(** ** resolver.py: what [categorize_document] returns *)

Section CategorizeFacts.
Local Open Scope Q_scope.
Import Resolver.
Variable cosine : list Q -> list Q -> Q.



End CategorizeFacts.

Section ScoreRanges.
Local Open Scope Q_scope.
Import Resolver.
Variable cosine : list Q -> list Q -> Q.

Lemma fuse_range (s1 s2 s3 : Q) (w : Q * Q * Q) :
  0 <= Fuse.fuse_scores s1 s2 s3 w /\ Fuse.fuse_scores s1 s2 s3 w <= 1.
Proof.
  destruct w as [[a b] c]. unfold Fuse.fuse_scores.
  destruct (clip_cases (a * s1 + b * s2 + c * s3)) as [[H Hr]|[[H Hr]|[H Hr]]].
  - rewrite Hr. split; lra.
  - set (v := Py.max 0.0 (Py.min 1.0 (a * s1 + b * s2 + c * s3))) in *. split; lra.
  - rewrite Hr. split; lra.
Qed.

Lemma fuse_linear (s1 s2 s3 a b c : Q) :
  0 <= a * s1 + b * s2 + c * s3 -> a * s1 + b * s2 + c * s3 <= 1 ->
  Fuse.fuse_scores s1 s2 s3 (a, b, c) == a * s1 + b * s2 + c * s3.
Proof.
  intros H0 H1. unfold Fuse.fuse_scores.
  destruct (clip_cases (a * s1 + b * s2 + c * s3)) as [[H Hr]|[[H Hr]|[H Hr]]];
    [exfalso; lra | exact Hr | exfalso; lra].
Qed.

Lemma score_keywords_range (chunks : list Db.chunk) (cat : SourceOfTruth.Category)
    (top_k : nat) :
  0 <= Signals.score_keywords chunks cat top_k /\ Signals.score_keywords chunks cat top_k <= 1.
Proof.
  unfold Signals.score_keywords.
  destruct (_ ++ _) as [|kw kws]; [split; lra|]. apply norm01_range.
Qed.

Lemma score_embeddings_range (doc_vec cat_vec : option (list Q)) :
  0 <= Signals.score_embeddings cosine doc_vec cat_vec
  /\ Signals.score_embeddings cosine doc_vec cat_vec <= 1.
Proof.
  destruct doc_vec, cat_vec; cbn [Signals.score_embeddings];
    try (split; lra). apply norm01_range.
Qed.

(** The rows of the ranking, field by field. *)
Lemma row_of_fields fname chunks doc_vec cat_vecs w (c : SourceOfTruth.Category) :
  let r := row_of cosine fname chunks doc_vec cat_vecs w c in
  sc_slug r = SourceOfTruth.slug c /\ sc_cat r = c
  /\ sc_final r = Fuse.fuse_scores (fst (fst (sc_parts r))) (snd (fst (sc_parts r)))
                    (snd (sc_parts r)) w
  /\ fst (fst (sc_parts r)) = Signals.score_filename fname c
  /\ snd (fst (sc_parts r)) = Signals.score_keywords chunks c 6
  /\ snd (sc_parts r)
     = Signals.score_embeddings cosine doc_vec (cat_vecs !! SourceOfTruth.slug c).
Proof. cbv zeta. unfold row_of. repeat split. Qed.

Lemma row_of_ranges fname chunks doc_vec cat_vecs w (c : SourceOfTruth.Category) :
  let r := row_of cosine fname chunks doc_vec cat_vecs w c in
  (0 <= sc_final r /\ sc_final r <= 1)
  /\ (0 <= fst (fst (sc_parts r)) /\ fst (fst (sc_parts r)) <= 1)
  /\ (0 <= snd (fst (sc_parts r)) /\ snd (fst (sc_parts r)) <= 1)
  /\ (0 <= snd (sc_parts r) /\ snd (sc_parts r) <= 1).
Proof.
  cbv zeta. unfold row_of.
  cbn [sc_final sc_parts fst snd].
  split; [apply fuse_range|]. split; [apply score_filename_range|].
  split; [apply score_keywords_range | apply score_embeddings_range].
Qed.

Lemma StronglySorted_weaken {A : Type} (R R' : A -> A -> Prop) (l : list A) :
  (forall a b, R a b -> R' a b) -> StronglySorted R l -> StronglySorted R' l.
Proof.
  intros HR. induction 1 as [|x l Hs IH Hall]; constructor; [exact IH|].
  eapply List.Forall_impl; [|exact Hall]. intros b. apply HR.
Qed.

(** The ranking is in descending order of the fused score. *)
Lemma score_all_sorted fname chunks doc_vec cats cat_vecs w :
  StronglySorted (fun a b => sc_final b <= sc_final a)
                 (score_all cosine fname chunks doc_vec cats cat_vecs w).
Proof.
  unfold score_all.
  eapply StronglySorted_weaken; [|apply sort_desc_sorted].
  - intros a b H. cbv beta in H. apply negb_false_iff, qle_bool_true in H. exact H.
  - intros x y z Hxy Hyz. apply negb_false_iff, qle_bool_true in Hxy, Hyz.
    apply negb_false_iff, qle_bool_true. lra.
  - intros x y H. apply negb_true_iff, qle_bool_false in H.
    apply negb_false_iff, qle_bool_true. lra.
Qed.

End ScoreRanges.

(** ** resolver.py: the outcome of [categorize_document] *)

Section ResolverOutcome.
Local Open Scope Q_scope.
Import Resolver.
Variable cosine : list Q -> list Q -> Q.


Lemma best_hit_score (hits : list Rules.hit) (b : Rules.hit) text filename state :
  hits = Rules.rules_from_text_and_filename text filename state ->
  rule_best_of hits = Some b ->
  Rules.hit_score b = 0.9 \/ Rules.hit_score b = 0.85.
Proof.
  intros -> Hb. apply rule_best_of_max in Hb as [Hin _].
  pose proof (rules_scores text filename state) as Hs.
  rewrite List.Forall_forall in Hs. apply Hs. exact Hin.
Qed.


(** X10.  Any rule hit decides the status: the best hit scores at least 0.85, so
    even the partial boost of a slug outside the candidates, nine tenths
    of it, exceeds the acceptance threshold, whatever the fused score. *)
Theorem rule_hit_forces_acceptance :
  forall (db : Db.database) (doc_row : Db.doc_row) (cats : list SourceOfTruth.Category)
         (cat_vecs : gmap string (list Q)) (fname_cnts : gmap string nat)
         (state : option string) (chunks : list Db.chunk) (h : Rules.hit),
    Db.get_chunks db (Db.row_id doc_row) None = Ok chunks ->
    cats <> [] ->
    head (Rules.rules_from_text_and_filename (full_text_of chunks)
            (Db.document_name doc_row) state) = Some h ->
    exists L,
      categorize_locals cosine db doc_row cats cat_vecs fname_cnts state = Ok L
      /\ l_rule_best L = Some h
      /\ 0.765 <= l_final L
      /\ l_status L = "accepted"
      /\ (exists ra, l_rule_applied L = Some ra /\ rule_slug ra = Rules.hit_slug h)
      /\ (In (Rules.hit_slug h) (map SourceOfTruth.slug cats) ->
          l_slug L = Rules.hit_slug h /\ 0.85 <= l_final L).
Proof.
  intros db doc_row cats cat_vecs fname_cnts state chunks h Hch Hne Hhead.
  destruct (categorize_locals_total cosine db doc_row cats cat_vecs fname_cnts state chunks
              Hch Hne) as [L HL].
  exists L. split; [exact HL|].
  apply categorize_locals_inv in HL
    as (chunks' & r0 & rest & Hch' & _ & Hhits & Hrb & _ & _ & _ & Hsc & Hhd & Hfu
        & _ & Har & Hst).
  rewrite Hch in Hch'. injection Hch' as <-.
  assert (Hb : l_rule_best L = Some h).
  { rewrite Hrb, Hhits, rules_best_head. exact Hhead. }
  assert (Hsco : Rules.hit_score h = 0.9 \/ Rules.hit_score h = 0.85).
  { rewrite Hrb in Hb. apply (best_hit_score _ _ _ _ _ Hhits Hb). }
  destruct h as [[r_slug r_score] reason].
  unfold Rules.hit_score in Hsco. unfold Rules.hit_slug. cbn [fst snd] in Hsco |- *.
  rewrite Hb in Har.
  assert (Hslugs : Permutation (map sc_slug (l_scored L)) (map SourceOfTruth.slug cats)).
  { rewrite Hsc. apply score_all_slugs. }
  assert (Hcases :
            (In r_slug (map SourceOfTruth.slug cats)
             /\ l_slug L = r_slug /\ l_final L = Py.max (sc_final r0) r_score
             /\ exists ra, l_rule_applied L = Some ra /\ rule_slug ra = r_slug)
            \/ (~ In r_slug (map SourceOfTruth.slug cats)
                /\ l_final L = Py.max (sc_final r0) (r_score * 0.9)
                /\ exists ra, l_rule_applied L = Some ra /\ rule_slug ra = r_slug)).
  { unfold apply_rule in Har.
    destruct (List.find (fun r => String.eqb (sc_slug r) r_slug) (l_scored L)) as [r|] eqn:Hf.
    - left. injection Har as Hs _ Hfin Hra.
      apply List.find_some in Hf as [Hr He]. apply String.eqb_eq in He.
      split.
      { apply (Permutation_in _ Hslugs). rewrite <- He. apply in_map. exact Hr. }
      split; [exact Hs|]. split; [exact Hfin|]. eexists. split; [exact Hra | reflexivity].
    - right. injection Har as _ _ Hfin Hra.
      split.
      { intros Hin. apply (Permutation_in _ (Permutation_sym Hslugs)) in Hin.
        apply in_map_iff in Hin as (r & Hs & Hr).
        apply (List.find_none _ _ Hf) in Hr. cbv beta in Hr.
        rewrite Hs, String.eqb_refl in Hr. discriminate. }
      split; [exact Hfin|]. eexists. split; [exact Hra | reflexivity]. }
  assert (Hge : 0.765 <= l_final L).
  { destruct Hcases as [(_ & _ & -> & _)|(_ & -> & _)].
    - pose proof (py_max_ge_r (sc_final r0) r_score). destruct Hsco as [E|E]; subst r_score; lra.
    - pose proof (py_max_ge_r (sc_final r0) (r_score * 0.9)).
      destruct Hsco as [E|E]; subst r_score; lra. }
  split; [exact Hb|]. split; [exact Hge|].
  split. { rewrite Hst. apply status_of_cases. lra. }
  split. { destruct Hcases as [(_ & _ & _ & H)|(_ & _ & H)]; exact H. }
  intros Hin. destruct Hcases as [(_ & Hs & Hfin & _)|(Hnin & _)]; [|contradiction].
  split; [exact Hs|]. rewrite Hfin.
  pose proof (py_max_ge_r (sc_final r0) r_score). destruct Hsco as [E|E]; subst r_score; lra.
Qed.

(** X11.  A generic or thrice-used filename weighs nothing: without a rule hit
    the final score is 0.3 times the keyword score plus 0.3 times the
    embedding score, at most 0.6, and the document is never accepted. *)
Theorem junk_name_never_accepted :
  forall (db : Db.database) (doc_row : Db.doc_row) (cats : list SourceOfTruth.Category)
         (cat_vecs : gmap string (list Q)) (fname_cnts : gmap string nat)
         (state : option string) (chunks : list Db.chunk),
    Db.get_chunks db (Db.row_id doc_row) None = Ok chunks ->
    cats <> [] ->
    Rules.rules_from_text_and_filename (full_text_of chunks)
      (Db.document_name doc_row) state = [] ->
    Signals.is_generic_filename (Db.document_name doc_row) = true
    \/ (3 <= default 0%nat (fname_cnts !! Py.lower (Db.document_name doc_row)))%nat ->
    exists L,
      categorize_locals cosine db doc_row cats cat_vecs fname_cnts state = Ok L
      /\ l_weights L = (0.0, 0.30, 0.30)
      /\ l_final L == 0.30 * snd (fst (l_parts L)) + 0.30 * snd (l_parts L)
      /\ l_final L <= 0.6
      /\ (l_status L = "needs_review" \/ l_status L = "unassigned")
      /\ (l_final L < 0.6 -> l_status L = "unassigned").
Proof.
  intros db doc_row cats cat_vecs fname_cnts state chunks Hch Hne Hnil Hjunk.
  destruct (categorize_locals_total cosine db doc_row cats cat_vecs fname_cnts state chunks
              Hch Hne) as [L HL].
  exists L. split; [exact HL|].
  apply categorize_locals_inv in HL
    as (chunks' & r0 & rest & Hch' & _ & Hhits & Hrb & Hdc & Hgen & Hw & Hsc & Hhd & Hfu
        & Hpa & Har & Hst).
  rewrite Hch in Hch'. injection Hch' as <-.
  rewrite Hnil in Hhits. rewrite Hhits in Hrb. cbn [rule_best_of] in Hrb.
  rewrite Hrb in Har. cbn [apply_rule] in Har. injection Har as _ _ Hfin _.
  assert (Hw0 : l_weights L = (0.0, 0.30, 0.30)).
  { rewrite Hw. f_equal. f_equal. apply filename_weight_cases.
    rewrite Hgen, Hdc. exact Hjunk. }
  assert (Hr0 : exists c, r0 = row_of cosine (Db.document_name doc_row) chunks
                               (Signals.doc_vector_mean chunks 8) cat_vecs (l_weights L) c).
  { assert (Hin : In r0 (l_scored L)) by (rewrite Hhd; left; reflexivity).
    rewrite Hsc in Hin. apply score_all_in in Hin as (c & _ & Hc). eauto. }
  destruct Hr0 as [c Hr0].
  pose proof (row_of_ranges cosine (Db.document_name doc_row) chunks
                (Signals.doc_vector_mean chunks 8) cat_vecs (l_weights L) c) as Hrg.
  pose proof (row_of_fields cosine (Db.document_name doc_row) chunks
                (Signals.doc_vector_mean chunks 8) cat_vecs (l_weights L) c) as Hfl.
  cbv zeta in Hrg, Hfl. rewrite <- Hr0 in Hrg, Hfl.
  destruct Hrg as (_ & _ & [Hk0 Hk1] & [He0 He1]).
  destruct Hfl as (_ & _ & Hfz & _).
  assert (Hlin : l_final L == 0.30 * snd (fst (l_parts L)) + 0.30 * snd (l_parts L)).
  { rewrite Hfin, Hpa, Hfz, Hw0.
    rewrite fuse_linear; [ring | nra | nra]. }
  rewrite <- Hpa in Hk0, Hk1, He0, He1.
  split; [exact Hw0|]. split; [exact Hlin|].
  assert (Hle : l_final L <= 0.6) by (rewrite Hlin; lra).
  split; [exact Hle|].
  destruct (Qlt_le_dec (l_final L) 0.6) as [Hlt|Hge].
  - assert (Hu : l_status L = "unassigned") by (rewrite Hst; apply status_of_cases; lra).
    split; [right; exact Hu | intros _; exact Hu].
  - split; [|intros Hlt; exfalso; lra].
    left. rewrite Hst. apply status_of_cases; lra.
Qed.

End ResolverOutcome.

Section ResolverOutcomeWitnesses.
Local Open Scope Q_scope.
Import Resolver.


Lemma rule_hit_forces_acceptance_witness :
  exists L,
    categorize_locals Corpus.no_cosine Corpus.db Corpus.rera_doc Corpus.ka_cats ∅
      (Db.filename_counts Corpus.db) (Some "KA") = Ok L
    /\ l_rule_best L = Some ("ts_rera_certificate", 0.85, "filename:rera")
    /\ l_status L = "accepted".
Proof.
  destruct (rule_hit_forces_acceptance Corpus.no_cosine Corpus.db Corpus.rera_doc
              Corpus.ka_cats ∅ (Db.filename_counts Corpus.db) (Some "KA")
              [(1%Z, "Registration of the project", None)]
              ("ts_rera_certificate", 0.85, "filename:rera"))
    as (L & HL & Hb & _ & Hs & _).
  - reflexivity.
  - vm_compute. discriminate.
  - vm_compute. reflexivity.
  - exists L. auto.
Defined.

Lemma junk_name_never_accepted_witness :
  exists L,
    categorize_locals Corpus.no_cosine Corpus.db (Corpus.document 7 "scan_001.pdf" None)
      Corpus.cats ∅ (Db.filename_counts Corpus.db) (Some "TS") = Ok L
    /\ l_weights L = (0.0, 0.30, 0.30)%Q
    /\ (l_status L = "needs_review" \/ l_status L = "unassigned").
Proof.
  destruct (junk_name_never_accepted Corpus.no_cosine Corpus.db
              (Corpus.document 7 "scan_001.pdf" None) Corpus.cats ∅
              (Db.filename_counts Corpus.db) (Some "TS")
              [(1%Z, "GSTIN: 29ABCDE1234F1Z5", None)])
    as (L & HL & Hw & _ & _ & Hs & _).
  - reflexivity.
  - discriminate.
  - vm_compute. reflexivity.
  - left. vm_compute. reflexivity.
  - exists L. auto.
Defined.

End ResolverOutcomeWitnesses.

Section RankingFacts.
Local Open Scope Q_scope.
Import Resolver.
Variable cosine : list Q -> list Q -> Q.

Lemma filename_weight_range (generic : bool) (dup : nat) :
  0 <= filename_weight generic dup /\ filename_weight generic dup <= 0.40.
Proof.
  unfold filename_weight. destruct (generic || (3 <=? dup)%nat); [split; lra|].
  destruct (dup =? 2)%nat; split; lra.
Qed.

Lemma preview_ranks (rows : list scored_row) :
  map rank
      (imap (fun i rec =>
               {| rank := i + 1;
                  pv_slug := sc_slug rec;
                  pv_score := Py.round (sc_final rec) 3;
                  s1_fn := Py.round (fst (fst (sc_parts rec))) 3;
                  s2_kw := Py.round (snd (fst (sc_parts rec))) 3;
                  s3_emb := Py.round (snd (sc_parts rec)) 3;
                  pv_display := SourceOfTruth.display (sc_cat rec);
                  pv_top_entity := SourceOfTruth.top_entity (sc_cat rec);
                  pv_state_variant := SourceOfTruth.state_variant (sc_cat rec);
                  pv_org_variant := SourceOfTruth.org_variant (sc_cat rec) |}) rows)
  = seq 1 (length rows).
Proof.
  apply list_eq. intros i. rewrite list_lookup_fmap, list_lookup_imap.
  destruct (rows !! i) as [r|] eqn:E; cbn.
  - apply lookup_lt_Some in E. rewrite lookup_seq_lt by exact E. f_equal. lia.
  - apply lookup_ge_None in E. symmetry. apply lookup_seq_ge. exact E.
Qed.

Lemma preview_slugs (rows : list scored_row) :
  map pv_slug
      (imap (fun i rec =>
               {| rank := i + 1;
                  pv_slug := sc_slug rec;
                  pv_score := Py.round (sc_final rec) 3;
                  s1_fn := Py.round (fst (fst (sc_parts rec))) 3;
                  s2_kw := Py.round (snd (fst (sc_parts rec))) 3;
                  s3_emb := Py.round (snd (sc_parts rec)) 3;
                  pv_display := SourceOfTruth.display (sc_cat rec);
                  pv_top_entity := SourceOfTruth.top_entity (sc_cat rec);
                  pv_state_variant := SourceOfTruth.state_variant (sc_cat rec);
                  pv_org_variant := SourceOfTruth.org_variant (sc_cat rec) |}) rows)
  = map sc_slug rows.
Proof.
  apply list_eq. intros i. rewrite !list_lookup_fmap, list_lookup_imap.
  destruct (rows !! i); reflexivity.
Qed.

(** X12.  The preview lists the first [topk_show] candidates of the ranking, in
    descending order of the fused score and numbered from 1; the ranking
    holds every candidate once.  The preview shows the fused ranking: its
    first entry is the best fused candidate, rule override or not. *)
Theorem ranking_preview :
  forall (db : Db.database) (doc_row : Db.doc_row) (cats : list SourceOfTruth.Category)
         (cat_vecs : gmap string (list Q)) (fname_cnts : gmap string nat)
         (state : option string) (topk_show : nat) (chunks : list Db.chunk),
    Db.get_chunks db (Db.row_id doc_row) None = Ok chunks ->
    cats <> [] ->
    exists L r,
      categorize_locals cosine db doc_row cats cat_vecs fname_cnts state = Ok L
      /\ categorize_document cosine db doc_row cats cat_vecs fname_cnts state topk_show = Ok r
      /\ Permutation (map sc_cat (l_scored L)) cats
      /\ StronglySorted (fun a b => sc_final b <= sc_final a) (l_scored L)
      /\ length (topk r) = Nat.min topk_show (length cats)
      /\ map rank (topk r) = seq 1 (length (topk r))
      /\ map pv_slug (topk r) = take topk_show (map sc_slug (l_scored L))
      /\ (forall p, head (topk r) = Some p -> pv_score p = Py.round (l_fused L) 3).
Proof.
  intros db doc_row cats cat_vecs fname_cnts state topk_show chunks Hch Hne.
  destruct (categorize_locals_total cosine db doc_row cats cat_vecs fname_cnts state chunks
              Hch Hne) as [L HL].
  exists L, (result_of doc_row topk_show L).
  split; [exact HL|].
  split; [unfold categorize_document; rewrite HL; reflexivity|].
  apply categorize_locals_inv in HL
    as (chunks' & r0 & rest & Hch' & _ & _ & _ & _ & _ & _ & Hsc & Hhd & Hfu & _ & _ & _).
  rewrite Hch in Hch'. injection Hch' as <-.
  assert (Hperm : Permutation (map sc_cat (l_scored L)) cats).
  { rewrite Hsc, score_all_perm, map_map. cbn. rewrite map_id. reflexivity. }
  split; [exact Hperm|].
  split; [rewrite Hsc; apply score_all_sorted|].
  cbn [topk result_of].
  split.
  { rewrite length_imap, length_take.
    rewrite <- (Permutation_length Hperm), length_map. reflexivity. }
  split; [rewrite length_imap; apply preview_ranks|].
  split; [rewrite preview_slugs, <- fmap_take; reflexivity|].
  intros p Hp. rewrite Hhd in Hp. destruct topk_show as [|k]; [discriminate|].
  cbn in Hp. injection Hp as <-. cbn [pv_score]. rewrite Hfu. reflexivity.
Qed.

(** X13.  Without the sentence encoder there is no category vector, and without
    an embedding in the first eight chunks there is no document vector: in
    both cases every embedding score is 0 and no fused score exceeds
    0.70, which only a perfect filename and keyword score reach. *)
Theorem missing_vectors_cap_fused :
  forall (db : Db.database) (doc_row : Db.doc_row) (cats cats' : list SourceOfTruth.Category)
         (cat_vecs : gmap string (list Q)) (fname_cnts : gmap string nat)
         (state : option string) (L : locals),
    build_category_vectors None cats' = ∅
    /\ (categorize_locals cosine db doc_row cats cat_vecs fname_cnts state = Ok L ->
        cat_vecs = ∅ \/ Signals.doc_vector_mean (l_chunks L) 8 = None ->
        Forall (fun r => snd (sc_parts r) = 0.0 /\ sc_final r <= 0.70) (l_scored L)
        /\ l_fused L <= 0.70
        /\ (l_fused L == 0.70 ->
            fst (fst (l_parts L)) == 1 /\ snd (fst (l_parts L)) == 1
            /\ fst (fst (l_weights L)) = 0.40)).
Proof.
  intros db doc_row cats cats' cat_vecs fname_cnts state L.
  split; [reflexivity|].
  intros HL Hmiss.
  apply categorize_locals_inv in HL
    as (chunks & r0 & rest & _ & Hchunks & _ & _ & _ & _ & Hw & Hsc & Hhd & Hfu & Hpa & _ & _).
  rewrite Hchunks in Hmiss.
  pose proof (filename_weight_range (l_generic L) (l_dup_count L)) as [Hw0 Hw1].
  set (w1 := filename_weight (l_generic L) (l_dup_count L)) in *.
  assert (Hrow : forall r, In r (l_scored L) ->
            snd (sc_parts r) = 0.0 /\ sc_final r <= 0.70
            /\ (sc_final r == 0.70 ->
                fst (fst (sc_parts r)) == 1 /\ snd (fst (sc_parts r)) == 1 /\ w1 == 0.40)).
  { intros r Hr. rewrite Hsc in Hr. apply score_all_in in Hr as (c & _ & ->).
    pose proof (row_of_ranges cosine (Db.document_name doc_row) chunks
                  (Signals.doc_vector_mean chunks 8) cat_vecs (l_weights L) c) as Hrg.
    cbv zeta in Hrg. unfold row_of in *. cbn [sc_final sc_parts fst snd] in *.
    destruct Hrg as (_ & [Ha0 Ha1] & [Hb0 Hb1] & _).
    assert (Hz : Signals.score_embeddings cosine (Signals.doc_vector_mean chunks 8)
                   (cat_vecs !! SourceOfTruth.slug c) = 0.0).
    { destruct Hmiss as [-> | ->]; [rewrite lookup_empty|];
        [destruct (Signals.doc_vector_mean chunks 8)|]; reflexivity. }
    rewrite Hz, Hw. split; [reflexivity|].
    set (s1 := Signals.score_filename (Db.document_name doc_row) c) in *.
    set (s2 := Signals.score_keywords chunks c 6) in *.
    assert (Hlin : Fuse.fuse_scores s1 s2 0.0 (w1, 0.30, 0.30) == w1 * s1 + 0.30 * s2 + 0.30 * 0.0).
    { apply fuse_linear; nra. }
    split; [rewrite Hlin; nra|].
    intros H7. rewrite Hlin in H7.
    assert (s2 == 1) by nra. assert (w1 * s1 == 0.40) by nra.
    assert (w1 == 0.40) by nra. assert (s1 == 1) by nra. auto. }
  assert (H0 : In r0 (l_scored L)) by (rewrite Hhd; left; reflexivity).
  split.
  { apply List.Forall_forall. intros r Hr. destruct (Hrow r Hr) as (? & ? & _). auto. }
  destruct (Hrow r0 H0) as (_ & Hle & Heq).
  rewrite Hfu, Hpa. split; [exact Hle|].
  intros H7. destruct (Heq H7) as (? & ? & Hw4). split; [assumption|]. split; [assumption|].
  rewrite Hw. cbn [fst]. fold w1.
  subst w1. unfold filename_weight in *.
  destruct (l_generic L || (3 <=? l_dup_count L)%nat); [exfalso; lra|].
  destruct (l_dup_count L =? 2)%nat; [exfalso; lra | reflexivity].
Qed.

End RankingFacts.

Section RankingWitnesses.
Local Open Scope Q_scope.
Import Resolver.

Lemma ranking_preview_witness :
  exists L r,
    categorize_document Corpus.no_cosine Corpus.db Corpus.gst_doc Corpus.cats ∅
      (Db.filename_counts Corpus.db) (Some "TS") 2 = Ok r
    /\ Permutation (map sc_cat (l_scored L)) Corpus.cats
    /\ length (topk r) = 2%nat.
Proof.
  destruct (ranking_preview Corpus.no_cosine Corpus.db Corpus.gst_doc Corpus.cats ∅
              (Db.filename_counts Corpus.db) (Some "TS") 2
              [(1%Z, "GSTIN: 29ABCDE1234F1Z5", None)])
    as (L & r & _ & Hr & Hp & _ & Hlen & _).
  - reflexivity.
  - discriminate.
  - exists L, r. auto.
Defined.

End RankingWitnesses.

(** ** db.py: queries and the update *)

Section AscendingSort.
Context {A : Type} (key : A -> Z).

Lemma insert_asc_perm (x : A) (l : list A) : Permutation (Py.insert_asc (by_key key) x l) (x :: l).
Proof.
  induction l as [|y l IH]; cbn [Py.insert_asc]; [reflexivity|].
  destruct (by_key key y x); [|reflexivity].
  rewrite IH. apply perm_swap.
Qed.

Lemma sort_asc_perm (l : list A) : Permutation (Py.sort_asc (by_key key) l) l.
Proof.
  induction l as [|x l IH]; cbn [Py.sort_asc fold_right]; [reflexivity|].
  fold (Py.sort_asc (by_key key) l). rewrite insert_asc_perm. constructor. exact IH.
Qed.

Lemma insert_asc_sorted (x : A) (l : list A) :
  StronglySorted (fun a b => (key a <= key b)%Z) l ->
  StronglySorted (fun a b => (key a <= key b)%Z) (Py.insert_asc (by_key key) x l).
Proof.
  induction 1 as [|y l Hs IH Hall]; cbn [Py.insert_asc].
  - repeat constructor.
  - unfold by_key at 1. destruct (Z.ltb_spec (key y) (key x)) as [Hlt|Hge].
    + constructor; [exact IH|].
      apply List.Forall_forall. intros z Hz.
      apply (Permutation_in _ (insert_asc_perm x l)) in Hz as [<-|Hz]; [lia|].
      rewrite List.Forall_forall in Hall. apply Hall. exact Hz.
    + constructor; [constructor; assumption|].
      constructor; [exact Hge|].
      eapply List.Forall_impl; [|exact Hall]. intros z Hz. cbv beta in Hz. lia.
Qed.

Lemma sort_asc_sorted (l : list A) :
  StronglySorted (fun a b => (key a <= key b)%Z) (Py.sort_asc (by_key key) l).
Proof.
  induction l as [|x l IH]; cbn [Py.sort_asc fold_right]; [constructor|].
  apply insert_asc_sorted. exact IH.
Qed.

(** Sorting two lists that agree on the keys, position by position, moves
    their elements alike. *)
Lemma insert_asc_rel (R : A -> A -> Prop) (x x' : A) (l l' : list A) :
  (forall a b, R a b -> key a = key b) ->
  R x x' -> Forall2 R l l' ->
  Forall2 R (Py.insert_asc (by_key key) x l) (Py.insert_asc (by_key key) x' l').
Proof.
  intros Hkey Hx. induction 1 as [|y y' l l' Hy Hl IH]; cbn [Py.insert_asc].
  - repeat constructor. exact Hx.
  - unfold by_key. rewrite (Hkey _ _ Hx), (Hkey _ _ Hy).
    destruct (Z.ltb (key y') (key x')); repeat constructor; assumption.
Qed.

Lemma sort_asc_rel (R : A -> A -> Prop) (l l' : list A) :
  (forall a b, R a b -> key a = key b) ->
  Forall2 R l l' -> Forall2 R (Py.sort_asc (by_key key) l) (Py.sort_asc (by_key key) l').
Proof.
  intros Hkey. induction 1 as [|x x' l l' Hx Hl IH]; cbn [Py.sort_asc fold_right].
  - constructor.
  - apply insert_asc_rel; assumption.
Qed.

End AscendingSort.

Section DbFacts.
Import Db.

(** X14.  The rows come in ascending order of the id, each a stored row with the
    status asked for; a positive limit keeps the first rows.  A limit of 0
    and an empty status are the same as none. *)
Theorem get_documents_ordered :
  forall (db : database) (status_filter : option string) (limit : option nat),
    let rows := get_documents db status_filter limit in
    StronglySorted (fun a b => (row_id a <= row_id b)%Z) rows
    /\ (forall r, In r rows ->
          In r (documents db)
          /\ forall st, status_filter = Some st -> st <> "" -> status r = Some st)
    /\ (forall n, limit = Some (S n) ->
          rows = take (S n) (get_documents db status_filter None)
          /\ length rows <= S n)
    /\ get_documents db status_filter (Some 0) = get_documents db status_filter None
    /\ get_documents db (Some "") limit = get_documents db None limit
    /\ Permutation (get_documents db None None) (documents db)
    /\ (forall st r, st <> "" -> In r (documents db) -> status r = Some st ->
          In r (get_documents db (Some st) None)).
Proof.
  intros db sf limit. cbv zeta.
  set (sel := match sf with
              | Some st =>
                  if Py.truthy st
                  then List.filter (fun r => SourceOfTruth.option_str_eqb (status r) (Some st))
                                   (documents db)
                  else documents db
              | None => documents db
              end).
  set (sorted := Py.sort_asc (fun a b => Z.ltb (row_id a) (row_id b)) sel).
  assert (Hrows : get_documents db sf limit
                  = match limit with Some (S n) => take (S n) sorted | _ => sorted end).
  { reflexivity. }
  assert (Hsorted : StronglySorted (fun a b => (row_id a <= row_id b)%Z) sorted).
  { apply (sort_asc_sorted row_id). }
  assert (Hsel : forall r, In r sel ->
            In r (documents db)
            /\ forall st, sf = Some st -> st <> "" -> status r = Some st).
  { intros r Hr. subst sel. destruct sf as [st|]; [|split; [exact Hr | discriminate]].
    unfold Py.truthy in Hr. destruct (String.eqb_spec st "") as [->|Hne]; cbn [negb] in Hr.
    - split; [exact Hr|]. intros st' [= <-] H. contradiction.
    - apply filter_In in Hr as [Hin Hst]. split; [exact Hin|].
      intros st' [= <-] _. unfold SourceOfTruth.option_str_eqb in Hst.
      destruct (status r) as [s|]; [|discriminate].
      apply String.eqb_eq in Hst. congruence. }
  assert (Hin : forall r, In r sorted -> In r sel).
  { intros r. apply Permutation_in. apply (sort_asc_perm row_id). }
  split.
  { rewrite Hrows. destruct limit as [[|n]|]; try exact Hsorted.
    clear -Hsorted. generalize (S n) as k. induction Hsorted as [|x l Hs IH Hall]; intros k.
    - rewrite take_nil. constructor.
    - destruct k as [|k]; [constructor|]. cbn [take]. constructor; [apply IH|].
      apply List.Forall_forall. intros y Hy. rewrite List.Forall_forall in Hall.
      apply Hall. apply list_elem_of_In. eapply subseteq_take. apply list_elem_of_In. exact Hy. }
  split.
  { intros r Hr. apply Hsel, Hin. rewrite Hrows in Hr.
    destruct limit as [[|n]|]; try exact Hr.
    apply list_elem_of_In. eapply subseteq_take. apply list_elem_of_In. exact Hr. }
  split.
  { intros n ->. split; [reflexivity|]. rewrite Hrows, length_take. lia. }
  split; [reflexivity|].
  split; [reflexivity|].
  split; [apply (sort_asc_perm row_id)|].
  intros st r Hne Hr Hst. unfold get_documents.
  apply (Permutation_in _ (Permutation_sym (sort_asc_perm row_id _))).
  unfold Py.truthy. destruct (String.eqb_spec st "") as [->|_]; [contradiction|]. cbn [negb].
  apply filter_In. split; [exact Hr|]. rewrite Hst. cbn. apply String.eqb_refl.
Qed.

(** X15.  The chunks of a document come in ascending order of the id, or the
    query fails for want of the table; the guard [chunks_table_exists]
    tells which.  Here a limit of 0 is a limit: no chunk is returned. *)
Theorem get_chunks_ordered :
  forall (db : database) (doc_id : Z) (limit : option nat),
    (chunks_table_exists db doc_id = false
     <-> get_chunks db doc_id limit = Err (UndefinedTable doc_id))
    /\ (chunks_table_exists db doc_id = true
        <-> exists chunks, get_chunks db doc_id limit = Ok chunks)
    /\ (forall chunks, get_chunks db doc_id limit = Ok chunks ->
          StronglySorted (fun a b => (chunk_id a <= chunk_id b)%Z) chunks
          /\ (forall n, limit = Some n -> length chunks <= n)
          /\ exists all, get_chunks db doc_id None = Ok all
                         /\ Permutation all (default [] (chunk_tables db !! doc_id))
                         /\ chunks = match limit with Some n => take n all | None => all end)
    /\ (chunks_table_exists db doc_id = true -> get_chunks db doc_id (Some 0) = Ok []).
Proof.
  intros db doc_id limit. unfold chunks_table_exists, get_chunks.
  destruct (chunk_tables db !! doc_id) as [rows|] eqn:E.
  - split; [split; discriminate|].
    split; [split; [eexists; reflexivity | reflexivity]|].
    split; [|intros _; reflexivity].
    intros chunks [= <-].
    set (sorted := Py.sort_asc (fun a b => Z.ltb (chunk_id a) (chunk_id b)) rows).
    assert (Hsorted : StronglySorted (fun a b => (chunk_id a <= chunk_id b)%Z) sorted).
    { apply (sort_asc_sorted chunk_id). }
    split.
    { destruct limit as [k|]; [|exact Hsorted].
      clear -Hsorted. revert k. induction Hsorted as [|x l Hs IH Hall]; intros k.
      - rewrite take_nil. constructor.
      - destruct k as [|k]; [constructor|]. cbn [take]. constructor; [apply IH|].
        apply List.Forall_forall. intros y Hy. rewrite List.Forall_forall in Hall.
        apply Hall. apply list_elem_of_In. eapply subseteq_take. apply list_elem_of_In.
        exact Hy. }
    split; [intros n ->; rewrite length_take; lia|].
    exists sorted. split; [reflexivity|]. split; [apply (sort_asc_perm chunk_id)|].
    reflexivity.
  - split; [split; reflexivity|].
    split; [split; [discriminate | intros [c Hc]; discriminate]|].
    split; [discriminate | discriminate].
Qed.

Lemma filename_counts_names (db db' : database) :
  map document_name (documents db') = map document_name (documents db) ->
  filename_counts db' = filename_counts db.
Proof.
  unfold filename_counts. generalize (∅ : gmap string nat) as m.
  generalize (documents db') as l'. induction (documents db) as [|r l IH]; intros l' m H.
  - destruct l'; [reflexivity | discriminate].
  - destruct l' as [|r' l']; [discriminate|]. injection H as Hn Hl.
    cbn [fold_left]. rewrite Hn. apply IH. exact Hl.
Qed.

Lemma update_match_documents doc_id slug te ov sv conf st (db : database) :
  documents (update_match doc_id slug te ov sv conf st db)
  = map (touched doc_id slug te ov sv conf st) (documents db).
Proof. reflexivity. Qed.

Lemma touched_id doc_id slug te ov sv conf st (r : doc_row) :
  row_id (touched doc_id slug te ov sv conf st r) = row_id r
  /\ document_name (touched doc_id slug te ov sv conf st r) = document_name r.
Proof. unfold touched. destruct (Z.eqb _ _); split; reflexivity. Qed.

(** X16.  An update rewrites the six result columns of the rows with the given
    id and nothing else: ids, names, the other rows, the chunk tables and
    the filename histogram stay.  An id that is not stored changes
    nothing, repeating an update changes nothing, and of two updates of
    one id the later stands (the time stamp [updated_at], which no query
    of the repository reads, apart). *)
Theorem update_match_frame :
  forall (doc_id : Z) (slug te ov sv : option string) (conf : option Q) (st : string)
         (slug' te' ov' sv' : option string) (conf' : option Q) (st' : string)
         (db : database),
    let db' := update_match doc_id slug te ov sv conf st db in
    chunk_tables db' = chunk_tables db
    /\ map row_id (documents db') = map row_id (documents db)
    /\ map document_name (documents db') = map document_name (documents db)
    /\ filename_counts db' = filename_counts db
    /\ (forall i r', documents db' !! i = Some r' ->
          exists r, documents db !! i = Some r
            /\ (row_id r <> doc_id -> r' = r)
            /\ (row_id r = doc_id ->
                canonical_slug r' = slug /\ top_entity r' = te /\ org_variant r' = ov
                /\ state_variant r' = sv /\ confidence r' = conf /\ status r' = Some st))
    /\ (get_document db doc_id = None -> db' = db)
    /\ update_match doc_id slug te ov sv conf st db' = db'
    /\ update_match doc_id slug te ov sv conf st
         (update_match doc_id slug' te' ov' sv' conf' st' db) = db'.
Proof.
  intros doc_id slug te ov sv conf st slug' te' ov' sv' conf' st' db. cbv zeta.
  assert (Hids : map row_id (documents (update_match doc_id slug te ov sv conf st db))
                 = map row_id (documents db)).
  { rewrite update_match_documents, map_map. apply map_ext. intros r. apply touched_id. }
  assert (Hnames : map document_name (documents (update_match doc_id slug te ov sv conf st db))
                   = map document_name (documents db)).
  { rewrite update_match_documents, map_map. apply map_ext. intros r. apply touched_id. }
  split; [reflexivity|]. split; [exact Hids|]. split; [exact Hnames|].
  split; [apply filename_counts_names; exact Hnames|].
  split.
  { intros i r' Hi. rewrite update_match_documents, list_lookup_fmap in Hi.
    destruct (documents db !! i) as [r|]; [|discriminate]. injection Hi as <-.
    exists r. split; [reflexivity|]. unfold touched.
    destruct (Z.eqb_spec (row_id r) doc_id) as [He|Hn].
    - split; [contradiction|]. intros _. repeat split.
    - split; [reflexivity | contradiction]. }
  split.
  { intros Hnone. destruct db as [docs tabs]. unfold update_match, get_document in *.
    cbn [documents chunk_tables] in *. f_equal.
    rewrite <- (map_id docs) at 2. apply map_ext_in. intros r Hr.
    apply (List.find_none _ _ Hnone) in Hr. cbv beta in Hr. rewrite Hr. reflexivity. }
  split.
  { unfold update_match. cbn [documents chunk_tables]. f_equal.
    rewrite map_map. apply map_ext. intros r.
    destruct (Z.eqb_spec (row_id r) doc_id) as [He|Hn]; cbn [row_id].
    - rewrite He, Z.eqb_refl. reflexivity.
    - apply Z.eqb_neq in Hn. rewrite Hn. reflexivity. }
  unfold update_match. cbn [documents chunk_tables]. f_equal.
  rewrite map_map. apply map_ext. intros r.
  destruct (Z.eqb_spec (row_id r) doc_id) as [He|Hn]; cbn [row_id document_name].
  - rewrite He, Z.eqb_refl. reflexivity.
  - apply Z.eqb_neq in Hn. rewrite Hn. reflexivity.
Qed.

End DbFacts.

(** ** resolver.py: the batch run *)

Section RunFacts.
Import Resolver.
Variable cosine : list Q -> list Q -> Q.

Lemma database_ext (a b : Db.database) :
  Db.documents a = Db.documents b -> Db.chunk_tables a = Db.chunk_tables b -> a = b.
Proof. destruct a, b. cbn. intros -> ->. reflexivity. Qed.

(** The classification reads the store through the chunk tables only, and
    the row through its id and name. *)
Lemma categorize_document_reads (db db' : Db.database) (row row' : Db.doc_row)
    cats cat_vecs fname_cnts state topk_show :
  Db.chunk_tables db = Db.chunk_tables db' -> same_document row row' ->
  categorize_document cosine db row cats cat_vecs fname_cnts state topk_show
  = categorize_document cosine db' row' cats cat_vecs fname_cnts state topk_show.
Proof.
  intros Ht [Hi Hn].
  unfold categorize_document, categorize_locals, result_of, Db.get_chunks.
  rewrite Ht, Hi, Hn. reflexivity.
Qed.

Lemma result_write_same (w : Z * ClassificationResult) (r : Db.doc_row) :
  same_document r (result_write w r).
Proof. unfold result_write, touched. destruct (Z.eqb _ _); split; reflexivity. Qed.

Lemma result_writes_same (ws : list (Z * ClassificationResult)) (r : Db.doc_row) :
  same_document r (result_writes ws r).
Proof.
  revert r. induction ws as [|w ws IH]; intros r; [split; reflexivity|].
  cbn [result_writes fold_left]. destruct (result_write_same w r) as [Hi Hn].
  destruct (IH (result_write w r)) as [Hi' Hn']. unfold result_writes in *.
  split; congruence.
Qed.

Lemma result_writes_app (ws ws' : list (Z * ClassificationResult)) (r : Db.doc_row) :
  result_writes (ws ++ ws') r = result_writes ws' (result_writes ws r).
Proof. unfold result_writes. apply fold_left_app. Qed.

(** Rows of one document end alike, unless no write concerns them. *)
Lemma result_writes_cases (ws : list (Z * ClassificationResult)) :
  forall r r', same_document r r' ->
    (result_writes ws r = r /\ result_writes ws r' = r')
    \/ result_writes ws r = result_writes ws r'.
Proof.
  induction ws as [|w ws IH]; intros r r' [Hi Hn]; [left; split; reflexivity|].
  assert (Hstep : result_write w r = result_write w r'
                  \/ (result_write w r = r /\ result_write w r' = r')).
  { unfold result_write, touched. rewrite <- Hi.
    destruct (Z.eqb (Db.row_id r) (fst w)); [left; rewrite Hn; reflexivity | right; auto]. }
  unfold result_writes in *. cbn [fold_left].
  destruct Hstep as [-> | [-> ->]]; [right; reflexivity|].
  apply IH. split; assumption.
Qed.

Lemma result_writes_idem (ws : list (Z * ClassificationResult)) (r : Db.doc_row) :
  result_writes ws (result_writes ws r) = result_writes ws r.
Proof.
  destruct (result_writes_cases ws r (result_writes ws r) (result_writes_same ws r))
    as [[H1 H2]|H].
  - exact H2.
  - symmetry. exact H.
Qed.

Lemma apply_result_documents (row : Db.doc_row) (res : ClassificationResult)
    (db : Db.database) :
  Db.documents (apply_result row res db)
  = map (result_write (Db.row_id row, res)) (Db.documents db)
  /\ Db.chunk_tables (apply_result row res db) = Db.chunk_tables db.
Proof. split; reflexivity. Qed.

(** The loop, run on two stores with the same chunk tables over rows of
    the same documents: the same results, the same failure, and the same
    writes, row by row. *)
Lemma run_loop_writes cats cat_vecs fname_cnts state :
  forall (docs docs' : list Db.doc_row), Forall2 same_document docs docs' ->
  forall (apply : bool) (dbA dbB : Db.database) (results : list ClassificationResult),
    Db.chunk_tables dbA = Db.chunk_tables dbB ->
    exists (ws : list (Z * ClassificationResult)) (e : option exn),
      let rs := results ++ map snd ws in
      let ws' := if apply then ws else [] in
      map fst ws = take (length ws) (map Db.row_id docs)
      /\ map (fun w => doc_id (snd w)) ws = map fst ws
      /\ (e = None -> length ws = length docs)
      /\ run_loop cosine docs cats cat_vecs fname_cnts state apply dbA results
         = ({| Db.documents := map (result_writes ws') (Db.documents dbA);
               Db.chunk_tables := Db.chunk_tables dbA |}, rs, e)
      /\ run_loop cosine docs' cats cat_vecs fname_cnts state true dbB results
         = ({| Db.documents := map (result_writes ws) (Db.documents dbB);
               Db.chunk_tables := Db.chunk_tables dbB |}, rs, e).
Proof.
  induction 1 as [|row row' docs docs' Hrow Hdocs IH]; intros apply dbA dbB results Ht.
  - exists [], None. cbv zeta. cbn [run_loop map length take].
    rewrite app_nil_r. destruct apply; cbn [result_writes fold_left];
      rewrite !map_id; destruct dbA, dbB; auto.
  - cbn [run_loop].
    assert (Hid : forall res,
              categorize_document cosine dbA row cats cat_vecs fname_cnts (Some state) 3
              = Ok res -> doc_id res = Db.row_id row).
    { intros res Hres. unfold categorize_document in Hres.
      destruct (categorize_locals _ _ _ _ _ _ _) as [L|]; [|discriminate].
      cbn [bind] in Hres. injection Hres as <-. reflexivity. }
    rewrite <- (categorize_document_reads dbA dbB row row' cats cat_vecs fname_cnts
                  (Some state) 3 Ht Hrow).
    destruct (categorize_document cosine dbA row cats cat_vecs fname_cnts (Some state) 3)
      as [res|e].
    + destruct (IH apply (if apply then apply_result row res dbA else dbA)
                  (apply_result row' res dbB) (results ++ [res]))
        as (ws & e & H1 & H1' & H2 & HA & HB).
      { destruct apply; cbn; exact Ht. }
      exists ((Db.row_id row, res) :: ws), e. cbv zeta in *.
      split; [cbn; f_equal; exact H1|].
      split; [cbn; f_equal; [apply Hid; reflexivity | exact H1']|].
      split; [intros He; cbn; f_equal; apply H2; exact He|].
      split.
      * rewrite HA, <- app_assoc. cbn [map snd app]. f_equal. f_equal.
        destruct apply.
        -- cbn [Db.documents Db.chunk_tables apply_result Db.update_match]. f_equal.
           rewrite map_map. reflexivity.
        -- reflexivity.
      * rewrite HB, <- app_assoc. cbn [map snd app]. f_equal. f_equal.
        destruct Hrow as [Hi _]. rewrite Hi.
        cbn [Db.documents Db.chunk_tables apply_result Db.update_match]. f_equal.
        rewrite map_map. reflexivity.
    + exists [], (Some e). cbv zeta. cbn [map length take]. rewrite app_nil_r.
      split; [reflexivity|]. split; [reflexivity|]. split; [discriminate|].
      destruct apply; cbn [result_writes fold_left]; rewrite !map_id;
        destruct dbA, dbB; auto.
Qed.

Lemma Forall2_same_refl (l : list Db.doc_row) : Forall2 same_document l l.
Proof. induction l; constructor; [split; reflexivity | assumption]. Qed.

Lemma Forall2_same_map (f : Db.doc_row -> Db.doc_row) (l : list Db.doc_row) :
  (forall r, same_document r (f r)) -> Forall2 same_document l (map f l).
Proof. intros Hf. induction l; constructor; [apply Hf | assumption]. Qed.

Lemma same_names (l l' : list Db.doc_row) :
  Forall2 same_document l l' ->
  map Db.row_id l = map Db.row_id l' /\ map Db.document_name l = map Db.document_name l'.
Proof.
  induction 1 as [|r r' l l' [Hi Hn] _ [IH1 IH2]]; [split; reflexivity|].
  cbn. rewrite Hi, Hn, IH1, IH2. split; reflexivity.
Qed.

Lemma get_documents_same (db db' : Db.database) (limit : option nat) :
  Forall2 same_document (Db.documents db) (Db.documents db') ->
  Forall2 same_document (Db.get_documents db None limit) (Db.get_documents db' None limit).
Proof.
  intros H. unfold Db.get_documents.
  assert (Hs : Forall2 same_document
                 (Py.sort_asc (fun a b => Z.ltb (Db.row_id a) (Db.row_id b)) (Db.documents db))
                 (Py.sort_asc (fun a b => Z.ltb (Db.row_id a) (Db.row_id b)) (Db.documents db'))).
  { apply (sort_asc_rel Db.row_id); [|exact H]. intros a b [Hi _]. exact Hi. }
  destruct limit as [[|n]|]; try exact Hs. apply Forall2_take. exact Hs.
Qed.

(** X17.  A dry run leaves the store as it is and is a faithful preview: the run
    with [apply] gives the same results and stops at the same failure.
    The writes of that run keep the ids, the names and the chunk tables,
    and without a failure there is one result per listed document, in
    order. *)
Theorem dry_run_previews_apply :
  forall (all_cats : list SourceOfTruth.Category)
         (model : option (list string -> list (list Q)))
         (state : string) (limit : option nat) (db : Db.database),
    let dry := run cosine all_cats model state limit false db in
    let wet := run cosine all_cats model state limit true db in
    fst (fst dry) = db
    /\ snd (fst wet) = snd (fst dry)
    /\ snd wet = snd dry
    /\ Db.chunk_tables (fst (fst wet)) = Db.chunk_tables db
    /\ map Db.row_id (Db.documents (fst (fst wet))) = map Db.row_id (Db.documents db)
    /\ map Db.document_name (Db.documents (fst (fst wet)))
       = map Db.document_name (Db.documents db)
    /\ map doc_id (snd (fst dry))
       = take (length (snd (fst dry))) (map Db.row_id (Db.get_documents db None limit))
    /\ (snd dry = None ->
        map doc_id (snd (fst dry)) = map Db.row_id (Db.get_documents db None limit)).
Proof.
  intros all_cats model state limit db. cbv zeta. unfold run.
  set (cats := SourceOfTruth.filter_by_state all_cats (Some state)).
  set (cat_vecs := build_category_vectors model cats).
  set (cnts := Db.filename_counts db).
  set (docs := Db.get_documents db None limit).
  destruct (run_loop_writes cats cat_vecs cnts state docs docs (Forall2_same_refl docs)
              false db db [] eq_refl) as (ws & e & Hids & Hdoc & Hlen & Hdry & Hwet).
  cbv zeta in *. rewrite Hdry, Hwet. cbn [fst snd app Db.chunk_tables Db.documents].
  assert (Hsame : Forall2 same_document (Db.documents db)
                    (map (result_writes ws) (Db.documents db))).
  { apply Forall2_same_map. apply result_writes_same. }
  apply same_names in Hsame as [Hi Hn].
  split.
  { apply database_ext; cbn [Db.documents Db.chunk_tables]; [|reflexivity].
    cbn [result_writes fold_left]. apply map_id. }
  split; [reflexivity|]. split; [reflexivity|]. split; [reflexivity|].
  split; [symmetry; exact Hi|]. split; [symmetry; exact Hn|].
  assert (Hres : map doc_id (map snd ws) = map fst ws).
  { rewrite map_map. exact Hdoc. }
  rewrite Hres.
  split.
  { rewrite length_map. exact Hids. }
  intros He. rewrite Hids, (Hlen He), <- (length_map Db.row_id docs). apply firstn_all.
Qed.

(** X18.  Running with [apply] a second time repeats the first run: the same
    results, the same failure, and a store left as the first run left
    it, in the columns [get_documents] reads. *)
Theorem apply_run_idempotent :
  forall (all_cats : list SourceOfTruth.Category)
         (model : option (list string -> list (list Q)))
         (state : string) (limit : option nat) (db : Db.database),
    run cosine all_cats model state limit true
        (fst (fst (run cosine all_cats model state limit true db)))
    = run cosine all_cats model state limit true db.
Proof.
  intros all_cats model state limit db. unfold run.
  set (cats := SourceOfTruth.filter_by_state all_cats (Some state)).
  set (cat_vecs := build_category_vectors model cats).
  set (docs := Db.get_documents db None limit).
  destruct (run_loop_writes cats cat_vecs (Db.filename_counts db) state docs docs
              (Forall2_same_refl docs) true db db [] eq_refl)
    as (ws0 & e0 & _ & _ & _ & Hfirst & _).
  cbv zeta in Hfirst. rewrite Hfirst. cbn [fst snd].
  set (db1 := {| Db.documents := map (result_writes ws0) (Db.documents db);
                 Db.chunk_tables := Db.chunk_tables db |}).
  assert (Hsame : Forall2 same_document (Db.documents db) (Db.documents db1)).
  { apply Forall2_same_map. apply result_writes_same. }
  assert (Hcnt : Db.filename_counts db1 = Db.filename_counts db).
  { apply filename_counts_names. symmetry. apply (same_names _ _ Hsame). }
  rewrite Hcnt.
  destruct (run_loop_writes cats cat_vecs (Db.filename_counts db) state docs
              (Db.get_documents db1 None limit) (get_documents_same db db1 limit Hsame)
              true db db1 [] eq_refl)
    as (ws & e & _ & _ & _ & HA & HB).
  cbv zeta in HA, HB. rewrite HB. rewrite HA in Hfirst.
  injection Hfirst as Hdocs Hrs He.
  f_equal; [f_equal|].
  - apply database_ext; cbn [Db.documents Db.chunk_tables]; [|reflexivity].
    subst db1. cbn [Db.documents]. rewrite <- Hdocs, map_map.
    apply map_ext. intros r. apply result_writes_idem.
  - exact Hrs.
  - exact He.
Qed.

End RunFacts.

(** ** source_of_truth.py: candidates by state *)

Section StateFacts.
Import SourceOfTruth.

Lemma list_filter_sublist {A : Type} (f : A -> bool) (l : list A) :
  sublist (List.filter f l) l.
Proof.
  induction l as [|x l IH]; cbn [List.filter]; [constructor|].
  destruct (f x); [apply sublist_skip | apply sublist_cons]; exact IH.
Qed.

Lemma list_filter_idem {A : Type} (f : A -> bool) (l : list A) :
  List.filter f (List.filter f l) = List.filter f l.
Proof.
  induction l as [|x l IH]; cbn [List.filter]; [reflexivity|].
  destruct (f x) eqn:E; [|exact IH]. cbn [List.filter]. rewrite E, IH. reflexivity.
Qed.

Lemma option_str_eqb_eq (a b : option string) : option_str_eqb a b = true <-> a = b.
Proof.
  destruct a as [x|], b as [y|]; cbn; try (split; congruence).
  rewrite String.eqb_eq. split; congruence.
Qed.

Lemma filter_by_state_norm (cats : list Category) (state state' : option string) :
  _norm_state state = _norm_state state' ->
  filter_by_state cats state = filter_by_state cats state'.
Proof. intros H. unfold filter_by_state. rewrite H. reflexivity. Qed.

(** X19.  A candidate list keeps the order of the categories.  A state-agnostic
    category is always a candidate; an approval or land category is one
    exactly when its state is the normalized state asked for, so without a
    state none is.  The state may be spelled out or abbreviated, in any
    letter case and with blanks around. *)
Theorem filter_by_state_candidates :
  forall (cats : list Category) (state : option string) (c : Category) (v : string),
    (In c (filter_by_state cats state)
     <-> In c cats
         /\ (state_specific c = false
             \/ exists s, _norm_state state = Some s /\ state_variant c = Some s))
    /\ sublist (filter_by_state cats state) cats
    /\ filter_by_state (filter_by_state cats state) state = filter_by_state cats state
    /\ filter_by_state cats None = List.filter (fun c => negb (state_specific c)) cats
    /\ (Py.upper (Py.strip v) = "TELANGANA" \/ Py.upper (Py.strip v) = "TS" ->
        filter_by_state cats (Some v) = filter_by_state cats (Some "TS"))
    /\ (Py.upper (Py.strip v) = "KARNATAKA" \/ Py.upper (Py.strip v) = "KA" ->
        filter_by_state cats (Some v) = filter_by_state cats (Some "KA")).
Proof.
  intros cats state c v.
  split.
  { unfold filter_by_state. rewrite filter_In. fold (state_specific c).
    split; intros [Hin H]; (split; [exact Hin|]).
    - destruct (state_specific c); [|left; reflexivity]. right.
      destruct (_norm_state state) as [s|]; [|discriminate].
      apply option_str_eqb_eq in H. eauto.
    - destruct H as [-> | (s & Hs & Hv)]; [reflexivity|].
      rewrite Hs. destruct (state_specific c); [|reflexivity].
      apply option_str_eqb_eq. exact Hv. }
  split; [apply list_filter_sublist|].
  split; [apply list_filter_idem|].
  split.
  { unfold filter_by_state. cbn [_norm_state]. apply filter_ext. intros a.
    unfold state_specific. destruct (_ || _); reflexivity. }
  split.
  - intros H. apply filter_by_state_norm. cbn [_norm_state].
    destruct H as [-> | ->]; reflexivity.
  - intros H. apply filter_by_state_norm. cbn [_norm_state].
    destruct H as [-> | ->]; reflexivity.
Qed.

Lemma mem_str_In (x : string) (l : list string) : Fuzz.mem_str x l = true <-> In x l.
Proof.
  unfold Fuzz.mem_str. rewrite existsb_exists. split.
  - intros (y & Hy & He). apply String.eqb_eq in He. subst. exact Hy.
  - intros H. exists x. split; [exact H | apply String.eqb_refl].
Qed.

Lemma uniq_first_nil (seen l : list string) :
  uniq_first seen l = [] <-> forall x, In x l -> In x seen.
Proof.
  revert seen. induction l as [|y l IH]; intros seen; cbn [uniq_first].
  - split; [intros _ x [] | reflexivity].
  - destruct (Fuzz.mem_str y seen) eqn:E.
    + rewrite IH. apply mem_str_In in E. split.
      * intros H x [<-|Hx]; [exact E | apply H; exact Hx].
      * intros H x Hx. apply H. right. exact Hx.
    + split; [discriminate|]. intros H. exfalso.
      assert (Hy : In y seen) by (apply H; left; reflexivity).
      apply mem_str_In in Hy. congruence.
Qed.

Lemma uniq_first_single (l : list string) (u : string) :
  uniq_first [] l = [u] <-> l <> [] /\ forall x, In x l -> x = u.
Proof.
  destruct l as [|y l]; cbn [uniq_first Fuzz.mem_str existsb].
  - split; [discriminate | intros [H _]; contradiction].
  - split.
    + intros [= -> Hn]. split; [discriminate|].
      rewrite uniq_first_nil in Hn. intros x [<-|Hx]; [reflexivity|].
      destruct (Hn x Hx) as [<-|[]]. reflexivity.
    + intros [_ H]. rewrite (H y (or_introl eq_refl)). f_equal.
      apply uniq_first_nil. intros x Hx. left. symmetry. apply H. right. exact Hx.
Qed.

(** X20.  The organization type is kept exactly when the non-empty entries name
    one type, letter case apart, and there is such an entry. *)
Theorem first_org_single :
  forall (org_types : option (list string)) (o : string),
    (_first_org org_types = Some o
     <-> exists l, org_types = Some l
           /\ (exists x, In x l /\ x <> "")
           /\ forall x, In x l -> x <> "" -> Py.lower x = o)
    /\ _first_org None = None
    /\ _first_org (Some []) = None.
Proof.
  intros org_types o. split; [|split; reflexivity].
  assert (Htruthy : forall x, Py.truthy x = true <-> x <> "").
  { intros x. unfold Py.truthy. destruct (String.eqb_spec x ""); cbn; split; congruence. }
  destruct org_types as [l|]; [|split; [discriminate | intros (l & H & _); discriminate]].
  assert (Hcore : match uniq_first [] (map Py.lower (List.filter Py.truthy l)) with
                  | [u] => Some u
                  | _ => None
                  end = Some o
                  <-> (exists x, In x l /\ x <> "")
                      /\ forall x, In x l -> x <> "" -> Py.lower x = o).
  { destruct (uniq_first [] (map Py.lower (List.filter Py.truthy l))) as [|u [|u' rest]] eqn:E.
    - split; [discriminate|]. intros [(x & Hx & Hne) Hall]. exfalso.
      rewrite uniq_first_nil in E. apply (E (Py.lower x)). apply in_map.
      apply filter_In. split; [exact Hx | apply Htruthy; exact Hne].
    - apply uniq_first_single in E as [Hne Hall]. split.
      + intros [= <-]. split.
        * destruct (List.filter Py.truthy l) as [|x ys] eqn:Ef; [contradiction|].
          assert (Hx : In x (List.filter Py.truthy l)) by (rewrite Ef; left; reflexivity).
          apply filter_In in Hx as [Hx Ht]. exists x. split; [exact Hx | apply Htruthy; exact Ht].
        * intros x Hx Hn. apply Hall. apply in_map. apply filter_In.
          split; [exact Hx | apply Htruthy; exact Hn].
      + intros [(x & Hx & Hn) Ho]. f_equal. rewrite <- (Ho x Hx Hn). symmetry.
        apply Hall. apply in_map. apply filter_In. split; [exact Hx | apply Htruthy; exact Hn].
    - split; [discriminate|]. intros [_ Ho]. exfalso.
      assert (Hsingle : uniq_first [] (map Py.lower (List.filter Py.truthy l)) = [o]).
      { apply uniq_first_single. split.
        - intros Hnil. rewrite Hnil in E. discriminate.
        - intros y Hy. apply in_map_iff in Hy as (x & <- & Hx).
          apply filter_In in Hx as [Hx Ht]. apply Ho; [exact Hx | apply Htruthy; exact Ht]. }
      rewrite Hsingle in E. discriminate. }
  destruct l as [|x0 l0].
  - split; [discriminate|]. intros (l & [= <-] & (x & [] & _) & _).
  - unfold _first_org. rewrite Hcore. split.
    + intros H. exists (x0 :: l0). split; [reflexivity | exact H].
    + intros (l & [= <-] & H). exact H.
Qed.

Lemma find_snoc {A : Type} (f : A -> bool) (l : list A) (c : A) :
  List.find f (l ++ [c])
  = match List.find f l with
    | Some x => Some x
    | None => if f c then Some c else None
    end.
Proof.
  induction l as [|x l IH]; cbn [List.find app]; [reflexivity|].
  destruct (f x); [reflexivity | exact IH].
Qed.

Lemma by_slug_fold (cats : list Category) (m : gmap string Category) (s : string) :
  fold_left (fun (m : gmap string Category) c => <[slug c := c]> m) cats m !! s
  = match List.find (fun c => String.eqb (slug c) s) (rev cats) with
    | Some c => Some c
    | None => m !! s
    end.
Proof.
  revert m. induction cats as [|c cats IH]; intros m; cbn [fold_left rev List.find];
    [reflexivity|].
  rewrite IH, find_snoc.
  destruct (List.find (fun c0 => String.eqb (slug c0) s) (rev cats)); [reflexivity|].
  destruct (String.eqb_spec (slug c) s) as [<-|Hne].
  - apply lookup_insert_eq.
  - apply lookup_insert_ne. exact Hne.
Qed.

(** X21.  The index by slug holds, for every slug, the last category that has
    it; with distinct slugs it holds every category. *)
Theorem by_slug_last_wins :
  forall (cats : list Category) (s : string),
    by_slug cats !! s = List.find (fun c => String.eqb (slug c) s) (rev cats)
    /\ (is_Some (by_slug cats !! s) <-> In s (map slug cats))
    /\ (forall c, by_slug cats !! s = Some c -> In c cats /\ slug c = s)
    /\ (NoDup (map slug cats) -> forall c, In c cats -> by_slug cats !! slug c = Some c).
Proof.
  intros cats s.
  assert (Hfind : forall s, by_slug cats !! s
                       = List.find (fun c => String.eqb (slug c) s) (rev cats)).
  { intros s0. unfold by_slug. rewrite by_slug_fold, lookup_empty.
    destruct (List.find _ _); reflexivity. }
  assert (Hsome : forall s c, by_slug cats !! s = Some c -> In c cats /\ slug c = s).
  { intros s0 c Hc. rewrite Hfind in Hc. apply List.find_some in Hc as [Hin He].
    apply String.eqb_eq in He. split; [apply in_rev; exact Hin | exact He]. }
  split; [apply Hfind|].
  split.
  { split.
    - intros [c Hc]. destruct (Hsome s c Hc) as [Hin <-]. apply in_map. exact Hin.
    - intros Hin. apply in_map_iff in Hin as (c & Hs & Hc). rewrite Hfind.
      destruct (List.find (fun c0 => String.eqb (slug c0) s) (rev cats)) as [c'|] eqn:E;
        [eexists; reflexivity|].
      exfalso. apply in_rev in Hc. apply (List.find_none _ _ E) in Hc. cbv beta in Hc.
      rewrite Hs, String.eqb_refl in Hc. discriminate. }
  split; [apply Hsome|].
  intros Hnd c Hc.
  destruct (by_slug cats !! slug c) as [c'|] eqn:E.
  - destruct (Hsome _ _ E) as [Hin' Hs']. f_equal.
    clear -Hnd Hc Hin' Hs'. induction cats as [|x cats IH]; [destruct Hc|].
    cbn [map] in Hnd. apply NoDup_cons in Hnd as [Hx Hnd].
    destruct Hc as [->|Hc], Hin' as [->|Hin'].
    + reflexivity.
    + exfalso. apply Hx. rewrite <- Hs'. apply list_elem_of_In, in_map. exact Hin'.
    + exfalso. apply Hx. rewrite Hs'. apply list_elem_of_In, in_map. exact Hc.
    + apply IH; assumption.
  - exfalso. rewrite Hfind in E. apply in_rev in Hc.
    apply (List.find_none _ _ E) in Hc. cbv beta in Hc. rewrite String.eqb_refl in Hc.
    discriminate.
Qed.

End StateFacts.

(** ** entity_role_infer.py: features, scores and the write-back *)

Section RoleFacts.
Import EntityRoleInfer.

Lemma list_sum_cons (x : nat) (l : list nat) : list_sum (x :: l) = x + list_sum l.
Proof. reflexivity. Qed.

Lemma strong_not_common (f : string) :
  Fuzz.mem_str f DEV_STRONG = true -> Fuzz.mem_str f DEV_COMMON = false.
Proof.
  intros H. apply mem_str_In in H. cbn in H.
  repeat (destruct H as [<-|H]; [reflexivity|]). destruct H.
Qed.

Lemma score_role_fold (features : Counter) (acc : nat) :
  fold_left
    (fun dev '(f, c) =>
       if Fuzz.mem_str f DEV_STRONG then dev + 2 * c
       else if Fuzz.mem_str f DEV_COMMON then dev + 1 * c
       else dev)
    features acc
  = acc + 2 * counted DEV_STRONG features + counted DEV_COMMON features.
Proof.
  revert acc. unfold counted.
  induction features as [|[f c] fs IH]; intros acc; cbn [fold_left List.filter].
  - cbn. lia.
  - rewrite IH. destruct (Fuzz.mem_str f DEV_STRONG) eqn:Es.
    + rewrite (strong_not_common f Es). cbn [map snd]; rewrite ?list_sum_cons. lia.
    + destruct (Fuzz.mem_str f DEV_COMMON); cbn [map snd]; rewrite ?list_sum_cons; lia.
Qed.

(** X22.  The developer score is twice the documents with a strong feature plus
    those with a common one, the group score the latter alone: the group
    score never exceeds the developer score, and a cluster of [n] counted
    documents scores at most [2 n]. *)
Theorem score_role_dev_dominates :
  forall (features : Counter),
    fst (score_role features)
    = 2 * counted DEV_STRONG features + counted DEV_COMMON features
    /\ snd (score_role features) = counted DEV_COMMON features
    /\ snd (score_role features) <= fst (score_role features)
    /\ fst (score_role features) <= 2 * list_sum (map snd features)
    /\ (fst (score_role features) = snd (score_role features)
        <-> counted DEV_STRONG features = 0).
Proof.
  intros features. unfold score_role. cbn [fst snd]. rewrite score_role_fold.
  fold (counted DEV_COMMON features).
  assert (Hsum : counted DEV_STRONG features + counted DEV_COMMON features
                 <= list_sum (map snd features)).
  { unfold counted. induction features as [|[f c] l IH];
      cbn [List.filter map snd]; rewrite ?list_sum_cons; [cbn; lia|].
    destruct (Fuzz.mem_str f DEV_STRONG) eqn:Es.
    - rewrite (strong_not_common f Es). cbn [map snd]; rewrite ?list_sum_cons. lia.
    - destruct (Fuzz.mem_str f DEV_COMMON); cbn [map snd]; rewrite ?list_sum_cons; lia. }
  repeat split; lia.
Qed.

Lemma lower_char_idem (c : ascii) : Py.lower_char (Py.lower_char c) = Py.lower_char c.
Proof. destruct c as [[] [] [] [] [] [] [] []]; reflexivity. Qed.

Lemma lower_idem (s : string) : Py.lower (Py.lower s) = Py.lower s.
Proof.
  unfold Py.lower. rewrite chars_str, map_map. f_equal. apply map_ext.
  intros c. apply lower_char_idem.
Qed.

(** X23.  Every feature read off a slug is one the scores count, whatever the
    letter case of the slug; a bank statement of the directors is no
    entity feature. *)
Theorem feature_from_slug_counted :
  forall (slug : string),
    match feature_from_slug slug with
    | Some f => In f (DEV_STRONG ++ DEV_COMMON)
    | None => True
    end
    /\ feature_from_slug (Py.lower slug) = feature_from_slug slug
    /\ (feature_from_slug slug = Some "bank_stmt_entity" ->
        Py.contains "bank_stmt" (Py.lower slug) = true
        /\ Py.contains "directors" (Py.lower slug) = false)
    /\ (forall features f,
          feature_from_slug slug = Some f ->
          fst (score_role (counter_incr f features)) > fst (score_role features)).
Proof.
  intros slug.
  assert (Hin : match feature_from_slug slug with
                | Some f => In f (DEV_STRONG ++ DEV_COMMON)
                | None => True
                end).
  { unfold feature_from_slug.
    repeat match goal with
           | |- context [if ?b then _ else _] => destruct b; [cbn; tauto|]
           end.
    exact I. }
  split; [exact Hin|].
  split; [unfold feature_from_slug; rewrite lower_idem; reflexivity|].
  split.
  { unfold feature_from_slug.
    repeat match goal with
           | |- context [if ?b then _ else _] =>
               let E := fresh "E" in destruct b eqn:E; [try discriminate|]
           end; try discriminate.
    intros _.
    match goal with
    | H : (Py.contains "bank_stmt" _ && negb _)%bool = true |- _ =>
        apply andb_true_iff in H as [Hb Hd]; apply negb_true_iff in Hd; auto
    end. }
  intros features f Hf. rewrite Hf in Hin.
  assert (Hcases : Fuzz.mem_str f DEV_STRONG = true \/ Fuzz.mem_str f DEV_COMMON = true).
  { apply in_app_or in Hin as [H|H]; [left | right]; apply mem_str_In; exact H. }
  unfold score_role. cbn [fst]. rewrite !score_role_fold.
  assert (Hincr : forall fs, counted fs (counter_incr f features)
                    = counted fs features + (if Fuzz.mem_str f fs then 1 else 0)).
  { intros fs. unfold counted. induction features as [|[k n] l IH]; cbn [counter_incr].
    - cbn [List.filter]. destruct (Fuzz.mem_str f fs); cbn; lia.
    - destruct (String.eqb_spec k f) as [->|Hne]; cbn [List.filter].
      + destruct (Fuzz.mem_str f fs); cbn [map snd]; rewrite ?list_sum_cons; lia.
      + destruct (Fuzz.mem_str k fs); cbn [map snd]; rewrite ?list_sum_cons; rewrite IH; lia. }
  rewrite !Hincr. destruct Hcases as [H|H]; rewrite H.
  - rewrite (strong_not_common f H). lia.
  - destruct (Fuzz.mem_str f DEV_STRONG); lia.
Qed.

Lemma role_of_range (scored : list scored_entry) (key : string) :
  In (role_of scored key) ["developer_entity"; "group_entity"; "other_entity"].
Proof.
  unfold role_of. destruct scored as [|e0 rest]; [cbn; tauto|].
  destruct (String.eqb key (se_key e0)); [cbn; tauto|].
  destruct (String.eqb key _); cbn; tauto.
Qed.

Lemma org_variant_range (slugs : list string) :
  In (org_variant_from_slugs slugs) ["llp"; "partnership"; "company"].
Proof.
  unfold org_variant_from_slugs.
  repeat match goal with
         | |- context [if ?b then _ else _] => destruct b; [cbn; tauto|]
         end.
  cbn; tauto.
Qed.

Lemma collect_info_fails (db : Db.database) (rows : list Db.doc_row) (e : exn) :
  collect_info db rows = Err e ->
  exists row, In row rows /\ e = UndefinedTable (Db.row_id row)
              /\ Db.chunk_tables db !! Db.row_id row = None.
Proof.
  induction rows as [|row rows IH]; cbn [collect_info]; [discriminate|].
  unfold info_of, Db.get_chunks.
  destruct (Db.chunk_tables db !! Db.row_id row) as [t|] eqn:E; cbn [bind].
  - destruct (collect_info db rows) as [more|e']; cbn [bind]; [discriminate|].
    intros [= <-]. destruct (IH eq_refl) as (r & Hr & He & Ht).
    exists r. split; [right; exact Hr | auto].
  - intros [= <-]. exists row. split; [left; reflexivity | auto].
Qed.

(** X24.  Every write of a role-inference run concerns a stored document and
    repeats its slug, state, confidence and status (a missing status
    becoming "unassigned"): only the role and the organization variant
    are new.  The run fails only for a document without chunk table, and
    then before any write. *)
Theorem role_writes_keep_classification :
  forall (state : string) (apply : bool) (db : Db.database),
    match run_events state apply db with
    | Ok evs =>
        Forall (fun ev => match ev with
                          | Update c => role_write db c
                          | _ => True
                          end) evs
    | Err e =>
        (exists row, In row (Db.documents db) /\ e = UndefinedTable (Db.row_id row)
                     /\ Db.chunks_table_exists db (Db.row_id row) = false)
        /\ run state apply db = Err e
    end.
Proof.
  intros state apply db. unfold run, run_events.
  assert (Hdocs : forall r, In r (Db.get_documents db None None) -> In r (Db.documents db)).
  { intros r. apply Permutation_in. apply (sort_asc_perm Db.row_id). }
  destruct (collect_info db (Db.get_documents db None None)) as [infos|e] eqn:Hc;
    cbn [bind].
  - pose proof (collect_info_rows db _ infos Hc) as Hrows.
    destruct (build_clusters infos) as [|kc cl] eqn:Hb; [repeat constructor|].
    rewrite <- Hb. set (scored := sorted_scored (build_clusters infos)).
    apply List.Forall_forall. intros ev Hev.
    apply in_flat_map in Hev as (e & He & Hev).
    apply in_app_or in Hev as [Hev|[<-|[]]]; [|exact I].
    apply in_map_iff in Hev as (row & <- & Hrow).
    assert (Hmem : member (build_clusters infos) (se_key e) row).
    { apply (Permutation_in _ (sorted_scored_perm _)) in He.
      unfold score_clusters in He. apply in_map_iff in He as ([k c] & <- & Hkc).
      destruct (score_role (features c)) as [dv gr]. exists c. auto. }
    apply build_clusters_member in Hmem as (fs & slug & Hinfo).
    exists row. cbn [write_back c_doc_id c_slug c_state_variant c_confidence c_status
                     c_top_entity c_org_variant].
    split.
    { apply Hdocs. rewrite <- Hrows. apply in_map_iff.
      exists (row, Some (se_key e), fs, slug). split; [reflexivity | exact Hinfo]. }
    repeat (split; [reflexivity|]).
    split.
    + eexists. split; [reflexivity | apply role_of_range].
    + eexists. split; [reflexivity|].
      apply (Permutation_in _ (sorted_scored_perm _)) in He.
      unfold score_clusters in He. apply in_map_iff in He as ([k c] & <- & Hkc).
      destruct (score_role (features c)) as [dv gr]. apply org_variant_range.
  - split; [|reflexivity].
    apply collect_info_fails in Hc as (row & Hr & He & Ht).
    exists row. split; [apply Hdocs; exact Hr|]. split; [exact He|].
    unfold Db.chunks_table_exists. rewrite Ht. reflexivity.
Qed.

End RoleFacts.

(** ** resolver.py: the text window of the rules *)

Section WindowFacts.
Import Resolver.

Lemma text_length_cons (c : Db.chunk) (chunks : list Db.chunk) :
  text_length (c :: chunks)
  = (Z.of_nat (String.length (Db.chunk_text c)) + text_length chunks)%Z.
Proof. unfold text_length. cbn [map]. rewrite list_sum_cons. lia. Qed.

Lemma texts_snoc (texts : list string) (t : string) :
  Z.of_nat (list_sum (map String.length (texts ++ [t])))
  = (Z.of_nat (list_sum (map String.length texts)) + Z.of_nat (String.length t))%Z.
Proof. rewrite map_app, list_sum_app. cbn [map]. rewrite list_sum_cons. cbn. lia. Qed.

Lemma collect_texts_prefix (chunks : list Db.chunk) :
  forall (texts : list string),
    exists k,
      k <= length chunks
      /\ collect_texts chunks texts = texts ++ map Db.chunk_text (take k chunks)
      /\ (forall j, 0 < j -> j < k ->
            (Z.of_nat (list_sum (map String.length texts)) + text_length (take j chunks)
             <= 20000)%Z)
      /\ (k < length chunks ->
          0 < k
          /\ (20000 < Z.of_nat (list_sum (map String.length texts))
                       + text_length (take k chunks))%Z).
Proof.
  induction chunks as [|c chunks IH]; intros texts; cbn [collect_texts].
  - exists 0. cbn [length take map]. rewrite app_nil_r.
    split; [lia|]. split; [reflexivity|]. split; intros; lia.
  - rewrite texts_snoc.
    destruct (Z.ltb_spec 20000
                (Z.of_nat (list_sum (map String.length texts))
                 + Z.of_nat (String.length (Db.chunk_text c)))) as [Hbig|Hsmall].
    + exists 1. cbn [take map length]. rewrite take_0. cbn [map].
      split; [lia|]. split; [reflexivity|]. split; [intros j H0 H1; lia|].
      intros _. split; [lia|]. rewrite text_length_cons. unfold text_length. cbn. lia.
    + destruct (IH (texts ++ [Db.chunk_text c])) as (k & Hk & Heq & Hlow & Hhigh).
      rewrite texts_snoc in Hlow, Hhigh.
      exists (S k). cbn [take map length].
      split; [lia|].
      split; [rewrite Heq, <- app_assoc; reflexivity|].
      split.
      * intros j H0 Hj. destruct j as [|j]; [lia|]. cbn [take].
        rewrite text_length_cons. destruct j as [|j].
        -- rewrite take_0. unfold text_length. cbn. lia.
        -- specialize (Hlow (S j) ltac:(lia) ltac:(lia)). lia.
      * intros Hlt. split; [lia|].
        destruct (Hhigh ltac:(lia)) as [_ H]. rewrite text_length_cons. lia.
Qed.

(** X25.  The rules read the texts of the first chunks, joined by line feeds:
    the shortest run of chunks with more than 20000 characters of text,
    and never more than twelve chunks. *)
Theorem text_window_prefix :
  forall (chunks : list Db.chunk),
    exists k,
      k <= 12 /\ k <= length chunks
      /\ full_text_of chunks = Py.join Py.NL (map Db.chunk_text (take k chunks))
      /\ (forall j, 0 < j -> j < k -> (text_length (take j chunks) <= 20000)%Z)
      /\ (k < Nat.min 12 (length chunks) -> (20000 < text_length (take k chunks))%Z)
      /\ ((text_length (take 12 chunks) <= 20000)%Z -> k = Nat.min 12 (length chunks)).
Proof.
  intros chunks. unfold full_text_of.
  destruct (collect_texts_prefix (take 12 chunks) []) as (k & Hk & Heq & Hlow & Hhigh).
  rewrite length_take in Hk, Hhigh. cbn [app] in Heq.
  change (Z.of_nat (list_sum (map String.length []))) with 0%Z in Hlow, Hhigh.
  assert (Htake : forall j, j <= k -> take j (take 12 chunks) = take j chunks).
  { intros j Hj. rewrite take_take. f_equal. lia. }
  exists k. split; [lia|]. split; [lia|].
  split; [rewrite Heq, Htake by lia; reflexivity|].
  split.
  { intros j H0 Hj. rewrite <- Htake by lia. specialize (Hlow j H0 Hj). lia. }
  split.
  { intros Hlt. rewrite <- Htake by lia. destruct (Hhigh Hlt) as [_ H]. lia. }
  intros Hsmall. destruct (Nat.lt_ge_cases k (Nat.min 12 (length chunks))) as [Hlt|Hge];
    [|lia].
  exfalso. destruct (Hhigh Hlt) as [_ H].
  assert (Hmono : (text_length (take k (take 12 chunks)) <= text_length (take 12 chunks))%Z).
  { unfold text_length. rewrite <- (take_drop k (take 12 chunks)) at 2.
    rewrite !map_app, list_sum_app. lia. }
  lia.
Qed.

End WindowFacts.

(** ** signals.py: a filename made of words of the category *)

Section FilenameWords.
Local Open Scope Q_scope.
Import Fuzz.

Lemma score_fold_ge_tokens (base : string) (names : list string) :
  forall acc cand, In cand names ->
    token_set_ratio base cand
    <= fold_left
         (fun best cand =>
            Py.max (Py.max (Py.max best (token_set_ratio base cand))
                           (partial_ratio base cand))
                   (QRatio base cand))
         names acc.
Proof.
  assert (Hmono : forall names acc,
            acc <= fold_left
                     (fun best cand =>
                        Py.max (Py.max (Py.max best (token_set_ratio base cand))
                                       (partial_ratio base cand))
                               (QRatio base cand))
                     names acc).
  { intros l. induction l as [|c l IH]; intros acc; cbn [fold_left]; [lra|].
    eapply Qle_trans; [|apply IH].
    eapply Qle_trans; [|apply py_max_ge_l].
    eapply Qle_trans; [|apply py_max_ge_l]. apply py_max_ge_l. }
  induction names as [|c names IH]; intros acc cand Hin; [destruct Hin|].
  cbn [fold_left]. destruct Hin as [->|Hin]; [|apply IH; exact Hin].
  eapply Qle_trans; [|apply Hmono].
  eapply Qle_trans; [|apply py_max_ge_l].
  eapply Qle_trans; [|apply py_max_ge_l]. apply py_max_ge_r.
Qed.

Lemma split_truthy (s : string) : split s <> [] -> Py.truthy s = true.
Proof.
  intros H. unfold Py.truthy. destruct (String.eqb_spec s "") as [->|_]; [|reflexivity].
  exfalso. apply H. reflexivity.
Qed.

Lemma filter_all {A : Type} (f : A -> bool) (l : list A) :
  (forall x, In x l -> f x = true) -> List.filter f l = l.
Proof.
  induction l as [|x l IH]; intros H; cbn [List.filter]; [reflexivity|].
  rewrite (H x (or_introl eq_refl)), IH; [reflexivity|].
  intros y Hy. apply H. right. exact Hy.
Qed.

Lemma filter_none {A : Type} (f : A -> bool) (l : list A) :
  (forall x, In x l -> f x = false) -> List.filter f l = [].
Proof.
  induction l as [|x l IH]; intros H; cbn [List.filter]; [reflexivity|].
  rewrite (H x (or_introl eq_refl)). apply IH. intros y Hy. apply H. right. exact Hy.
Qed.

Lemma token_subset_full (s1 s2 : string) :
  split s1 <> [] -> (forall t, In t (split s1) -> In t (split s2)) ->
  token_set_ratio s1 s2 = 100.
Proof.
  intros Hne Hsub. unfold token_set_ratio.
  assert (Hne2 : split s2 <> []).
  { destruct (split s1) as [|t ts]; [contradiction|]. intros Hnil.
    specialize (Hsub t (or_introl eq_refl)). rewrite Hnil in Hsub. destruct Hsub. }
  rewrite (split_truthy s1 Hne), (split_truthy s2 Hne2). cbn [negb orb].
  assert (Ha : forall x, In x (dedup_str (split s1)) -> mem_str x (dedup_str (split s2)) = true).
  { intros x Hx. apply mem_str_In, dedup_str_in, Hsub, dedup_str_in. exact Hx. }
  destruct (dedup_str (split s1)) as [|a ta] eqn:Ea.
  { exfalso. destruct (split s1) as [|t ts]; [contradiction|].
    assert (In t (dedup_str (t :: ts))) by (apply dedup_str_in; left; reflexivity).
    rewrite Ea in H. destruct H. }
  destruct (dedup_str (split s2)) as [|b tb] eqn:Eb.
  { exfalso. specialize (Ha a (or_introl eq_refl)). discriminate. }
  unfold inter_str, diff_str.
  rewrite (filter_all _ (a :: ta) Ha).
  rewrite (filter_none (fun x => negb (mem_str x (b :: tb))) (a :: ta)).
  - reflexivity.
  - intros x Hx. rewrite (Ha x Hx). reflexivity.
Qed.

(** X26.  A filename whose words, once path and extension are removed, all occur
    in one name of the category (its display name, its slug with blanks
    for underscores, or a synonym) scores 1. *)
Theorem filename_words_score_one :
  forall (file_name cand : string) (cat : SourceOfTruth.Category),
    In cand (SourceOfTruth.names_for_fuzzy cat) ->
    split (cleaned_name file_name) <> [] ->
    (forall t, In t (split (cleaned_name file_name)) -> In t (split cand)) ->
    Signals.score_filename file_name cat == 1.
Proof.
  intros file_name cand cat Hcand Hne Hsub.
  destruct (score_filename_range file_name cat) as [_ H1].
  apply Qle_antisym; [exact H1|].
  unfold Signals.score_filename. fold (cleaned_name file_name).
  pose proof (score_fold_ge_tokens (cleaned_name file_name)
                (SourceOfTruth.names_for_fuzzy cat) 0 cand Hcand) as Hge.
  rewrite (token_subset_full _ _ Hne Hsub) in Hge.
  apply Qle_shift_div_l; [lra|]. lra.
Qed.

Lemma filename_words_score_one_witness :
  In "gst and pan" (SourceOfTruth.names_for_fuzzy
                      (Corpus.category "dev_company_gst_pan" "GST and PAN"
                         "developer_entity" None ["gstin"; "pan"]))
  /\ Signals.score_filename "uploads/PAN GST.pdf"
       (Corpus.category "dev_company_gst_pan" "GST and PAN" "developer_entity" None
          ["gstin"; "pan"]) == 1.
Proof.
  assert (H : In "gst and pan"
                (SourceOfTruth.names_for_fuzzy
                   (Corpus.category "dev_company_gst_pan" "GST and PAN"
                      "developer_entity" None ["gstin"; "pan"]))).
  { vm_compute. tauto. }
  split; [exact H|].
  apply (filename_words_score_one "uploads/PAN GST.pdf" "gst and pan" _ H).
  - vm_compute. discriminate.
  - vm_compute. intros t [<-|[<-|[]]]; tauto.
Defined.

End FilenameWords.
